(** * MORSHDI-IMAGE-APP: the image-generation page of [src/index.tsx]

    A shallow embedding of the single module of the repository: the bounded
    history kept in [localStorage], the composition of the prompt sent to the
    image API, the [generate] flow with its [try]/[catch]/[finally], and the
    event handlers of the page.

    - JavaScript strings are sequences of UTF-16 code units ([list N]).
    - The module-level [let] variables, the DOM properties the code reads or
      writes, [localStorage] and the calls made to the outside world form one
      record, [World]; the code is written in a state-and-exception monad
      over it.
    - What the host provides and the repository does not define
      ([JSON.parse], [JSON.stringify], [String.prototype.toLowerCase], the
      text of engine errors) is an interface, [Platform].
    - An [await] is a point where the flow hands control back to the event
      loop.  [generate] is given twice: in one piece, the settled values of
      its promises being read from a [FlowEnv], and cut at its [await]s for
      the event loop of [step]; [run_flow_generate] relates the two.
    - [localStorage] is a finite map from keys to strings that takes every
      write: its quota is left out, as is the way the generated image comes
      wrapped in the response (an image is its [imageBytes]).
    - The download listener leaves the page as it is: it is a function from
      the page to the link it clicks.  The copy listener of a history item
      and [window.scrollTo] change nothing of the above and are left out.

    Line numbers refer to [src/index.tsx]. *)

From Stdlib Require Import ZArith NArith List String Ascii Lia Bool.
From Stdlib Require Import DecimalN DecimalPos.
From stdpp Require Import gmap list.
Import ListNotations.
Open Scope N_scope.
Set Warnings "-register-all".

(** ** JavaScript strings *)

Abbreviation jsstring := (list N).

(** A literal of the source, as code units. *)
Definition lit (s : string) : jsstring :=
  map N_of_ascii (list_ascii_of_string s).
Arguments lit : simpl never.

(** [if (s)] / [!s] on a string: only the empty string is falsy. *)
Definition truthy (s : jsstring) : bool :=
  match s with
  | [] => false
  | _ :: _ => true
  end.

(** ECMAScript [WhiteSpace] and [LineTerminator] code points, the set that
    [String.prototype.trim] strips. *)
Definition isWhiteSpace (c : N) : bool :=
  ((9 <=? c) && (c <=? 13)) || (c =? 32) || (c =? 160) || (c =? 5760)
  || ((8192 <=? c) && (c <=? 8202)) || (c =? 8232) || (c =? 8233)
  || (c =? 8239) || (c =? 8287) || (c =? 12288) || (c =? 65279).

Fixpoint trimStart (s : jsstring) : jsstring :=
  match s with
  | c :: s' => if isWhiteSpace c then trimStart s' else s
  | [] => []
  end.

Definition trimEnd (s : jsstring) : jsstring := rev (trimStart (rev s)).

Definition trim (s : jsstring) : jsstring := trimEnd (trimStart s).

Fixpoint startsWith (s pat : jsstring) {struct pat} : bool :=
  match pat, s with
  | [], _ => true
  | p :: pat', c :: s' => (c =? p) && startsWith s' pat'
  | _ :: _, [] => false
  end.

(** [s.includes(pat)] *)
Fixpoint includes (s pat : jsstring) : bool :=
  startsWith s pat ||
  match s with
  | [] => false
  | _ :: s' => includes s' pat
  end.

(** [s.replace(/-/g, ' ')] *)
Definition replace_hyphens (s : jsstring) : jsstring :=
  map (fun c => if c =? 45 then 32 else c) s.

(** [parts.join(sep)] *)
Fixpoint join (sep : jsstring) (parts : list jsstring) : jsstring :=
  match parts with
  | [] => []
  | [p] => p
  | p :: rest => p ++ sep ++ join sep rest
  end.

(** [s.split(sep)] for a non-empty separator: [acc] holds the piece being
    read, reversed; [skip] counts the code units of a separator just matched
    that are still to be passed over. *)
Fixpoint split_go (sep s acc : jsstring) (skip : nat) : list jsstring :=
  match s with
  | [] => [rev acc]
  | c :: s' =>
    match skip with
    | S k => split_go sep s' acc k
    | O =>
      if startsWith s sep
      then rev acc :: split_go sep s' [] (length sep - 1)
      else split_go sep s' (c :: acc) 0
    end
  end.

(** [s.split(sep)]; with the empty separator the string falls apart into its
    code units. *)
Definition split (s sep : jsstring) : list jsstring :=
  match sep with
  | [] => map (fun c => [c]) s
  | _ :: _ => split_go sep s [] 0
  end.

(** ** Run-time values *)

(** The values [JSON.parse] can return.  A number is kept as an integer:
    the only number the program stores is [Date.now()]. *)
Inductive JSValue : Type :=
| JNull
| JBool (b : bool)
| JNumber (n : Z)
| JString (s : jsstring)
| JArray (elems : list JSValue)
| JObject (fields : list (jsstring * JSValue)).

(** [v.name]: [None] is [undefined].  Reading a property of [null] throws
    and is handled where it happens; arrays and primitives have none of the
    properties the program reads this way. *)
Fixpoint assoc (name : jsstring) (fields : list (jsstring * JSValue))
  : option JSValue :=
  match fields with
  | [] => None
  | (k, v) :: rest => if bool_decide (k = name) then Some v else assoc name rest
  end.

Definition get_prop (v : JSValue) (name : jsstring) : option JSValue :=
  match v with
  | JObject fields => assoc name fields
  | _ => None
  end.

(** [interface HistoryItem], lines 13-18. *)
Module HistoryItem.
Record t : Type := mk {
  id : jsstring;
  prompt : jsstring;
  imageUrl : jsstring;
  timestamp : Z
}.

(** The object literal of lines 240-245, as a run-time value. *)
Definition to_value (it : t) : JSValue :=
  JObject [ (lit "id", JString (id it));
            (lit "prompt", JString (prompt it));
            (lit "imageUrl", JString (imageUrl it));
            (lit "timestamp", JNumber (timestamp it)) ].
End HistoryItem.

Definition HISTORY_KEY : jsstring := lit "imageGenerationHistory".
Definition MAX_HISTORY_ITEMS : nat := 30.

(** What a [throw] carries: an [Error] with its [message] property, or any
    other value. *)
Inductive Message : Type :=
| MsgString (s : jsstring)
| MsgOther (shown : jsstring).

Inductive Thrown : Type :=
| JSError (message : Message)
| NonError.

(** ** The host *)

(** Built-ins of the JavaScript engine that the page calls and the repository
    does not define. *)
Class Platform : Type := {
  (* [JSON.parse]; [None] when it throws a [SyntaxError] *)
  JSON_parse : jsstring -> option JSValue;
  JSON_stringify : JSValue -> jsstring;
  toLowerCase : jsstring -> jsstring;
  (* the text an [undefined] or non-string value turns into *)
  ToString : option JSValue -> jsstring;
  (* the [message] of the [TypeError] raised at an expression *)
  TypeError_message : jsstring -> jsstring
}.

(** ** The page *)

(** The [disabled] property of the six controls of [setControlsDisabled]. *)
Record Controls : Type := mkControls {
  generateButton : bool;
  promptEl : bool;
  negativePromptEl : bool;
  aspectRatioSelect : bool;
  qualityPresetSelect : bool;
  cameraViewSelect : bool
}.

(** The content of [statusEl]: written through [innerText] (lines 193, 236)
    or, by [showStatusError], as the red [span] around a message. *)
Inductive Status : Type :=
| InnerText (text : jsstring)
| ErrorSpan (message : jsstring).

(** The request of lines 56-60, with the key the client was built with. *)
Record ImageRequest : Type := mkImageRequest {
  req_apiKey : jsstring;
  req_model : jsstring;
  req_prompt : jsstring;
  req_aspectRatio : option jsstring
}.

(** Calls that leave the page. *)
Inductive Call : Type :=
| GenerateImages (req : ImageRequest)
| OpenSelectKey
| ConsoleError (what : jsstring).

Record World : Type := mkWorld {
  (* state variables, lines 105-109 *)
  prompt : jsstring;
  negativePrompt : jsstring;
  aspectRatio : jsstring;
  qualityPreset : jsstring;
  cameraView : jsstring;
  (* DOM *)
  promptEl_value : jsstring;
  disabled : Controls;
  downloadButton_disabled : bool;
  outputImage_src : jsstring;
  outputImage_display : jsstring;
  statusEl : Status;
  historyContainer_hidden : bool;
  historyGrid : list JSValue;
  (* storage and the outside *)
  localStorage : gmap jsstring jsstring;
  calls : list Call
}.

Definition set_prompt (v : jsstring) (w : World) : World :=
  mkWorld v (negativePrompt w) (aspectRatio w) (qualityPreset w) (cameraView w)
    (promptEl_value w) (disabled w) (downloadButton_disabled w)
    (outputImage_src w) (outputImage_display w) (statusEl w)
    (historyContainer_hidden w) (historyGrid w) (localStorage w) (calls w).

Definition set_negativePrompt (v : jsstring) (w : World) : World :=
  mkWorld (prompt w) v (aspectRatio w) (qualityPreset w) (cameraView w)
    (promptEl_value w) (disabled w) (downloadButton_disabled w)
    (outputImage_src w) (outputImage_display w) (statusEl w)
    (historyContainer_hidden w) (historyGrid w) (localStorage w) (calls w).

Definition set_aspectRatio (v : jsstring) (w : World) : World :=
  mkWorld (prompt w) (negativePrompt w) v (qualityPreset w) (cameraView w)
    (promptEl_value w) (disabled w) (downloadButton_disabled w)
    (outputImage_src w) (outputImage_display w) (statusEl w)
    (historyContainer_hidden w) (historyGrid w) (localStorage w) (calls w).

Definition set_qualityPreset (v : jsstring) (w : World) : World :=
  mkWorld (prompt w) (negativePrompt w) (aspectRatio w) v (cameraView w)
    (promptEl_value w) (disabled w) (downloadButton_disabled w)
    (outputImage_src w) (outputImage_display w) (statusEl w)
    (historyContainer_hidden w) (historyGrid w) (localStorage w) (calls w).

Definition set_cameraView (v : jsstring) (w : World) : World :=
  mkWorld (prompt w) (negativePrompt w) (aspectRatio w) (qualityPreset w) v
    (promptEl_value w) (disabled w) (downloadButton_disabled w)
    (outputImage_src w) (outputImage_display w) (statusEl w)
    (historyContainer_hidden w) (historyGrid w) (localStorage w) (calls w).

Definition set_promptEl_value (v : jsstring) (w : World) : World :=
  mkWorld (prompt w) (negativePrompt w) (aspectRatio w) (qualityPreset w)
    (cameraView w) v (disabled w) (downloadButton_disabled w)
    (outputImage_src w) (outputImage_display w) (statusEl w)
    (historyContainer_hidden w) (historyGrid w) (localStorage w) (calls w).

Definition set_disabled (c : Controls) (w : World) : World :=
  mkWorld (prompt w) (negativePrompt w) (aspectRatio w) (qualityPreset w)
    (cameraView w) (promptEl_value w) c (downloadButton_disabled w)
    (outputImage_src w) (outputImage_display w) (statusEl w)
    (historyContainer_hidden w) (historyGrid w) (localStorage w) (calls w).

Definition set_downloadButton_disabled (b : bool) (w : World) : World :=
  mkWorld (prompt w) (negativePrompt w) (aspectRatio w) (qualityPreset w)
    (cameraView w) (promptEl_value w) (disabled w) b
    (outputImage_src w) (outputImage_display w) (statusEl w)
    (historyContainer_hidden w) (historyGrid w) (localStorage w) (calls w).

Definition set_outputImage_src (v : jsstring) (w : World) : World :=
  mkWorld (prompt w) (negativePrompt w) (aspectRatio w) (qualityPreset w)
    (cameraView w) (promptEl_value w) (disabled w) (downloadButton_disabled w)
    v (outputImage_display w) (statusEl w)
    (historyContainer_hidden w) (historyGrid w) (localStorage w) (calls w).

Definition set_outputImage_display (v : jsstring) (w : World) : World :=
  mkWorld (prompt w) (negativePrompt w) (aspectRatio w) (qualityPreset w)
    (cameraView w) (promptEl_value w) (disabled w) (downloadButton_disabled w)
    (outputImage_src w) v (statusEl w)
    (historyContainer_hidden w) (historyGrid w) (localStorage w) (calls w).

Definition set_statusEl (s : Status) (w : World) : World :=
  mkWorld (prompt w) (negativePrompt w) (aspectRatio w) (qualityPreset w)
    (cameraView w) (promptEl_value w) (disabled w) (downloadButton_disabled w)
    (outputImage_src w) (outputImage_display w) s
    (historyContainer_hidden w) (historyGrid w) (localStorage w) (calls w).

Definition set_historyContainer_hidden (b : bool) (w : World) : World :=
  mkWorld (prompt w) (negativePrompt w) (aspectRatio w) (qualityPreset w)
    (cameraView w) (promptEl_value w) (disabled w) (downloadButton_disabled w)
    (outputImage_src w) (outputImage_display w) (statusEl w)
    b (historyGrid w) (localStorage w) (calls w).

Definition set_historyGrid (g : list JSValue) (w : World) : World :=
  mkWorld (prompt w) (negativePrompt w) (aspectRatio w) (qualityPreset w)
    (cameraView w) (promptEl_value w) (disabled w) (downloadButton_disabled w)
    (outputImage_src w) (outputImage_display w) (statusEl w)
    (historyContainer_hidden w) g (localStorage w) (calls w).

Definition set_localStorage (ls : gmap jsstring jsstring) (w : World) : World :=
  mkWorld (prompt w) (negativePrompt w) (aspectRatio w) (qualityPreset w)
    (cameraView w) (promptEl_value w) (disabled w) (downloadButton_disabled w)
    (outputImage_src w) (outputImage_display w) (statusEl w)
    (historyContainer_hidden w) (historyGrid w) ls (calls w).

Definition set_calls (cs : list Call) (w : World) : World :=
  mkWorld (prompt w) (negativePrompt w) (aspectRatio w) (qualityPreset w)
    (cameraView w) (promptEl_value w) (disabled w) (downloadButton_disabled w)
    (outputImage_src w) (outputImage_display w) (statusEl w)
    (historyContainer_hidden w) (historyGrid w) (localStorage w) cs.

(** ** Statements: state and exceptions *)

Inductive Result (A : Type) : Type :=
| Ok (a : A)
| Threw (e : Thrown).
Arguments Ok {A} a.
Arguments Threw {A} e.

Definition M (A : Type) : Type := World -> World * Result A.

Definition ret {A} (a : A) : M A := fun w => (w, Ok a).

Definition throw {A} (e : Thrown) : M A := fun w => (w, Threw e).

Definition bind {A B} (m : M A) (k : A -> M B) : M B :=
  fun w =>
    match m w with
    | (w', Ok a) => k a w'
    | (w', Threw e) => (w', Threw e)
    end.

Notation "'let*' x ':=' m 'in' k" := (bind m (fun x => k))
  (at level 10, x name, m at level 100, k at level 200).
Notation "m >> k" := (bind m (fun _ => k))
  (at level 90, right associativity).

(** [try { body } catch (e) { handler e }] *)
Definition try_catch {A} (body : M A) (handler : Thrown -> M A) : M A :=
  fun w =>
    match body w with
    | (w', Ok a) => (w', Ok a)
    | (w', Threw e) => handler e w'
    end.

(** [try { body } finally { cleanup }]: the cleanup runs whatever the body
    did, and the body's completion stands unless the cleanup itself throws. *)
Definition try_finally {A} (body : M A) (cleanup : M unit) : M A :=
  fun w =>
    match body w with
    | (w', r) =>
      match cleanup w' with
      | (w'', Ok _) => (w'', r)
      | (w'', Threw e) => (w'', Threw e)
      end
    end.

Definition gets {A} (f : World -> A) : M A := fun w => (w, Ok (f w)).

Definition modify (f : World -> World) : M unit := fun w => (f w, Ok tt).

Definition call (c : Call) : M unit :=
  modify (fun w => set_calls (calls w ++ [c]) w).

(** The world a statement leaves, and how it completed. *)
Definition exec {A} (m : M A) (w : World) : World := fst (m w).
Definition completion {A} (m : M A) (w : World) : Result A := snd (m w).

(** ** What a flow meets at its [await]s *)

Inductive Settled : Type :=
| Resolved
| Rejected (e : Thrown).

(** How [ai.models.generateImages] settles: with a response, whose
    [generatedImages] may be missing and otherwise lists the [imageBytes] of
    each image, or with a rejection. *)
Inductive ApiOutcome : Type :=
| ApiResponds (generatedImages : option (list jsstring))
| ApiRejects (e : Thrown).

Record FlowEnv : Type := mkFlowEnv {
  (* [process.env.API_KEY]; [None] when undefined *)
  API_KEY : option jsstring;
  (* whether [window.aistudio?.openSelectKey] is there *)
  aistudio_openSelectKey : bool;
  selectKey_settles : Settled;
  generateImages_settles : ApiOutcome;
  randomUUID : jsstring;
  Date_now : Z
}.

(** [if (!apiKey)]: the key to go on with, if there is one. *)
Definition usable_key (k : option jsstring) : option jsstring :=
  match k with
  | Some s => if truthy s then Some s else None
  | None => None
  end.

Section Page.
Context {host : Platform}.

Definition TypeError (at_expr : string) : Thrown :=
  JSError (MsgString (TypeError_message (lit at_expr))).

(** Lines 171-173. *)
Definition showStatusError (message : jsstring) : M unit :=
  modify (set_statusEl (ErrorSpan message)).

(** Lines 175-182. *)
Definition setControlsDisabled (d : bool) : M unit :=
  modify (set_disabled (mkControls d d d d d d)).

(** Lines 31-40, up to the [await]: [true] when the host's dialog was opened
    and its promise is awaited. *)
Definition openApiKeyDialog_call (available : bool) : M bool :=
  if available
  then call OpenSelectKey >> ret true
  else
    showStatusError
      (lit "API key selection is not available. Please configure the API_KEY environment variable.")
    >> ret false.

(** An [await] resuming with a settled promise. *)
Definition resume (s : Settled) : M unit :=
  match s with
  | Resolved => ret tt
  | Rejected e => throw e
  end.

Definition openApiKeyDialog (env : FlowEnv) : M unit :=
  let* awaiting := openApiKeyDialog_call (aistudio_openSelectKey env) in
  if awaiting then resume (selectKey_settles env) else ret tt.

(** Lines 49-60: the request goes out. *)
Definition generateImage_request (prompt apiKey aspectRatio : jsstring)
  : M unit :=
  let config := if truthy aspectRatio then Some aspectRatio else None in
  call (GenerateImages
          (mkImageRequest apiKey (lit "imagen-4.0-generate-001") prompt config)).

(** Lines 62-72: the [await] of line 56 resumes. *)
Definition generateImage_response (o : ApiOutcome) : M unit :=
  match o with
  | ApiRejects e => throw e
  | ApiResponds None | ApiResponds (Some []) =>
    throw (JSError (MsgString
      (lit "No images were generated. The prompt may have been blocked.")))
  | ApiResponds (Some (base64ImageBytes :: _)) =>
    let imageUrl := lit "data:image/jpeg;base64," ++ base64ImageBytes in
    modify (set_outputImage_src imageUrl) >>
    modify (set_outputImage_display (lit "block"))
  end.

(** Lines 44-73. *)
Definition generateImage (prompt apiKey aspectRatio : jsstring) (env : FlowEnv)
  : M unit :=
  generateImage_request prompt apiKey aspectRatio >>
  generateImage_response (generateImages_settles env).

(** *** History functions, lines 283-309 *)

Definition getHistory : M JSValue :=
  let* historyJson := gets (fun w => localStorage w !! HISTORY_KEY) in
  match historyJson with
  | None => ret (JArray [])
  | Some historyJson =>
    if negb (truthy historyJson) then ret (JArray [])
    else
      try_catch
        (match JSON_parse historyJson with
         | Some v => ret v
         | None => throw (JSError (MsgString (lit "SyntaxError")))
         end)
        (fun e =>
           call (ConsoleError (lit "Failed to parse history from localStorage"))
           >> ret (JArray []))
  end.

Definition saveHistory (history : JSValue) : M unit :=
  modify (fun w =>
    set_localStorage (<[HISTORY_KEY := JSON_stringify history]> (localStorage w)) w).

Definition addToHistory (item : HistoryItem.t) : M unit :=
  let* history := getHistory in
  match history with
  | JArray elems =>
    (* history.unshift(item) *)
    let elems := HistoryItem.to_value item :: elems in
    let elems :=
      if (MAX_HISTORY_ITEMS <? length elems)%nat
      then take MAX_HISTORY_ITEMS elems
      else elems in
    saveHistory (JArray elems)
  | _ => throw (TypeError "history.unshift")
  end.

(** [history.length === 0], for a [history] that is not [null]. *)
Definition length_is_zero (history : JSValue) : bool :=
  match history with
  | JArray [] => true
  | JString [] => true
  | JObject fields =>
    match assoc (lit "length") fields with
    | Some (JNumber 0) => true
    | _ => false
    end
  | _ => false
  end.

(** The body of the [forEach] of lines 322-383: reading [item.imageUrl] is
    the only step that can throw; the element then joins the grid, carrying
    the item its listeners close over. *)
Definition renderHistory_item (item : JSValue) : M unit :=
  match item with
  | JNull => throw (TypeError "item.imageUrl")
  | _ => modify (fun w => set_historyGrid (historyGrid w ++ [item]) w)
  end.

Fixpoint forEach {A} (l : list A) (f : A -> M unit) : M unit :=
  match l with
  | [] => ret tt
  | x :: rest => f x >> forEach rest f
  end.

(** Lines 311-384. *)
Definition renderHistory : M unit :=
  let* history := getHistory in
  match history with
  | JNull => throw (TypeError "history.length")
  | _ =>
    if length_is_zero history
    then modify (set_historyContainer_hidden true)
    else
      modify (set_historyContainer_hidden false) >>
      modify (set_historyGrid []) >>
      match history with
      | JArray items => forEach items renderHistory_item
      | _ => throw (TypeError "history.forEach")
      end
  end.

(** The click listener of a history element, lines 363-373. *)
Definition historyItem_click (item : JSValue) : M unit :=
  let imageUrl :=
    match get_prop item (lit "imageUrl") with
    | Some (JString u) => u
    | other => ToString other
    end in
  modify (set_outputImage_src imageUrl) >>
  modify (set_outputImage_display (lit "block")) >>
  modify (set_downloadButton_disabled false) >>
  match get_prop item (lit "prompt") with
  | Some (JString item_prompt) =>
    let mainPrompt := hd [] (split item_prompt (lit ", photorealistic")) in
    modify (set_promptEl_value mainPrompt) >>
    modify (set_prompt mainPrompt)
  | _ => throw (TypeError "item.prompt.split")
  end.

(** *** The prompt sent to the API, lines 199-233 *)

Definition commonKeywords : jsstring :=
  join (lit ", ")
    [ lit "photorealistic"; lit "film still"; lit "movie scene";
      lit "fit prompt"; lit "no distortion"; lit "no deformations";
      lit "no text overlays" ].

Definition qualityKeywords (qualityPreset : jsstring) : jsstring :=
  if bool_decide (qualityPreset = lit "sd") then
    lit "720p resolution, standard quality, sharp focus, basic detail"
  else if bool_decide (qualityPreset = lit "hd") then
    lit "1080p, Full HD resolution, high quality, high detail, realistic look"
  else if bool_decide (qualityPreset = lit "ultra") then
    lit "4K+, ultra realistic, shot on ARRI ALEXA LF, Anamorphic Lenses, High Contrast, Gritty Film Grain, Shallow Depth of Field, extreme atmospheric realism, deep blacks (Chiaroscuro)"
  else [].

Definition cameraViewPrompt (cameraView : jsstring) : jsstring :=
  if bool_decide (cameraView = lit "default") then []
  else lit ", Shot from a " ++ replace_hyphens cameraView ++ lit " perspective".

Definition finalPrompt (w : World) : jsstring :=
  let finalPrompt :=
    prompt w ++ cameraViewPrompt (cameraView w) ++ lit ", "
    ++ qualityKeywords (qualityPreset w) ++ lit ", " ++ commonKeywords in
  if truthy (trim (negativePrompt w))
  then finalPrompt ++ lit ". Negative prompt: " ++ trim (negativePrompt w)
  else finalPrompt.

(** *** The [catch] block, lines 248-276 *)

Definition errorMessage_of (e : Thrown) : Message :=
  match e with
  | JSError message => message
  | NonError => MsgString (lit "An unknown error occurred.")
  end.

(** The text a template literal makes of the message. *)
Definition shown (m : Message) : jsstring :=
  match m with
  | MsgString s => s
  | MsgOther text => text
  end.

(** Lines 253-270: [(userFriendlyMessage, shouldOpenDialog)]. *)
Definition classify (errorMessage : Message) : jsstring * bool :=
  let unclassified := (lit "Error: " ++ shown errorMessage, false) in
  match errorMessage with
  | MsgString s =>
    if includes s (lit "Requested entity was not found.") then
      (lit "Model not found. This can be caused by an invalid API key or permission issues. Please check your API key.",
       true)
    else if includes s (lit "API_KEY_INVALID")
            || includes s (lit "API key not valid")
            || includes (toLowerCase s) (lit "permission denied") then
      (lit "Your API key is invalid. Please add a valid API key.", true)
    else unclassified
  | MsgOther _ => unclassified
  end.

(** Lines 249-272: report the error; the result is [shouldOpenDialog]. *)
Definition generate_catch_report (e : Thrown) : M bool :=
  call (ConsoleError (lit "Image generation/editing failed:")) >>
  let '(userFriendlyMessage, shouldOpenDialog) := classify (errorMessage_of e) in
  showStatusError userFriendlyMessage >>
  ret shouldOpenDialog.

Definition generate_catch (env : FlowEnv) (e : Thrown) : M unit :=
  let* shouldOpenDialog := generate_catch_report e in
  if shouldOpenDialog then openApiKeyDialog env else ret tt.

(** Lines 193-196. *)
Definition generate_enter : M unit :=
  modify (set_statusEl (InnerText (lit "Generating image..."))) >>
  modify (set_outputImage_display (lit "none")) >>
  modify (set_downloadButton_disabled true) >>
  setControlsDisabled true.

(** Lines 236-247, once [generateImage] has returned. *)
Definition generate_succeeded (finalPrompt uuid : jsstring) (now : Z) : M unit :=
  modify (set_statusEl (InnerText (lit "Image generated successfully."))) >>
  modify (set_downloadButton_disabled false) >>
  let* src := gets outputImage_src in
  let newHistoryItem := HistoryItem.mk uuid finalPrompt src now in
  addToHistory newHistoryItem >>
  renderHistory.

(** [async function generate()], lines 184-280. *)
Definition generate (env : FlowEnv) : M unit :=
  match usable_key (API_KEY env) with
  | None =>
    showStatusError (lit "API key is not configured. Please add your API key.") >>
    openApiKeyDialog env
  | Some apiKey =>
    generate_enter >>
    try_finally
      (try_catch
         (let* finalPrompt := gets finalPrompt in
          let* aspectRatio := gets aspectRatio in
          generateImage finalPrompt apiKey aspectRatio env >>
          generate_succeeded finalPrompt (randomUUID env) (Date_now env))
         (generate_catch env))
      (setControlsDisabled false)
  end.

(** The click listener of the generate button, lines 132-138. *)
Definition generateButton_click (env : FlowEnv) : M unit :=
  let* prompt := gets prompt in
  if negb (truthy (trim prompt))
  then showStatusError (lit "Please enter a prompt to generate an image.")
  else generate env.

(** The click listener of the clear-history button, lines 160-168;
    [confirmed] is the answer to [window.confirm]. *)
Definition clearHistoryButton_click (confirmed : bool) : M unit :=
  if confirmed
  then
    modify (fun w => set_localStorage (delete HISTORY_KEY (localStorage w)) w) >>
    renderHistory
  else ret tt.

(** Lines 386-388. *)
Definition initial_load : M unit :=
  renderHistory >>
  modify (set_downloadButton_disabled true).

End Page.

(** A page before the module runs: the state variables as lines 105-109
    initialise them, and a document in which no control is disabled, no
    image is shown and the history container is hidden. *)
Definition blank_page (storage : gmap jsstring jsstring) : World :=
  mkWorld [] [] (lit "16:9") (lit "ultra") (lit "default")
    [] (mkControls false false false false false false) false
    [] [] (InnerText []) true [] storage [].

(** ** Observations *)

(** The prompts of the requests made to the image API, oldest first. *)
Definition sent_prompts (cs : list Call) : list jsstring :=
  omap (fun c => match c with
                 | GenerateImages req => Some (req_prompt req)
                 | _ => None
                 end) cs.

(** How many times the host's key selection was opened. *)
Fixpoint selectKey_opened (cs : list Call) : nat :=
  match cs with
  | [] => O
  | OpenSelectKey :: rest => S (selectKey_opened rest)
  | _ :: rest => selectKey_opened rest
  end.

(** Only [generateImage_request] adds to the requests made to the API. *)
Definition requests (w : World) : list jsstring := sent_prompts (calls w).

(** A statement that leaves an observation of the world as it found it. *)
Definition keeps {A B} (f : World -> B) (m : M A) : Prop :=
  forall w, f (exec m w) = f w.

Definition all_enabled : Controls :=
  mkControls false false false false false false.

(** The texts [generate] shows for a rejected key and [openApiKeyDialog]
    for a host without key selection. *)
Definition invalid_key_message : jsstring :=
  lit "Your API key is invalid. Please add a valid API key.".

Definition selectKey_unavailable_message : jsstring :=
  lit "API key selection is not available. Please configure the API_KEY environment variable.".

(** [JSON.parse] reads back the histories [JSON.stringify] wrote. *)
Definition JSON_reads_back_histories {host : Platform} : Prop :=
  forall h : list HistoryItem.t,
    JSON_parse (JSON_stringify (JArray (map HistoryItem.to_value h)))
    = Some (JArray (map HistoryItem.to_value h)).

(** The part of [s] before the first place where [sep] starts. *)
Fixpoint before (sep s : jsstring) : jsstring :=
  match s with
  | [] => []
  | c :: s' => if startsWith s sep then [] else c :: before sep s'
  end.

(** ** The event loop *)

(** A [generate] flow suspended at one of its three [await]s. *)
Inductive Pending : Type :=
| AwaitNoKeyDialog                                (* line 189 *)
| AwaitGenerateImages (finalPrompt : jsstring)    (* line 56, called at 235 *)
| AwaitCatchDialog.                               (* line 275 *)

(** What wakes a suspended flow: the promise it awaits has settled.  The
    response of the API comes with what the rest of the [try] block reads
    from the host. *)
Inductive Wake : Type :=
| GenerateImagesSettled (o : ApiOutcome) (uuid : jsstring) (now : Z)
                        (selectKey_available : bool)
| SelectKeySettled (s : Settled).

Record Machine : Type := mkMachine {
  world : World;
  awaiting : list Pending
}.

(** What can happen to the page.  The browser delivers no input, change or
    click event to a form control whose [disabled] is set. *)
Inductive Event : Type :=
| PromptInput (value : jsstring)
| NegativePromptInput (value : jsstring)
| AspectRatioChange (value : jsstring)
| QualityPresetChange (value : jsstring)
| CameraViewChange (value : jsstring)
| GenerateClick (api_key : option jsstring) (selectKey_available : bool)
| ClearHistoryClick (confirmed : bool)
| HistoryItemClick (i : nat)
| Settle (i : nat) (wk : Wake).

Section EventLoop.
Context {host : Platform}.

(** Run a statement and hand back how it completed. *)
Definition attempt {A} (m : M A) : M (Result A) :=
  fun w => let '(w', r) := m w in (w', Ok r).

(** [generate] from its call to its first [await]. *)
Definition generate_start (api_key : option jsstring) (available : bool)
  : M (option Pending) :=
  match usable_key api_key with
  | None =>
    showStatusError (lit "API key is not configured. Please add your API key.") >>
    let* awaiting := openApiKeyDialog_call available in
    ret (if awaiting then Some AwaitNoKeyDialog else None)
  | Some apiKey =>
    generate_enter >>
    let* finalPrompt := gets finalPrompt in
    let* aspectRatio := gets aspectRatio in
    generateImage_request finalPrompt apiKey aspectRatio >>
    ret (Some (AwaitGenerateImages finalPrompt))
  end.

(** [generate] from one [await] to the next, or to its end ([None]). *)
Definition generate_resume (p : Pending) (wk : Wake) : M (option Pending) :=
  match p, wk with
  | AwaitNoKeyDialog, SelectKeySettled s =>
    resume s >> ret None
  | AwaitGenerateImages finalPrompt,
    GenerateImagesSettled o uuid now available =>
    let* tried :=
      attempt (generateImage_response o >>
               generate_succeeded finalPrompt uuid now) in
    match tried with
    | Ok _ => setControlsDisabled false >> ret None
    | Threw e =>
      let* shouldOpenDialog := generate_catch_report e in
      if shouldOpenDialog then
        let* awaiting := openApiKeyDialog_call available in
        if awaiting then ret (Some AwaitCatchDialog)
        else setControlsDisabled false >> ret None
      else setControlsDisabled false >> ret None
    end
  | AwaitCatchDialog, SelectKeySettled s =>
    try_finally (resume s) (setControlsDisabled false) >> ret None
  | _, _ => ret (Some p)
  end.

Definition wakes (p : Pending) (wk : Wake) : bool :=
  match p, wk with
  | AwaitNoKeyDialog, SelectKeySettled _ => true
  | AwaitGenerateImages _, GenerateImagesSettled _ _ _ _ => true
  | AwaitCatchDialog, SelectKeySettled _ => true
  | _, _ => false
  end.

(** A whole flow, its promises settling as [env] says, with nothing else
    happening in between. *)
Definition run_flow (env : FlowEnv) : M unit :=
  let dialog := SelectKeySettled (selectKey_settles env) in
  let* p := generate_start (API_KEY env) (aistudio_openSelectKey env) in
  match p with
  | None => ret tt
  | Some (AwaitGenerateImages finalPrompt) =>
    let* q :=
      generate_resume (AwaitGenerateImages finalPrompt)
        (GenerateImagesSettled (generateImages_settles env) (randomUUID env)
           (Date_now env) (aistudio_openSelectKey env)) in
    match q with
    | None => ret tt
    | Some q => generate_resume q dialog >> ret tt
    end
  | Some p => generate_resume p dialog >> ret tt
  end.

(** The click listener of lines 132-138, up to the first [await]. *)
Definition generateButton_click_start (api_key : option jsstring)
    (available : bool) : M (option Pending) :=
  let* prompt := gets prompt in
  if negb (truthy (trim prompt))
  then
    showStatusError (lit "Please enter a prompt to generate an image.") >>
    ret None
  else generate_start api_key available.

(** One turn of the event loop.  An exception that escapes a listener, or
    the rejection of a flow nobody awaits, is reported by the browser and
    leaves the page as the listener left it. *)
Definition step (m : Machine) (ev : Event) : Machine :=
  let w := world m in
  match ev with
  | PromptInput v =>
    if promptEl (disabled w) then m
    else mkMachine (set_prompt v (set_promptEl_value v w)) (awaiting m)
  | NegativePromptInput v =>
    if negativePromptEl (disabled w) then m
    else mkMachine (set_negativePrompt v w) (awaiting m)
  | AspectRatioChange v =>
    if aspectRatioSelect (disabled w) then m
    else mkMachine (set_aspectRatio v w) (awaiting m)
  | QualityPresetChange v =>
    if qualityPresetSelect (disabled w) then m
    else mkMachine (set_qualityPreset v w) (awaiting m)
  | CameraViewChange v =>
    if cameraViewSelect (disabled w) then m
    else mkMachine (set_cameraView v w) (awaiting m)
  | GenerateClick api_key available =>
    if generateButton (disabled w) then m
    else
      match generateButton_click_start api_key available w with
      | (w', Ok (Some p)) => mkMachine w' (awaiting m ++ [p])
      | (w', _) => mkMachine w' (awaiting m)
      end
  | ClearHistoryClick confirmed =>
    mkMachine (exec (clearHistoryButton_click confirmed) w) (awaiting m)
  | HistoryItemClick i =>
    match historyGrid w !! i with
    | Some item => mkMachine (exec (historyItem_click item) w) (awaiting m)
    | None => m
    end
  | Settle i wk =>
    match awaiting m !! i with
    | Some p =>
      if wakes p wk then
        match generate_resume p wk w with
        | (w', Ok (Some q)) => mkMachine w' (<[i := q]> (awaiting m))
        | (w', _) => mkMachine w' (delete i (awaiting m))
        end
      else m
    | None => m
    end
  end.

Definition run (m : Machine) (evs : list Event) : Machine :=
  fold_left step evs m.

(** The page once the module has been evaluated on a freshly parsed
    document. *)
Definition loaded (w : World) : Machine :=
  mkMachine (exec initial_load w) [].

(** A request to the image API is outstanding. *)
Definition in_flight (m : Machine) : Prop :=
  exists finalPrompt, AwaitGenerateImages finalPrompt ∈ awaiting m.

End EventLoop.

(** A flow that went past the key check, hence through [setControlsDisabled(true)]. *)
Definition keyed (p : Pending) : bool :=
  match p with
  | AwaitNoKeyDialog => false
  | AwaitGenerateImages _ | AwaitCatchDialog => true
  end.

Fixpoint keyed_flows (l : list Pending) : nat :=
  match l with
  | [] => O
  | p :: rest => ((if keyed p then 1 else 0) + keyed_flows rest)%nat
  end.

(** At most one flow is past the key check, and while there is one the
    generate button is disabled. *)
Definition single_flight (m : Machine) : Prop :=
  keyed_flows (awaiting m) = O \/
  (keyed_flows (awaiting m) = 1%nat /\ generateButton (disabled (world m)) = true).

(** ** A host to run the page on

    A small engine that provides the interface: a compact JSON printer in
    the manner of [JSON.stringify] (no white space, decimal integers, the
    quote and the backslash escaped in strings), the parser of what it
    prints, and ASCII lower-casing.  The theorems below hold on any
    [Platform]; this one is there to run the page on concrete inputs. *)
Module Host.

Definition is_digit (c : N) : bool := (48 <=? c) && (c <=? 57).

Fixpoint digits (u : Decimal.uint) : jsstring :=
  match u with
  | Decimal.Nil => []
  | Decimal.D0 u => 48 :: digits u
  | Decimal.D1 u => 49 :: digits u
  | Decimal.D2 u => 50 :: digits u
  | Decimal.D3 u => 51 :: digits u
  | Decimal.D4 u => 52 :: digits u
  | Decimal.D5 u => 53 :: digits u
  | Decimal.D6 u => 54 :: digits u
  | Decimal.D7 u => 55 :: digits u
  | Decimal.D8 u => 56 :: digits u
  | Decimal.D9 u => 57 :: digits u
  end.

Definition cons_digit (c : N) (u : Decimal.uint) : Decimal.uint :=
  if c =? 48 then Decimal.D0 u
  else if c =? 49 then Decimal.D1 u
  else if c =? 50 then Decimal.D2 u
  else if c =? 51 then Decimal.D3 u
  else if c =? 52 then Decimal.D4 u
  else if c =? 53 then Decimal.D5 u
  else if c =? 54 then Decimal.D6 u
  else if c =? 55 then Decimal.D7 u
  else if c =? 56 then Decimal.D8 u
  else Decimal.D9 u.

(** The longest run of digits at the head of [s], and what follows it. *)
Fixpoint read_digits (s : jsstring) : Decimal.uint * jsstring :=
  match s with
  | c :: s' =>
    if is_digit c
    then let '(u, rest) := read_digits s' in (cons_digit c u, rest)
    else (Decimal.Nil, s)
  | [] => (Decimal.Nil, [])
  end.

Definition number (n : Z) : jsstring :=
  if (n <? 0)%Z then 45 :: digits (N.to_uint (Z.abs_N n))
  else digits (N.to_uint (Z.to_N n)).

(** A string between its quotes. *)
Fixpoint escape (s : jsstring) : jsstring :=
  match s with
  | [] => []
  | c :: s' =>
    if (c =? 34) || (c =? 92) then 92 :: c :: escape s' else c :: escape s'
  end.

Definition quoted (s : jsstring) : jsstring := 34 :: escape s ++ [34].

(** Read a string from after its opening quote to its closing quote. *)
Fixpoint read_string (s : jsstring) : option (jsstring * jsstring) :=
  match s with
  | [] => None
  | c :: s' =>
    if c =? 34 then Some ([], s')
    else if c =? 92 then
      match s' with
      | d :: s'' =>
        if (d =? 34) || (d =? 92) then
          match read_string s'' with
          | Some (body, rest) => Some (d :: body, rest)
          | None => None
          end
        else None
      | [] => None
      end
    else
      match read_string s' with
      | Some (body, rest) => Some (c :: body, rest)
      | None => None
      end
  end.

(** The elements of an array after the first, up to the closing bracket. *)
Definition elements_tail (print : JSValue -> jsstring)
  : list JSValue -> jsstring :=
  fix go l :=
    match l with
    | [] => [93]
    | x :: rest => 44 :: print x ++ go rest
    end.

(** The members of an object after the first, up to the closing brace. *)
Definition members_tail (print : JSValue -> jsstring)
  : list (jsstring * JSValue) -> jsstring :=
  fix go l :=
    match l with
    | [] => [125]
    | (k, x) :: rest => 44 :: quoted k ++ 58 :: print x ++ go rest
    end.

Fixpoint stringify (v : JSValue) : jsstring :=
  match v with
  | JNull => lit "null"
  | JBool true => lit "true"
  | JBool false => lit "false"
  | JNumber n => number n
  | JString s => quoted s
  | JArray [] => [91; 93]
  | JArray (x :: rest) => 91 :: stringify x ++ elements_tail stringify rest
  | JObject [] => [123; 125]
  | JObject ((k, x) :: rest) =>
    123 :: quoted k ++ 58 :: stringify x ++ members_tail stringify rest
  end.

(** After the first code unit of a literal, the rest of it. *)
Definition literal (rest_of_word : string) (v : JSValue) (s : jsstring)
  : option (JSValue * jsstring) :=
  if startsWith s (lit rest_of_word)
  then Some (v, drop (String.length rest_of_word) s)
  else None.

Fixpoint parse_value (fuel : nat) (s : jsstring)
  : option (JSValue * jsstring) :=
  match fuel with
  | O => None
  | S fuel =>
    match s with
    | [] => None
    | c :: s' =>
      if c =? 110 then literal "ull" JNull s'
      else if c =? 116 then literal "rue" (JBool true) s'
      else if c =? 102 then literal "alse" (JBool false) s'
      else if c =? 34 then
        match read_string s' with
        | Some (body, rest) => Some (JString body, rest)
        | None => None
        end
      else if c =? 91 then
        match s' with
        | [] => None
        | d :: s'' =>
          if d =? 93 then Some (JArray [], s'')
          else
            match parse_value fuel s' with
            | Some (x, rest) =>
              match parse_elements fuel rest with
              | Some (xs, rest') => Some (JArray (x :: xs), rest')
              | None => None
              end
            | None => None
            end
        end
      else if c =? 123 then
        match s' with
        | [] => None
        | d :: s'' =>
          if d =? 125 then Some (JObject [], s'')
          else
            match parse_member fuel s' with
            | Some (kx, rest) =>
              match parse_members fuel rest with
              | Some (kxs, rest') => Some (JObject (kx :: kxs), rest')
              | None => None
              end
            | None => None
            end
        end
      else if c =? 45 then
        match read_digits s' with
        | (Decimal.Nil, _) => None
        | (u, rest) => Some (JNumber (- Z.of_N (N.of_uint u)), rest)
        end
      else if is_digit c then
        let '(u, rest) := read_digits s in
        Some (JNumber (Z.of_N (N.of_uint u)), rest)
      else None
    end
  end
with parse_elements (fuel : nat) (s : jsstring)
  : option (list JSValue * jsstring) :=
  match fuel with
  | O => None
  | S fuel =>
    match s with
    | [] => None
    | c :: s' =>
      if c =? 93 then Some ([], s')
      else if c =? 44 then
        match parse_value fuel s' with
        | Some (x, rest) =>
          match parse_elements fuel rest with
          | Some (xs, rest') => Some (x :: xs, rest')
          | None => None
          end
        | None => None
        end
      else None
    end
  end
with parse_member (fuel : nat) (s : jsstring)
  : option ((jsstring * JSValue) * jsstring) :=
  match fuel with
  | O => None
  | S fuel =>
    match s with
    | [] => None
    | c :: s' =>
      if c =? 34 then
        match read_string s' with
        | Some (k, d :: rest) =>
          if d =? 58 then
            match parse_value fuel rest with
            | Some (x, rest') => Some ((k, x), rest')
            | None => None
            end
          else None
        | _ => None
        end
      else None
    end
  end
with parse_members (fuel : nat) (s : jsstring)
  : option (list (jsstring * JSValue) * jsstring) :=
  match fuel with
  | O => None
  | S fuel =>
    match s with
    | [] => None
    | c :: s' =>
      if c =? 125 then Some ([], s')
      else if c =? 44 then
        match parse_member fuel s' with
        | Some (kx, rest) =>
          match parse_members fuel rest with
          | Some (kxs, rest') => Some (kx :: kxs, rest')
          | None => None
          end
        | None => None
        end
      else None
    end
  end.

(** The whole text must be one value. *)
Definition parse (s : jsstring) : option JSValue :=
  match parse_value (S (length s)) s with
  | Some (v, []) => Some v
  | _ => None
  end.

(** A bound on the fuel [parse_value] needs to read back what [stringify]
    printed. *)
Fixpoint size (v : JSValue) : nat :=
  match v with
  | JArray l => S (list_sum (map (fun x => S (size x)) l))
  | JObject fs => S (list_sum (map (fun kx => S (S (size (snd kx)))) fs))
  | _ => O
  end.

(** What may follow a number: anything but a digit. *)
Definition ends_number (rest : jsstring) : Prop :=
  match rest with
  | [] => True
  | c :: _ => is_digit c = false
  end.

(** [parse_value] reads [x] back from what [stringify] printed, given
    enough fuel and a text that goes on without a digit. *)
Definition reads_back (x : JSValue) : Prop :=
  forall fuel rest, (size x < fuel)%nat -> ends_number rest ->
    parse_value fuel (stringify x ++ rest) = Some (x, rest).

Definition lower (c : N) : N :=
  if (65 <=? c) && (c <=? 90) then c + 32 else c.

#[export] Instance platform : Platform := {|
  JSON_parse := parse;
  JSON_stringify := stringify;
  toLowerCase := map lower;
  ToString := fun v =>
    match v with
    | None => lit "undefined"
    | Some (JString s) => s
    | Some v => stringify v
    end;
  TypeError_message := fun e => e ++ lit " is not a function"
|}.

End Host.

(** ** Sample inputs *)

(** A page on which the user typed "a cat" and chose the [sd] preset. *)
Definition cat_page : World :=
  set_qualityPreset (lit "sd")
    (set_prompt (lit "a cat") (set_promptEl_value (lit "a cat") (blank_page ∅))).

(** A host environment with a key, a key-selection dialog that resolves, and
    an API that answers as given. *)
Definition env_with (o : ApiOutcome) : FlowEnv :=
  mkFlowEnv (Some (lit "KEY")) true Resolved o (lit "uuid-1") 1730000000000.

(** ** The download listener, lines 140-158 *)

Definition is_lower_or_digit (c : N) : bool :=
  ((97 <=? c) && (c <=? 122)) || ((48 <=? c) && (c <=? 57)).

(** The class [[a-z0-9\s-]]: what [.replace(/[^a-z0-9\s-]/g, '')] keeps. *)
Definition filename_unit (c : N) : bool :=
  is_lower_or_digit c || isWhiteSpace c || (c =? 45).

Definition strip_unsafe (s : jsstring) : jsstring := List.filter filename_unit s.

(** [.replace(/\s+/g, '-')]: [in_run] tells that the white space being read
    has already given its hyphen. *)
Fixpoint hyphenate_go (in_run : bool) (s : jsstring) : jsstring :=
  match s with
  | [] => []
  | c :: s' =>
    if isWhiteSpace c
    then if in_run then hyphenate_go true s' else 45 :: hyphenate_go true s'
    else c :: hyphenate_go false s'
  end.

Definition hyphenate (s : jsstring) : jsstring := hyphenate_go false s.

(** A code unit a file name stem is made of: [a-z], [0-9] or the hyphen. *)
Definition stem_unit (c : N) : Prop :=
  is_lower_or_digit c || (c =? 45) = true.

(** The link the listener builds and clicks. *)
Record Download : Type := mkDownload {
  link_href : jsstring;
  link_download : jsstring
}.

Section Download.
Context {host : Platform}.

(** Lines 147-152. *)
Definition safePrompt (value : jsstring) : jsstring :=
  let cleaned := hyphenate (strip_unsafe (toLowerCase (trim value))) in
  if truthy cleaned then cleaned else lit "generated-image".

(** Lines 140-158: the download the click starts, if any.  The page itself
    is left as it was: the link is appended to the body and removed again. *)
Definition downloadButton_click (w : World) : option Download :=
  if negb (truthy (outputImage_src w))
     || bool_decide (outputImage_display w = lit "none")
  then None
  else
    let filename := take 50 (safePrompt (promptEl_value w)) ++ lit ".jpeg" in
    Some (mkDownload (outputImage_src w) filename).

End Download.

(** ** Further observations *)

(** The requests made to the image API, oldest first. *)
Definition sent_requests (cs : list Call) : list ImageRequest :=
  omap (fun c => match c with
                 | GenerateImages req => Some req
                 | _ => None
                 end) cs.

Definition requests_made (w : World) : list ImageRequest :=
  sent_requests (calls w).

(** The request [generate] sends, lines 49-60 and 235. *)
Definition request_of (apiKey : jsstring) (w : World) : ImageRequest :=
  mkImageRequest apiKey (lit "imagen-4.0-generate-001") (finalPrompt w)
    (if truthy (aspectRatio w) then Some (aspectRatio w) else None).

(** The page when the request has gone out. *)
Definition requested (apiKey : jsstring) (w : World) : World :=
  exec (generateImage_request (finalPrompt w) apiKey (aspectRatio w))
    (exec generate_enter w).

(** How a response makes [generateImage] throw, lines 56-67: the rejection
    of the call itself, or the error raised for a response without images. *)
Definition failure_of (o : ApiOutcome) : option Thrown :=
  match o with
  | ApiRejects e => Some e
  | ApiResponds None | ApiResponds (Some []) =>
    Some (JSError (MsgString
      (lit "No images were generated. The prompt may have been blocked.")))
  | ApiResponds (Some (_ :: _)) => None
  end.

Definition model_not_found_message : jsstring :=
  lit "Model not found. This can be caused by an invalid API key or permission issues. Please check your API key.".

Definition all_disabled : Controls := mkControls true true true true true true.

(** A flow past the key check is under way. *)
Definition busy (m : Machine) : Prop :=
  exists p, p ∈ awaiting m /\ keyed p = true.

(** At most one flow is past the key check, and while there is one all six
    controls are disabled. *)
Definition controls_locked (m : Machine) : Prop :=
  keyed_flows (awaiting m) = O \/
  (keyed_flows (awaiting m) = 1%nat /\ disabled (world m) = all_disabled).

(** The page can get into state [m]. *)
Definition reachable {host : Platform} (m : Machine) : Prop :=
  exists w evs, m = run (loaded w) evs.

(** The events the browser keeps from a disabled control. *)
Definition from_control (ev : Event) : bool :=
  match ev with
  | PromptInput _ | NegativePromptInput _ | AspectRatioChange _
  | QualityPresetChange _ | CameraViewChange _ | GenerateClick _ _ => true
  | ClearHistoryClick _ | HistoryItemClick _ | Settle _ _ => false
  end.

(** ** Events while a request is out *)

(** The events that put an image on show: a click on a thumbnail of the
    history, which stays live while a request is out (lines 363-366), and
    a response of the API that lists an image (lines 69-72). *)
Definition shows_image (ev : Event) : bool :=
  match ev with
  | HistoryItemClick _ => true
  | Settle _ (GenerateImagesSettled o _ _ _) =>
    match failure_of o with
    | None => true
    | Some _ => false
    end
  | _ => false
  end.

(** The output image is hidden and cannot be downloaded, as lines 194-195
    leave it. *)
Definition image_hidden (w : World) : Prop :=
  outputImage_display w = lit "none" /\ downloadButton_disabled w = true.

(** The response of the API reaching the flow suspended at index [i]. *)
Definition api_settles (i : nat) (o : ApiOutcome) (uuid : jsstring) (now : Z)
    (selectKey_available : bool) : Event :=
  Settle i (GenerateImagesSettled o uuid now selectKey_available).

(** ** Further sample inputs *)

(** Two stored items, the newer first. *)
Definition two_items : list HistoryItem.t :=
  [ HistoryItem.mk (lit "id-2") (lit "a dog") (lit "data:,2") 2;
    HistoryItem.mk (lit "id-1") (lit "a cat") (lit "data:,1") 1 ].

(** The page of [cat_page] with the text [blob] stored as the history. *)
Definition cat_page_storing (blob : jsstring) : World :=
  set_localStorage {[ HISTORY_KEY := blob ]} cat_page.

(** An environment without a key and without key selection. *)
Definition env_without_key : FlowEnv :=
  mkFlowEnv None false Resolved (ApiResponds None) (lit "uuid-1") 1730000000000.

(** The page while its first request is outstanding. *)
Definition generating : Machine :=
  run (host := Host.platform) (loaded (host := Host.platform) (blank_page ∅))
    [PromptInput (lit "a cat"); GenerateClick (Some (lit "KEY")) true].

(** The page once "a cat" has been typed into the prompt field. *)
Definition typed : Machine :=
  run (host := Host.platform) (loaded (host := Host.platform) (blank_page ∅))
    [PromptInput (lit "a cat")].

(** A request outstanding on a page that stored [blob] as its history. *)
Definition generating_on (blob : jsstring) : Machine :=
  run (host := Host.platform)
    (loaded (host := Host.platform) (cat_page_storing blob))
    [GenerateClick (Some (lit "KEY")) true].

(** The same, the history cleared while the request is out. *)
Definition cleared_while_generating : Machine :=
  step (host := Host.platform)
    (generating_on
       (JSON_stringify (Platform := Host.platform)
          (JArray (map HistoryItem.to_value two_items))))
    (ClearHistoryClick true).

(** * Proofs *)

Ltac run_monad :=
  unfold exec, completion, call, bind, ret, throw, gets, modify, try_catch,
    try_finally in *;
  cbn [fst snd] in *.

(** ** Strings *)

Lemma startsWith_app (pat rest : jsstring) : startsWith (pat ++ rest) pat = true.
Proof.
  induction pat as [|p pat IH]; simpl; [reflexivity|].
  rewrite N.eqb_refl. exact IH.
Qed.

Lemma startsWith_true (s pat : jsstring) :
  startsWith s pat = true -> s = pat ++ drop (length pat) s.
Proof.
  revert s. induction pat as [|p pat IH]; intros s Hs; simpl in *.
  - reflexivity.
  - destruct s as [|c s]; [discriminate|].
    apply andb_true_iff in Hs as [Hc Hs]. apply N.eqb_eq in Hc. subst c.
    simpl. f_equal. apply IH, Hs.
Qed.

(** ** The reference host reads back what it prints *)
Module HostFacts.
Import Host.

Lemma JSValue_nested_ind (P : JSValue -> Prop) :
  P JNull -> (forall b, P (JBool b)) -> (forall n, P (JNumber n)) ->
  (forall s, P (JString s)) ->
  (forall l, Forall P l -> P (JArray l)) ->
  (forall fs, Forall (fun kx => P (snd kx)) fs -> P (JObject fs)) ->
  forall v, P v.
Proof.
  intros Hnull Hbool Hnum Hstr Harr Hobj.
  fix IH 1. intros [ |b|n|s|l|fs].
  - exact Hnull.
  - apply Hbool.
  - apply Hnum.
  - apply Hstr.
  - apply Harr. induction l as [|x l IHl]; constructor; [apply IH | exact IHl].
  - apply Hobj. induction fs as [|[k x] fs IHfs]; constructor; [apply IH | exact IHfs].
Qed.

Lemma read_digits_digits (u : Decimal.uint) (rest : jsstring) :
  ends_number rest -> read_digits (digits u ++ rest) = (u, rest).
Proof.
  intros Hrest.
  induction u as [|u IH|u IH|u IH|u IH|u IH|u IH|u IH|u IH|u IH|u IH];
    try (cbn [digits app read_digits]; simpl is_digit; cbv iota;
         rewrite IH; reflexivity).
  simpl. destruct rest as [|c rest]; [reflexivity|].
  simpl in Hrest. simpl. rewrite Hrest. reflexivity.
Qed.

Lemma to_uint_digit (n : N) :
  exists c ds, digits (N.to_uint n) = c :: ds /\ is_digit c = true.
Proof.
  assert (Hnn : N.to_uint n <> Decimal.Nil).
  { destruct n as [|p]; [discriminate | apply DecimalPos.Unsigned.to_uint_nonnil]. }
  destruct (N.to_uint n); try congruence; simpl; eauto.
Qed.

Lemma read_string_escape (s rest : jsstring) :
  read_string (escape s ++ 34 :: rest) = Some (s, rest).
Proof.
  induction s as [|c s IH]; [reflexivity|].
  cbn [escape]. destruct (c =? 34) eqn:E34; simpl orb.
  - apply N.eqb_eq in E34. subst c. cbn. cbn in IH. rewrite IH. reflexivity.
  - destruct (c =? 92) eqn:E92.
    + apply N.eqb_eq in E92. subst c. cbn. cbn in IH. rewrite IH. reflexivity.
    + cbn [app read_string]. rewrite E34, E92, IH. reflexivity.
Qed.

Lemma digit_dispatch (c : N) :
  is_digit c = true ->
  (c =? 110) = false /\ (c =? 116) = false /\ (c =? 102) = false /\
  (c =? 34) = false /\ (c =? 91) = false /\ (c =? 123) = false /\
  (c =? 45) = false.
Proof.
  unfold is_digit. intros Hc. apply andb_true_iff in Hc as [Hlo Hhi].
  apply N.leb_le in Hlo, Hhi.
  repeat split; apply N.eqb_neq; lia.
Qed.

Lemma stringify_head (v : JSValue) :
  exists d r, stringify v = d :: r /\ (d =? 93) = false.
Proof.
  destruct v as [ |[|]|n|s|[|x l]|[|[k x] fs]]; try (simpl; eauto; fail).
  unfold stringify, number. destruct (n <? 0)%Z; [simpl; eauto|].
  destruct (to_uint_digit (Z.to_N n)) as (c & ds & -> & Hc).
  exists c, ds. split; [reflexivity|].
  unfold is_digit in Hc. apply andb_true_iff in Hc as [Hlo Hhi].
  apply N.leb_le in Hlo, Hhi. apply N.eqb_neq. lia.
Qed.

Lemma parse_elements_tail (xs : list JSValue) :
  Forall reads_back xs ->
  forall fuel rest, (list_sum (map (fun x => S (size x)) xs) < fuel)%nat ->
    parse_elements fuel (elements_tail stringify xs ++ rest) = Some (xs, rest).
Proof.
  induction 1 as [|x xs Hx Hxs IH]; intros fuel rest Hfuel.
  - destruct fuel; [lia|]. reflexivity.
  - destruct fuel as [|fuel]; [simpl in Hfuel; lia|].
    simpl in Hfuel.
    cbn [elements_tail app parse_elements]. fold (elements_tail stringify).
    change (44 =? 93) with false. change (44 =? 44) with true. cbv iota.
    rewrite <- app_assoc. rewrite Hx; [|lia|].
    + rewrite IH by lia. reflexivity.
    + destruct xs; simpl; reflexivity.
Qed.

Lemma parse_member_quoted (k : jsstring) (x : JSValue) :
  reads_back x ->
  forall fuel rest, (S (size x) < fuel)%nat -> ends_number rest ->
    parse_member fuel (quoted k ++ 58 :: stringify x ++ rest)
    = Some ((k, x), rest).
Proof.
  intros Hx fuel rest Hfuel Hrest.
  destruct fuel as [|fuel]; [lia|].
  unfold quoted. cbn [app parse_member].
  change (34 =? 34) with true. cbv iota.
  rewrite <- app_assoc. cbn [app]. rewrite read_string_escape.
  change (58 =? 58) with true. cbv iota.
  rewrite Hx by (assumption || lia). reflexivity.
Qed.

Lemma parse_members_tail (fs : list (jsstring * JSValue)) :
  Forall (fun kx => reads_back (snd kx)) fs ->
  forall fuel rest,
    (list_sum (map (fun kx => S (S (size (snd kx)))) fs) < fuel)%nat ->
    parse_members fuel (members_tail stringify fs ++ rest) = Some (fs, rest).
Proof.
  induction 1 as [|[k x] fs Hx Hfs IH]; intros fuel rest Hfuel.
  - destruct fuel; [lia|]. reflexivity.
  - destruct fuel as [|fuel]; [simpl in Hfuel; lia|].
    simpl in Hfuel, Hx.
    cbn [members_tail app parse_members]. fold (members_tail stringify).
    change (44 =? 125) with false. change (44 =? 44) with true. cbv iota.
    rewrite <- !app_assoc. cbn [app]. rewrite <- app_assoc.
    rewrite (parse_member_quoted k x Hx fuel (members_tail stringify fs ++ rest))
      by (try lia; destruct fs as [|[? ?] ?]; simpl; reflexivity).
    rewrite IH by lia. reflexivity.
Qed.

Lemma parse_value_stringify (v : JSValue) : reads_back v.
Proof.
  induction v as [ |b|n|s|l IH|fs IH] using JSValue_nested_ind;
    intros fuel rest Hfuel Hrest; (destruct fuel as [|fuel]; [lia|]).
  - reflexivity.
  - destruct b; reflexivity.
  - unfold stringify, number. destruct (n <? 0)%Z eqn:Hneg.
    + cbn [app parse_value]. change (45 =? 110) with false.
      change (45 =? 116) with false. change (45 =? 102) with false.
      change (45 =? 34) with false. change (45 =? 91) with false.
      change (45 =? 123) with false. change (45 =? 45) with true. cbv iota.
      rewrite read_digits_digits by assumption.
      destruct (to_uint_digit (Z.abs_N n)) as (c & ds & Hds & _).
      pose proof (DecimalN.Unsigned.of_to (Z.abs_N n)) as Hback.
      destruct (N.to_uint (Z.abs_N n)); try discriminate;
        rewrite Hback; do 2 f_equal; f_equal;
        apply Z.ltb_lt in Hneg; rewrite N2Z.inj_abs_N; lia.
    + destruct (to_uint_digit (Z.to_N n)) as (c & ds & Hds & Hc).
      destruct (digit_dispatch c Hc) as (E1 & E2 & E3 & E4 & E5 & E6 & E7).
      rewrite Hds. cbn [app parse_value].
      rewrite E1, E2, E3, E4, E5, E6, E7, Hc.
      change (c :: ds ++ rest) with ((c :: ds) ++ rest). rewrite <- Hds.
      rewrite read_digits_digits by assumption.
      rewrite DecimalN.Unsigned.of_to.
      apply Z.ltb_ge in Hneg. rewrite Z2N.id by lia. reflexivity.
  - unfold stringify, quoted. cbn [app parse_value].
    change (34 =? 110) with false. change (34 =? 116) with false.
    change (34 =? 102) with false. change (34 =? 34) with true. cbv iota.
    rewrite <- app_assoc. cbn [app]. rewrite read_string_escape. reflexivity.
  - destruct l as [|x l]; [reflexivity|].
    inversion IH as [|? ? Hx Hl]; subst.
    simpl in Hfuel.
    cbn [stringify app parse_value]. fold (elements_tail stringify).
    change (91 =? 110) with false. change (91 =? 116) with false.
    change (91 =? 102) with false. change (91 =? 34) with false.
    change (91 =? 91) with true. cbv iota.
    destruct (stringify_head x) as (d & r & Hd & Hnot).
    rewrite <- app_assoc.
    destruct (stringify x ++ elements_tail stringify l ++ rest) as [|d' s'] eqn:Hs.
    { rewrite Hd in Hs. discriminate. }
    assert (d' = d) as -> by (rewrite Hd in Hs; simpl in Hs; congruence).
    rewrite Hnot. rewrite <- Hs.
    rewrite Hx; [|lia|destruct l; simpl; reflexivity].
    rewrite parse_elements_tail by (assumption || lia). reflexivity.
  - destruct fs as [|[k x] fs]; [reflexivity|].
    inversion IH as [|? ? Hx Hfs]; subst.
    simpl in Hfuel, Hx.
    cbn [stringify app parse_value]. fold (members_tail stringify).
    change (123 =? 110) with false. change (123 =? 116) with false.
    change (123 =? 102) with false. change (123 =? 34) with false.
    change (123 =? 91) with false. change (123 =? 123) with true. cbv iota.
    rewrite <- !app_assoc. cbn [app]. rewrite <- app_assoc.
    rewrite (parse_member_quoted k x Hx fuel (members_tail stringify fs ++ rest))
      by (try lia; destruct fs as [|[? ?] ?]; simpl; reflexivity).
    rewrite parse_members_tail by (assumption || lia). reflexivity.
Qed.

Lemma size_le_length (v : JSValue) : (size v <= length (stringify v))%nat.
Proof.
  induction v as [ |b|n|s|l IH|fs IH] using JSValue_nested_ind;
    try (simpl; lia).
  - destruct l as [|x l]; [simpl; lia|].
    inversion IH as [|? ? Hx Hl]; subst.
    cbn [stringify size map list_sum length]. fold (elements_tail stringify).
    rewrite length_app.
    assert (list_sum (map (fun x => S (size x)) l)
            < length (elements_tail stringify l))%nat; [|simpl; lia].
    clear -Hl. induction Hl as [|y l Hy Hl IHl]; simpl; [lia|].
    rewrite length_app. lia.
  - destruct fs as [|[k x] fs]; [simpl; lia|].
    inversion IH as [|? ? Hx Hfs]; subst. simpl in Hx.
    cbn [stringify size map list_sum length snd]. fold (members_tail stringify).
    rewrite !length_app. cbn [length]. rewrite length_app.
    assert (list_sum (map (fun kx => S (S (size (snd kx)))) fs)
            < length (members_tail stringify fs))%nat; [|unfold quoted; simpl; lia].
    clear -Hfs. induction Hfs as [|[j y] fs Hy Hfs IHfs]; simpl; [lia|].
    simpl in Hy. rewrite !length_app. simpl. rewrite length_app. lia.
Qed.

(** [JSON.parse(JSON.stringify(v))] gives [v] back. *)
Lemma parse_stringify (v : JSValue) : parse (stringify v) = Some v.
Proof.
  unfold parse.
  pose proof (parse_value_stringify v (S (length (stringify v))) []) as Hback.
  rewrite app_nil_r in Hback. rewrite Hback; [reflexivity| |exact I].
  pose proof (size_le_length v). lia.
Qed.

Lemma parse_empty : parse [] = None.
Proof. reflexivity. Qed.

End HostFacts.

Section HistoryFacts.
Context {host : Platform}.

Lemma getHistory_storage (w : World) :
  localStorage (exec getHistory w) = localStorage w.
Proof.
  unfold getHistory. run_monad.
  destruct (localStorage w !! HISTORY_KEY) as [blob|]; [|reflexivity].
  destruct (truthy blob); [|reflexivity]. simpl.
  destruct (JSON_parse blob); reflexivity.
Qed.

Lemma getHistory_reads_storage (w1 w2 : World) :
  localStorage w1 = localStorage w2 ->
  completion getHistory w1 = completion getHistory w2.
Proof.
  intros Hls. unfold getHistory. run_monad. rewrite Hls.
  destruct (localStorage w2 !! HISTORY_KEY) as [blob|]; [|reflexivity].
  destruct (truthy blob); [|reflexivity]. simpl.
  destruct (JSON_parse blob); reflexivity.
Qed.

Lemma getHistory_parsed (w : World) (blob : jsstring) (v : JSValue) :
  localStorage w !! HISTORY_KEY = Some blob ->
  JSON_parse [] = None ->
  JSON_parse blob = Some v ->
  completion getHistory w = Ok v.
Proof.
  intros Hblob Hempty Hparse. unfold getHistory. run_monad. rewrite Hblob.
  destruct blob as [|c blob]; [congruence|]. simpl. rewrite Hparse. reflexivity.
Qed.

(** What [addToHistory] leaves in storage. *)
Lemma addToHistory_stores (item : HistoryItem.t) (elems : list JSValue)
    (w : World) :
  completion getHistory w = Ok (JArray elems) ->
  completion (addToHistory item) w = Ok tt /\
  localStorage (exec (addToHistory item) w)
  = <[HISTORY_KEY :=
        JSON_stringify
          (JArray (take MAX_HISTORY_ITEMS (HistoryItem.to_value item :: elems)))]>
      (localStorage w).
Proof.
  intros Hget. pose proof (getHistory_storage w) as Hls.
  unfold addToHistory. run_monad.
  destruct (getHistory w) as [w1 r]. cbn [fst snd] in *. subst r.
  unfold saveHistory. run_monad. rewrite Hls.
  destruct (Nat.ltb_spec MAX_HISTORY_ITEMS
              (length (HistoryItem.to_value item :: elems))) as [Hlong|Hshort].
  - split; reflexivity.
  - rewrite take_ge by exact Hshort. split; reflexivity.
Qed.

Lemma length_take_bound {A} (n : nat) (l : list A) : (length (take n l) <= n)%nat.
Proof. rewrite length_take. lia. Qed.

Lemma take_app_take {A} (n : nat) (a b : list A) :
  take n (a ++ take n b) = take n (a ++ b).
Proof.
  rewrite !take_app. f_equal. rewrite take_take. f_equal. lia.
Qed.

Lemma addToHistory_sequence (items h : list HistoryItem.t) (w : World) :
  JSON_reads_back_histories -> JSON_parse [] = None ->
  (length h <= MAX_HISTORY_ITEMS)%nat ->
  completion getHistory w = Ok (JArray (map HistoryItem.to_value h)) ->
  completion (forEach items addToHistory) w = Ok tt /\
  completion getHistory (exec (forEach items addToHistory) w)
  = Ok (JArray (map HistoryItem.to_value
                  (take MAX_HISTORY_ITEMS (rev items ++ h)))).
Proof.
  intros Hback Hempty. revert h w.
  induction items as [|x items IH]; intros h w Hlen Hget.
  - cbn [forEach rev app]. run_monad. split; [reflexivity|].
    rewrite take_ge by exact Hlen. exact Hget.
  - destruct (addToHistory_stores x _ w Hget) as [Hok Hls].
    change (HistoryItem.to_value x :: map HistoryItem.to_value h)
      with (map HistoryItem.to_value (x :: h)) in Hls.
    rewrite firstn_map in Hls.
    assert (Hnext : completion getHistory (exec (addToHistory x) w)
                    = Ok (JArray (map HistoryItem.to_value
                                    (take MAX_HISTORY_ITEMS (x :: h))))).
    { eapply getHistory_parsed; [|exact Hempty|apply Hback].
      rewrite Hls. apply lookup_insert_eq. }
    destruct (IH _ _ (length_take_bound _ _) Hnext) as [Hok' Hget'].
    cbn [forEach]. unfold exec, completion, bind in *.
    destruct (addToHistory x w) as [w1 r1]. cbn [fst snd] in *. subst r1.
    split; [exact Hok'|]. rewrite Hget'. do 3 f_equal.
    cbn [rev]. rewrite <- app_assoc. cbn [app]. apply take_app_take.
Qed.

(** C1: starting from a history that reads as empty, after [addToHistory]
    has been called on each of [items] in turn ([N = length items], [N >= 0])
    the stored history is the last [min N 30] items, newest first: it has
    length [min N 30] and its [i]-th entry is the [i]-th most recent append.
    In particular, once it holds 30 items, one more append stores the new
    item followed by the old history without its last (oldest) entry.
    [JSON.parse] is assumed to read back what [JSON.stringify] wrote and to
    reject the empty text. *)
Theorem history_bounded_newest_first (items : list HistoryItem.t) (w : World) :
  JSON_reads_back_histories -> JSON_parse [] = None ->
  completion getHistory w = Ok (JArray []) ->
  let w' := exec (forEach items addToHistory) w in
  let stored := take MAX_HISTORY_ITEMS (rev items) in
  completion (forEach items addToHistory) w = Ok tt /\
  completion getHistory w' = Ok (JArray (map HistoryItem.to_value stored)) /\
  length stored = Nat.min (length items) 30 /\
  (forall (i : nat) (x : HistoryItem.t),
     stored !! i = Some x -> items !! (length items - S i)%nat = Some x) /\
  (forall x : HistoryItem.t,
     length stored = 30%nat ->
     completion (addToHistory x) w' = Ok tt /\
     completion getHistory (exec (addToHistory x) w')
     = Ok (JArray (map HistoryItem.to_value (x :: removelast stored)))).
Proof.
  intros Hback Hempty Hget w' stored.
  destruct (addToHistory_sequence items [] w Hback Hempty) as [Hok Hstored];
    [simpl; lia | exact Hget |].
  rewrite app_nil_r in Hstored. fold w' stored in Hstored.
  split; [exact Hok|]. split; [exact Hstored|]. split; [|split].
  - unfold stored. rewrite length_take, length_rev. unfold MAX_HISTORY_ITEMS. lia.
  - intros i x Hi. unfold stored in Hi.
    apply lookup_take_Some in Hi as [Hi _].
    rewrite rev_alt in Hi. fold (reverse items) in Hi.
    rewrite reverse_lookup in Hi; [exact Hi|].
    apply lookup_lt_Some in Hi. rewrite length_reverse in Hi. exact Hi.
  - intros x Hfull.
    destruct (addToHistory_stores x _ w' Hstored) as [Hok' Hls].
    split; [exact Hok'|].
    eapply getHistory_parsed; [rewrite Hls; apply lookup_insert_eq|exact Hempty|].
    change (HistoryItem.to_value x :: map HistoryItem.to_value stored)
      with (map HistoryItem.to_value (x :: stored)).
    rewrite firstn_map.
    replace (take MAX_HISTORY_ITEMS (x :: stored)) with (x :: removelast stored).
    + apply Hback.
    + rewrite removelast_firstn_len, Hfull. reflexivity.
Qed.

(** C2: when the text stored under the history key is one [JSON.parse]
    rejects, [getHistory] returns the empty array and completes normally:
    the [SyntaxError] is caught inside it and does not reach the caller.
    The storage is left as it was. *)
Theorem getHistory_corrupt (w : World) (blob : jsstring) :
  localStorage w !! HISTORY_KEY = Some blob ->
  JSON_parse blob = None ->
  completion getHistory w = Ok (JArray []) /\
  localStorage (exec getHistory w) = localStorage w.
Proof.
  intros Hblob Hparse. split; [|apply getHistory_storage].
  unfold getHistory. run_monad. rewrite Hblob.
  destruct (truthy blob); [|reflexivity]. simpl. rewrite Hparse. reflexivity.
Qed.

End HistoryFacts.

Section Frames.
Context {B : Type} (f : World -> B).

Lemma keeps_ret {A} (a : A) : keeps f (ret a).
Proof. intros w. reflexivity. Qed.

Lemma keeps_throw {A} (e : Thrown) : keeps f (@throw A e).
Proof. intros w. reflexivity. Qed.

Lemma keeps_gets {A} (g : World -> A) : keeps f (gets g).
Proof. intros w. reflexivity. Qed.

Lemma keeps_modify (g : World -> World) :
  (forall w, f (g w) = f w) -> keeps f (modify g).
Proof. intros Hg w. apply Hg. Qed.

Lemma keeps_bind {A C} (m : M A) (k : A -> M C) :
  keeps f m -> (forall a, keeps f (k a)) -> keeps f (bind m k).
Proof.
  intros Hm Hk w. specialize (Hm w). unfold exec, bind in *.
  destruct (m w) as [w1 [a|e]]; cbn [fst] in *; [|exact Hm].
  rewrite <- Hm. apply Hk.
Qed.

Lemma keeps_try_catch {A} (body : M A) (handler : Thrown -> M A) :
  keeps f body -> (forall e, keeps f (handler e)) ->
  keeps f (try_catch body handler).
Proof.
  intros Hm Hk w. specialize (Hm w). unfold exec, try_catch in *.
  destruct (body w) as [w1 [a|e]]; cbn [fst] in *; [exact Hm|].
  rewrite <- Hm. apply Hk.
Qed.

Lemma keeps_try_finally {A} (body : M A) (cleanup : M unit) :
  keeps f body -> keeps f cleanup -> keeps f (try_finally body cleanup).
Proof.
  intros Hm Hc w. specialize (Hm w). unfold exec, try_finally in *.
  destruct (body w) as [w1 r]. cbn [fst] in *. specialize (Hc w1).
  unfold exec in Hc. destruct (cleanup w1) as [w2 [u|e]]; cbn [fst] in *; congruence.
Qed.

Lemma keeps_attempt {A} (m : M A) : keeps f m -> keeps f (attempt m).
Proof.
  intros Hm w. specialize (Hm w). unfold exec, attempt in *.
  destruct (m w) as [w1 r]. exact Hm.
Qed.

Lemma keeps_forEach {A} (l : list A) (body : A -> M unit) :
  (forall a, keeps f (body a)) -> keeps f (forEach l body).
Proof.
  intros Hbody. induction l as [|a l IH]; cbn [forEach].
  - apply keeps_ret.
  - apply keeps_bind; [apply Hbody | intros _; exact IH].
Qed.

End Frames.

(** Take a statement apart down to its [modify]s, each of which is then left
    as a goal about the setter it applies. *)
Ltac frame_step :=
  lazymatch goal with
  | |- keeps _ (bind _ _) => apply keeps_bind; [|intros ?]
  | |- keeps _ (ret _) => apply keeps_ret
  | |- keeps _ (throw _) => apply keeps_throw
  | |- keeps _ (gets _) => apply keeps_gets
  | |- keeps _ (try_catch _ _) => apply keeps_try_catch; [|intros ?]
  | |- keeps _ (try_finally _ _) => apply keeps_try_finally
  | |- keeps _ (attempt _) => apply keeps_attempt
  | |- keeps _ (forEach _ _) => apply keeps_forEach; intros ?
  | |- keeps _ (modify _) => apply keeps_modify; intros ?; try reflexivity
  | |- keeps _ (call _) => apply keeps_modify; intros ?; try reflexivity
  | |- keeps _ (match ?x with _ => _ end) => destruct x
  | |- keeps _ (let '(_, _) := ?x in _) => destruct x
  end.

Ltac frame := repeat frame_step.

Lemma sent_prompts_app (cs ds : list Call) :
  sent_prompts (cs ++ ds) = sent_prompts cs ++ sent_prompts ds.
Proof. apply omap_app. Qed.

Lemma selectKey_opened_app (cs ds : list Call) :
  selectKey_opened (cs ++ ds) = (selectKey_opened cs + selectKey_opened ds)%nat.
Proof.
  induction cs as [|[req| |what] cs IH]; simpl; [reflexivity| | |]; rewrite IH; reflexivity.
Qed.

Lemma exec_try_finally {A} (body : M A) (cleanup : M unit) (w : World) :
  exec (try_finally body cleanup) w = exec cleanup (exec body w).
Proof.
  unfold exec, try_finally. destruct (body w) as [w1 r]. cbn [fst].
  destruct (cleanup w1) as [w2 [u|e]]; reflexivity.
Qed.

Ltac quiet_call :=
  cbn [calls set_calls]; rewrite ?sent_prompts_app, ?selectKey_opened_app;
  cbn [sent_prompts omap selectKey_opened]; rewrite ?app_nil_r, ?Nat.add_0_r;
  reflexivity.

Section PageFrames.
Context {host : Platform}.

(** Nothing but [setControlsDisabled] touches the [disabled] flags of the
    six controls. *)
Lemma getHistory_keeps_disabled : keeps disabled getHistory.
Proof. unfold getHistory. frame. Qed.

Lemma addToHistory_keeps_disabled item : keeps disabled (addToHistory item).
Proof.
  unfold addToHistory, saveHistory.
  apply keeps_bind; [apply getHistory_keeps_disabled | intros history]. frame.
Qed.

Lemma renderHistory_keeps_disabled : keeps disabled renderHistory.
Proof.
  unfold renderHistory, renderHistory_item.
  apply keeps_bind; [apply getHistory_keeps_disabled | intros history]. frame.
Qed.

Lemma historyItem_click_keeps_disabled item : keeps disabled (historyItem_click item).
Proof. unfold historyItem_click. frame. Qed.

Lemma clearHistoryButton_click_keeps_disabled c :
  keeps disabled (clearHistoryButton_click c).
Proof.
  unfold clearHistoryButton_click. destruct c; [|apply keeps_ret].
  apply keeps_bind; [frame | intros _; apply renderHistory_keeps_disabled].
Qed.

Lemma openApiKeyDialog_call_keeps_disabled a :
  keeps disabled (openApiKeyDialog_call a).
Proof. unfold openApiKeyDialog_call, showStatusError. frame. Qed.

Lemma generate_catch_report_keeps_disabled e :
  keeps disabled (generate_catch_report e).
Proof. unfold generate_catch_report, showStatusError. frame. Qed.

Lemma getHistory_keeps_requests : keeps requests getHistory.
Proof. unfold getHistory, requests. frame. quiet_call. Qed.

Lemma addToHistory_keeps_requests item : keeps requests (addToHistory item).
Proof.
  unfold addToHistory, saveHistory.
  apply keeps_bind; [apply getHistory_keeps_requests | intros history]. frame.
Qed.

Lemma renderHistory_keeps_requests : keeps requests renderHistory.
Proof.
  unfold renderHistory, renderHistory_item.
  apply keeps_bind; [apply getHistory_keeps_requests | intros history]. frame.
Qed.

Lemma generate_succeeded_keeps_requests fp uuid now :
  keeps requests (generate_succeeded fp uuid now).
Proof.
  unfold generate_succeeded. frame.
  - apply addToHistory_keeps_requests.
  - apply renderHistory_keeps_requests.
Qed.

Lemma generateImage_response_keeps_requests o :
  keeps requests (generateImage_response o).
Proof. unfold generateImage_response. frame. Qed.

Lemma generate_catch_keeps_requests env e : keeps requests (generate_catch env e).
Proof.
  unfold generate_catch, generate_catch_report, openApiKeyDialog,
    openApiKeyDialog_call, showStatusError, resume, requests.
  frame; quiet_call.
Qed.

(** [generate] with a key, up to the first [await]: nothing there throws,
    and the rest of the flow starts from the world the request left. *)
Lemma generate_with_key (env : FlowEnv) (w : World) (apiKey : jsstring) :
  usable_key (API_KEY env) = Some apiKey ->
  let w1 :=
    exec (generateImage_request (finalPrompt w) apiKey (aspectRatio w))
      (exec generate_enter w) in
  generate env w
  = try_finally
      (try_catch
         (generateImage_response (generateImages_settles env) >>
          generate_succeeded (finalPrompt w) (randomUUID env) (Date_now env))
         (generate_catch env))
      (setControlsDisabled false) w1.
Proof.
  intros Hkey w1. unfold generate. rewrite Hkey. reflexivity.
Qed.

End PageFrames.

Section Composition.
Context {host : Platform}.

Lemma generate_requests (env : FlowEnv) (w : World) (apiKey : jsstring) :
  usable_key (API_KEY env) = Some apiKey ->
  requests (exec (generate env) w) = requests w ++ [finalPrompt w].
Proof.
  intros Hkey. unfold exec at 1. rewrite (generate_with_key env w apiKey Hkey).
  match goal with
  | |- requests (fst (try_finally ?body ?cleanup ?w1)) = _ =>
    change (requests (exec (try_finally body cleanup) w1) = requests w ++ [finalPrompt w]);
    transitivity (requests w1)
  end.
  - apply (keeps_try_finally requests); [apply keeps_try_catch|].
    + apply keeps_bind; [apply generateImage_response_keeps_requests|].
      intros _. apply generate_succeeded_keeps_requests.
    + intros e. apply generate_catch_keeps_requests.
    + unfold setControlsDisabled. frame.
  - unfold requests, generateImage_request, generate_enter, setControlsDisabled.
    run_monad. cbn. rewrite sent_prompts_app. reflexivity.
Qed.

(** C3: the prompt [generate] composes is a function of the four values
    [prompt], [cameraView], [qualityPreset] and [negativePrompt] alone: two
    pages that agree on them compose the same string, whatever else differs;
    that string is the prompt of the one request [generate] sends; and for
    "a cat", the default camera view, the [sd] preset and an empty negative
    prompt it is the text given. *)
Theorem finalPrompt_deterministic (env : FlowEnv) (w1 w2 : World)
    (apiKey : jsstring) :
  usable_key (API_KEY env) = Some apiKey ->
  prompt w1 = prompt w2 -> cameraView w1 = cameraView w2 ->
  qualityPreset w1 = qualityPreset w2 -> negativePrompt w1 = negativePrompt w2 ->
  finalPrompt w1 = finalPrompt w2 /\
  sent_prompts (calls (exec (generate env) w1))
  = sent_prompts (calls w1) ++ [finalPrompt w1] /\
  (prompt w1 = lit "a cat" -> cameraView w1 = lit "default" ->
   qualityPreset w1 = lit "sd" -> negativePrompt w1 = [] ->
   finalPrompt w1
   = lit "a cat, 720p resolution, standard quality, sharp focus, basic detail, photorealistic, film still, movie scene, fit prompt, no distortion, no deformations, no text overlays").
Proof.
  intros Hkey Hp Hc Hq Hn. split; [|split].
  - unfold finalPrompt. rewrite Hp, Hc, Hq, Hn. reflexivity.
  - apply (generate_requests env w1 apiKey Hkey).
  - intros Ep Ec Eq En. unfold finalPrompt. rewrite Ep, Ec, Eq, En.
    vm_compute. reflexivity.
Qed.


(** C8: when [negativePrompt] trims to a non-empty [s], the composed prompt
    is the prompt composed so far followed by ". Negative prompt: " and [s],
    and so ends with exactly that; when it trims to the empty string,
    nothing is appended. *)
Theorem negativePrompt_suffix (w : World) :
  let composed :=
    prompt w ++ cameraViewPrompt (cameraView w) ++ lit ", "
    ++ qualityKeywords (qualityPreset w) ++ lit ", " ++ commonKeywords in
  (forall s, trim (negativePrompt w) = s -> s <> [] ->
     finalPrompt w = composed ++ lit ". Negative prompt: " ++ s) /\
  (trim (negativePrompt w) = [] -> finalPrompt w = composed).
Proof.
  intros composed. unfold finalPrompt. fold composed. split.
  - intros s Hs Hne. rewrite Hs. destruct s; [congruence|reflexivity].
  - intros Hs. rewrite Hs. reflexivity.
Qed.

End Composition.

Section Flow.
Context {host : Platform}.

(** C5: a [generate] flow that got past the key check, and so disabled the
    controls, leaves all six of them enabled when it ends, whatever the API
    answered and whatever was thrown on the way: the [finally] block runs on
    every exit.  The same holds with other events of the page in between:
    whenever a resumed flow ends, it has re-enabled the controls. *)
Theorem controls_reenabled (env : FlowEnv) (w : World) (apiKey : jsstring) :
  usable_key (API_KEY env) = Some apiKey ->
  disabled (exec (generate env) w) = all_enabled /\
  (forall (p : Pending) (wk : Wake) (w0 : World),
     p <> AwaitNoKeyDialog -> wakes p wk = true ->
     (forall q, completion (generate_resume p wk) w0 <> Ok (Some q)) ->
     disabled (exec (generate_resume p wk) w0) = all_enabled).
Proof.
  intros Hkey. split.
  - unfold exec at 1. rewrite (generate_with_key env w apiKey Hkey).
    match goal with
    | |- disabled (fst (try_finally ?body ?cleanup ?w1)) = _ =>
      change (disabled (exec (try_finally body cleanup) w1) = all_enabled)
    end.
    rewrite exec_try_finally. reflexivity.
  - intros p wk w0 Hp Hwakes Hends.
    destruct p as [|fp|]; [congruence| |];
      destruct wk as [o uuid now available|s]; try discriminate.
    + unfold generate_resume in *.
      remember (generateImage_response o >> generate_succeeded fp uuid now)
        as body eqn:Hbody. clear Hbody.
      unfold attempt, completion, exec, bind in *.
      destruct (body w0) as [w1 [[]|e]]; [reflexivity|].
      destruct (generate_catch_report e w1) as [w2 [[|]|e2]] eqn:Hreport.
      * destruct (openApiKeyDialog_call available w2) as [w3 [[|]|e3]] eqn:Hcall.
        -- exfalso. apply (Hends AwaitCatchDialog). reflexivity.
        -- reflexivity.
        -- exfalso. unfold openApiKeyDialog_call in Hcall.
           destruct available; discriminate.
      * reflexivity.
      * exfalso. unfold generate_catch_report in Hreport.
        destruct (classify (errorMessage_of e)); discriminate.
    + destruct s; reflexivity.
Qed.

(** C6: a click on the generate button while the prompt trims to the empty
    string only sets the status to the validation message: no call leaves
    the page, the storage and the [disabled] flags are untouched, and no
    flow is left waiting. *)
Theorem blank_prompt_rejected (env : FlowEnv) (w : World) :
  trim (prompt w) = [] ->
  let w' := exec (generateButton_click env) w in
  completion (generateButton_click env) w = Ok tt /\
  w' = set_statusEl
         (ErrorSpan (lit "Please enter a prompt to generate an image.")) w /\
  calls w' = calls w /\ localStorage w' = localStorage w /\
  disabled w' = disabled w /\
  (forall api_key available,
     generateButton_click_start api_key available w = (w', Ok None)).
Proof.
  intros Hblank w'. unfold w', generateButton_click, generateButton_click_start.
  run_monad. rewrite Hblank. repeat split; reflexivity.
Qed.

Lemma classify_invalid_key (m : jsstring) :
  includes m (lit "API_KEY_INVALID") = true ->
  includes m (lit "Requested entity was not found.") = false ->
  classify (MsgString m) = (invalid_key_message, true).
Proof. intros Hinv Hnf. unfold classify. rewrite Hnf, Hinv. reflexivity. Qed.

Lemma classify_unrelated (m : jsstring) :
  includes m (lit "Requested entity was not found.") = false ->
  includes m (lit "API_KEY_INVALID") = false ->
  includes m (lit "API key not valid") = false ->
  includes (toLowerCase m) (lit "permission denied") = false ->
  classify (MsgString m) = (lit "Error: " ++ m, false).
Proof. intros H1 H2 H3 H4. unfold classify. rewrite H1, H2, H3, H4. reflexivity. Qed.

(** Where a flow ends once the API has rejected the request: the status
    shown, and how often the host's key selection was opened. *)
Lemma generate_rejected (env : FlowEnv) (w : World) (apiKey : jsstring)
    (e : Thrown) :
  usable_key (API_KEY env) = Some apiKey ->
  generateImages_settles env = ApiRejects e ->
  let w' := exec (generate env) w in
  let '(userFriendlyMessage, shouldOpenDialog) := classify (errorMessage_of e) in
  statusEl w'
  = ErrorSpan (if shouldOpenDialog && negb (aistudio_openSelectKey env)
               then selectKey_unavailable_message else userFriendlyMessage) /\
  selectKey_opened (calls w')
  = (selectKey_opened (calls w)
     + if shouldOpenDialog && aistudio_openSelectKey env then 1 else 0)%nat.
Proof.
  intros Hkey Hrej w'. unfold w', exec.
  rewrite (generate_with_key env w apiKey Hkey), Hrej.
  cbv beta iota delta [try_finally try_catch bind generateImage_response throw].
  unfold generate_catch, generate_catch_report.
  destruct (classify (errorMessage_of e)) as [msg should].
  unfold openApiKeyDialog, openApiKeyDialog_call, generateImage_request,
    generate_enter, setControlsDisabled, showStatusError, resume.
  run_monad.
  destruct should, (aistudio_openSelectKey env); cbn;
    try destruct (selectKey_settles env); cbn;
    rewrite ?selectKey_opened_app; cbn; (split; [reflexivity|lia]).
Qed.

(** C4, amended: let the API reject the request with an [Error] whose
    message is [m].  If [m] contains "API_KEY_INVALID" and not "Requested
    entity was not found.", then on a host with key selection the status
    ends as the invalid-key message and the selection is opened exactly
    once, and on a host without it the status ends as the not-available
    message and nothing is opened.  If [m] matches none of the four
    signatures, the status ends as "Error: " followed by [m] and the key
    selection is not opened. *)
Theorem error_classification (env : FlowEnv) (w : World) (apiKey m : jsstring) :
  usable_key (API_KEY env) = Some apiKey ->
  generateImages_settles env = ApiRejects (JSError (MsgString m)) ->
  let w' := exec (generate env) w in
  (includes m (lit "API_KEY_INVALID") = true ->
   includes m (lit "Requested entity was not found.") = false ->
   (aistudio_openSelectKey env = true ->
    statusEl w' = ErrorSpan invalid_key_message /\
    selectKey_opened (calls w') = S (selectKey_opened (calls w))) /\
   (aistudio_openSelectKey env = false ->
    statusEl w' = ErrorSpan selectKey_unavailable_message /\
    selectKey_opened (calls w') = selectKey_opened (calls w))) /\
  (includes m (lit "Requested entity was not found.") = false ->
   includes m (lit "API_KEY_INVALID") = false ->
   includes m (lit "API key not valid") = false ->
   includes (toLowerCase m) (lit "permission denied") = false ->
   statusEl w' = ErrorSpan (lit "Error: " ++ m) /\
   selectKey_opened (calls w') = selectKey_opened (calls w)).
Proof.
  intros Hkey Hrej w'.
  pose proof (generate_rejected env w apiKey _ Hkey Hrej) as Hend.
  cbn [errorMessage_of] in Hend. fold w' in Hend. split.
  - intros Hinv Hnf. rewrite (classify_invalid_key m Hinv Hnf) in Hend.
    destruct Hend as [Hstatus Hopened].
    split; intros Havail; rewrite Havail in *; cbn in *;
      (split; [exact Hstatus | lia]).
  - intros H1 H2 H3 H4. rewrite (classify_unrelated m H1 H2 H3 H4) in Hend.
    destruct Hend as [Hstatus Hopened]. cbn in *. split; [exact Hstatus | lia].
Qed.

End Flow.

Lemma keyed_flows_app (l k : list Pending) :
  keyed_flows (l ++ k) = (keyed_flows l + keyed_flows k)%nat.
Proof. induction l as [|p l IH]; simpl; [reflexivity|]. rewrite IH. lia. Qed.

Lemma keyed_flows_lookup (l : list Pending) (i : nat) (p : Pending) :
  l !! i = Some p ->
  keyed_flows l
  = (keyed_flows (take i l) + (if keyed p then 1 else 0)
     + keyed_flows (drop (S i) l))%nat.
Proof.
  intros Hp. rewrite <- (take_drop_middle l i p Hp) at 1.
  rewrite keyed_flows_app. simpl. lia.
Qed.

Lemma keyed_flows_delete (l : list Pending) (i : nat) (p : Pending) :
  l !! i = Some p ->
  keyed_flows l = ((if keyed p then 1 else 0) + keyed_flows (delete i l))%nat.
Proof.
  intros Hp. rewrite (keyed_flows_lookup l i p Hp).
  rewrite delete_take_drop, keyed_flows_app. lia.
Qed.

Lemma keyed_flows_insert (l : list Pending) (i : nat) (p q : Pending) :
  l !! i = Some p ->
  (keyed_flows (<[i := q]> l) + (if keyed p then 1 else 0)
   = keyed_flows l + (if keyed q then 1 else 0))%nat.
Proof.
  intros Hp. rewrite (keyed_flows_lookup l i p Hp).
  rewrite insert_take_drop by (apply lookup_lt_Some in Hp; exact Hp).
  rewrite keyed_flows_app. simpl. lia.
Qed.

Lemma keyed_flows_elem (l : list Pending) (p : Pending) :
  p ∈ l -> keyed p = true -> (1 <= keyed_flows l)%nat.
Proof.
  intros Hin Hk. apply list_elem_of_lookup in Hin as [i Hi].
  rewrite (keyed_flows_lookup l i p Hi), Hk. lia.
Qed.

Section SingleFlight.
Context {host : Platform}.

Lemma generate_succeeded_keeps_disabled fp uuid now :
  keeps disabled (generate_succeeded fp uuid now).
Proof.
  unfold generate_succeeded. frame.
  - apply addToHistory_keeps_disabled.
  - apply renderHistory_keeps_disabled.
Qed.

Lemma generateImage_response_keeps_disabled o :
  keeps disabled (generateImage_response o).
Proof. unfold generateImage_response. frame. Qed.

(** How a click on the enabled generate button leaves the page. *)
Lemma click_start_cases (api_key : option jsstring) (available : bool)
    (w : World) :
  let '(w', r) := generateButton_click_start api_key available w in
  (r = Ok None /\ disabled w' = disabled w) \/
  (r = Ok (Some AwaitNoKeyDialog) /\ disabled w' = disabled w) \/
  (exists fp, r = Ok (Some (AwaitGenerateImages fp)) /\
              generateButton (disabled w') = true).
Proof.
  unfold generateButton_click_start, generate_start, openApiKeyDialog_call,
    generateImage_request, generate_enter, setControlsDisabled, showStatusError.
  run_monad.
  destruct (truthy (trim (prompt w))); cbn; [|left; split; reflexivity].
  destruct (usable_key api_key) as [apiKey|]; cbn.
  - right. right. eexists. split; reflexivity.
  - destruct available; cbn; [right|]; left; split; reflexivity.
Qed.

(** How the flow awaiting the API goes on when the API settles. *)
Lemma resume_api_cases (fp : jsstring) (o : ApiOutcome) (uuid : jsstring)
    (now : Z) (available : bool) (w : World) :
  let '(w', r) :=
    generate_resume (AwaitGenerateImages fp)
      (GenerateImagesSettled o uuid now available) w in
  (r = Ok (Some AwaitCatchDialog) /\ disabled w' = disabled w) \/ r = Ok None.
Proof.
  unfold generate_resume.
  assert (Hbody : keeps disabled
            (generateImage_response o >> generate_succeeded fp uuid now)).
  { apply keeps_bind; [apply generateImage_response_keeps_disabled|].
    intros _. apply generate_succeeded_keeps_disabled. }
  remember (generateImage_response o >> generate_succeeded fp uuid now)
    as body eqn:Ebody. clear Ebody.
  specialize (Hbody w). unfold attempt, bind, exec in *.
  destruct (body w) as [w1 [[]|e]]; cbn [fst] in Hbody; [right; reflexivity|].
  pose proof (generate_catch_report_keeps_disabled e w1) as Hreport.
  unfold exec in Hreport.
  destruct (generate_catch_report e w1) as [w2 [[|]|e2]] eqn:Ereport;
    cbn [fst] in Hreport.
  - pose proof (openApiKeyDialog_call_keeps_disabled available w2) as Hcall.
    unfold exec in Hcall.
    destruct (openApiKeyDialog_call available w2) as [w3 [[|]|e3]] eqn:Ecall;
      cbn [fst] in Hcall.
    + left. split; [reflexivity|congruence].
    + right. reflexivity.
    + unfold openApiKeyDialog_call in Ecall. destruct available; discriminate.
  - right. reflexivity.
  - unfold generate_catch_report in Ereport.
    destruct (classify (errorMessage_of e)); discriminate.
Qed.

Lemma step_single_flight (m : Machine) (ev : Event) :
  single_flight m -> single_flight (step m ev).
Proof.
  intros Inv. destruct m as [w l]. unfold single_flight in *. cbn [world awaiting] in *.
  destruct ev as [v|v|v|v|v|k a|c|i|i wk]; unfold step; cbn [world awaiting].
  - destruct (promptEl (disabled w)); exact Inv.
  - destruct (negativePromptEl (disabled w)); exact Inv.
  - destruct (aspectRatioSelect (disabled w)); exact Inv.
  - destruct (qualityPresetSelect (disabled w)); exact Inv.
  - destruct (cameraViewSelect (disabled w)); exact Inv.
  - destruct (generateButton (disabled w)) eqn:Hbutton.
    { cbn [world awaiting]. rewrite Hbutton. exact Inv. }
    assert (Hnone : keyed_flows l = O) by (destruct Inv as [?|[_ ?]]; congruence).
    pose proof (click_start_cases k a w) as Hcases.
    destruct (generateButton_click_start k a w) as [w' r].
    destruct Hcases as [[-> Hd]|[[-> Hd]|(fp & -> & Hd)]]; cbn [world awaiting].
    + left. exact Hnone.
    + left. rewrite keyed_flows_app, Hnone. reflexivity.
    + right. rewrite keyed_flows_app, Hnone. split; [reflexivity|exact Hd].
  - pose proof (clearHistoryButton_click_keeps_disabled c w) as Hd.
    rewrite Hd. exact Inv.
  - destruct (historyGrid w !! i) as [item|]; [|exact Inv]. cbn [world awaiting].
    rewrite (historyItem_click_keeps_disabled item w). exact Inv.
  - destruct (l !! i) as [p|] eqn:Hp; [|exact Inv].
    destruct (wakes p wk) eqn:Hwakes; [|exact Inv].
    pose proof (keyed_flows_delete l i p Hp) as Hdel.
    destruct p as [|fp|]; destruct wk as [o uuid now available|s];
      try discriminate; cbn [keyed Nat.add] in Hdel.
    + unfold generate_resume, resume. run_monad.
      destruct s; cbn [world awaiting]; rewrite <- Hdel; exact Inv.
    + pose proof (resume_api_cases fp o uuid now available w) as Hcases.
      destruct (generate_resume (AwaitGenerateImages fp)
                  (GenerateImagesSettled o uuid now available) w) as [w' r].
      destruct Hcases as [[-> Hd]| ->]; cbn [world awaiting].
      * pose proof (keyed_flows_insert l i _ AwaitCatchDialog Hp) as Hins.
        cbn [keyed] in Hins. rewrite Hd.
        destruct Inv as [Hzero|[Hone Hbutton]]; [lia|].
        right. split; [lia|exact Hbutton].
      * left. destruct Inv as [Hzero|[Hone _]]; lia.
    + left. destruct Inv as [Hzero|[Hone _]]; [lia|].
      destruct (generate_resume AwaitCatchDialog (SelectKeySettled s) w)
        as [w' [[q|]|e]] eqn:Hres; cbn [world awaiting]; try lia.
      unfold generate_resume, resume in Hres. run_monad.
      destruct s; discriminate.
Qed.

Lemma run_single_flight (m : Machine) (evs : list Event) :
  single_flight m -> single_flight (run m evs).
Proof.
  revert m. induction evs as [|ev evs IH]; intros m Inv; [exact Inv|].
  apply IH, step_single_flight, Inv.
Qed.

(** C9: in every state the page can reach, while a request to the image
    API is outstanding a click on the generate button changes nothing: the
    button is disabled, so the browser does not run its listener; no second
    request is sent and the stored history stays as it is. *)
Theorem second_submit_ignored (w : World) (evs : list Event)
    (api_key : option jsstring) (available : bool) :
  let m := run (loaded w) evs in
  in_flight m ->
  step m (GenerateClick api_key available) = m /\
  sent_prompts (calls (world (step m (GenerateClick api_key available))))
  = sent_prompts (calls (world m)) /\
  localStorage (world (step m (GenerateClick api_key available)))
  = localStorage (world m).
Proof.
  intros m [fp Hfp].
  assert (Hstep : step m (GenerateClick api_key available) = m).
  { assert (Inv : single_flight m).
    { apply run_single_flight. left. reflexivity. }
    pose proof (keyed_flows_elem _ _ Hfp eq_refl) as Hone.
    destruct Inv as [Hzero|[_ Hbutton]]; [lia|].
    unfold step. rewrite Hbutton. reflexivity. }
  rewrite Hstep. repeat split; reflexivity.
Qed.

(** The listener itself does not look at what is outstanding: run on a page
    with a key and a prompt, it sends a request whatever the state of the
    controls.  What [second_submit_ignored] rests on is the disabled
    button. *)
Lemma generateButton_click_unguarded (api_key : option jsstring)
    (apiKey : jsstring) (available : bool) (w : World) :
  usable_key api_key = Some apiKey ->
  truthy (trim (prompt w)) = true ->
  completion (generateButton_click_start api_key available) w
  = Ok (Some (AwaitGenerateImages (finalPrompt w))) /\
  requests (exec (generateButton_click_start api_key available) w)
  = requests w ++ [finalPrompt w].
Proof.
  intros Hkey Hprompt.
  unfold generateButton_click_start, generate_start, generateImage_request,
    generate_enter, setControlsDisabled, requests.
  run_monad. rewrite Hprompt, Hkey. cbn.
  rewrite sent_prompts_app. split; reflexivity.
Qed.

End SingleFlight.

Lemma split_go_head (sep s acc : jsstring) :
  hd [] (split_go sep s acc 0) = rev acc ++ before sep s.
Proof.
  revert acc. induction s as [|c s IH]; intros acc.
  - simpl. rewrite app_nil_r. reflexivity.
  - cbn [split_go before]. destruct (startsWith (c :: s) sep).
    + simpl. rewrite app_nil_r. reflexivity.
    + rewrite IH. simpl. rewrite <- app_assoc. reflexivity.
Qed.

(** [s.split(sep)[0]] is what comes before the first [sep]. *)
Lemma split_head (s sep : jsstring) :
  sep <> [] -> hd [] (split s sep) = before sep s.
Proof.
  intros Hsep. destruct sep as [|c0 sep]; [congruence|].
  unfold split. apply split_go_head.
Qed.

Lemma before_absent (sep s : jsstring) :
  includes s sep = false -> before sep s = s.
Proof.
  induction s as [|c s IH]; intros Hinc; [reflexivity|].
  cbn [includes] in Hinc. apply orb_false_iff in Hinc as [Hhere Hlater].
  cbn [before]. rewrite Hhere, IH by exact Hlater. reflexivity.
Qed.

Lemma before_first (sep a b : jsstring) :
  (forall a' b', a ++ sep ++ b = a' ++ sep ++ b' -> (length a <= length a')%nat) ->
  before sep (a ++ sep ++ b) = a.
Proof.
  induction a as [|c a IH]; intros Hfirst.
  - cbn [app]. destruct (sep ++ b) as [|d r] eqn:Hs; [reflexivity|].
    cbn [before]. rewrite <- Hs, startsWith_app. reflexivity.
  - cbn [app before].
    destruct (startsWith (c :: a ++ sep ++ b) sep) eqn:Hhere.
    + apply startsWith_true in Hhere.
      specialize (Hfirst [] _ Hhere). simpl in Hfirst. lia.
    + f_equal. apply IH. intros a' b' Heq.
      specialize (Hfirst (c :: a') b'). cbn [app length] in Hfirst.
      rewrite Heq in Hfirst. specialize (Hfirst eq_refl). lia.
Qed.

Lemma startsWith_before_unit (pat h t : jsstring) (c0 : N) :
  Forall (fun x => x <> c0) pat ->
  startsWith (h ++ c0 :: t) pat = true -> startsWith h pat = true.
Proof.
  intros Hpat. revert h. induction Hpat as [|x pat Hx Hpat IH]; intros h Hs.
  - reflexivity.
  - destruct h as [|d h]; cbn [app startsWith] in *.
    + apply andb_true_iff in Hs as [Hc _]. apply N.eqb_eq in Hc. congruence.
    + apply andb_true_iff in Hs as [Hd Hs]. rewrite Hd. apply IH, Hs.
Qed.

(** A separator whose first code unit occurs nowhere else in it cannot
    straddle the place where a text that starts with it begins. *)
Lemma before_head (c0 : N) (sep' h t : jsstring) :
  Forall (fun x => x <> c0) sep' ->
  includes h (c0 :: sep') = false ->
  before (c0 :: sep') (h ++ c0 :: sep' ++ t) = h.
Proof.
  intros Hsep. induction h as [|c h IH]; intros Hinc.
  - cbn [app before startsWith]. rewrite N.eqb_refl, startsWith_app. reflexivity.
  - cbn [includes] in Hinc. apply orb_false_iff in Hinc as [Hhere Hlater].
    cbn [app before].
    destruct (startsWith (c :: h ++ c0 :: sep' ++ t) (c0 :: sep')) eqn:Hs.
    + cbn [startsWith] in Hs, Hhere. apply andb_true_iff in Hs as [Hc Hs].
      apply (startsWith_before_unit _ _ _ _ Hsep) in Hs.
      rewrite Hc, Hs in Hhere. discriminate.
    + f_equal. apply IH, Hlater.
Qed.

Section Restore.
Context {host : Platform}.

(** C10, amended: clicking a history element whose item has the string [p]
    as its prompt sets the prompt variable and the prompt field to the part
    of [p] before the first ", photorealistic", or to [p] if there is none.
    When [p] was composed by [generate] and ", photorealistic" does not
    occur in the user's prompt followed by the camera clause, ", " and the
    quality keywords, the restored text is exactly that, which is longer
    than the user's prompt. *)
Theorem restore_main_prompt (item : JSValue) (p : jsstring) (w : World) :
  get_prop item (lit "prompt") = Some (JString p) ->
  let w' := exec (historyItem_click item) w in
  let sep := lit ", photorealistic" in
  completion (historyItem_click item) w = Ok tt /\
  promptEl_value w' = prompt w' /\
  (includes p sep = false -> prompt w' = p) /\
  (forall a b,
     p = a ++ sep ++ b ->
     (forall a' b', p = a' ++ sep ++ b' -> (length a <= length a')%nat) ->
     prompt w' = a) /\
  (forall w0 : World,
     p = finalPrompt w0 ->
     let kept :=
       prompt w0 ++ cameraViewPrompt (cameraView w0) ++ lit ", "
       ++ qualityKeywords (qualityPreset w0) in
     includes kept sep = false ->
     prompt w' = kept /\ prompt w' <> prompt w0).
Proof.
  intros Hprop w' sep.
  assert (Hclick : historyItem_click item w
                   = (set_prompt (before sep p) (set_promptEl_value (before sep p)
                        (set_downloadButton_disabled false
                           (set_outputImage_display (lit "block")
                              (set_outputImage_src
                                 match get_prop item (lit "imageUrl") with
                                 | Some (JString u) => u
                                 | other => ToString other
                                 end w)))), Ok tt)).
  { unfold historyItem_click. rewrite Hprop. run_monad.
    rewrite split_head by discriminate. reflexivity. }
  assert (Hrestored : prompt w' = before sep p).
  { unfold w', exec. rewrite Hclick. reflexivity. }
  split; [unfold completion; rewrite Hclick; reflexivity|].
  split; [unfold w', exec; rewrite Hclick; reflexivity|].
  rewrite Hrestored. split; [apply before_absent|]. split.
  - intros a b -> Hfirst. apply before_first. exact Hfirst.
  - intros w0 -> kept Hkept.
    assert (Hshape : exists rest, finalPrompt w0 = kept ++ sep ++ rest).
    { unfold finalPrompt. fold kept.
      destruct (truthy (trim (negativePrompt w0))); eexists;
        unfold kept; rewrite <- ?app_assoc; repeat f_equal;
        (change commonKeywords with (lit "photorealistic" ++ lit ", film still, movie scene, fit prompt, no distortion, no deformations, no text overlays"));
        change (lit ", " ++ lit "photorealistic" ++ ?x) with (sep ++ x);
        unfold sep; rewrite <- ?app_assoc; reflexivity. }
    destruct Hshape as [rest ->].
    assert (Hbefore : before sep (kept ++ sep ++ rest) = kept).
    { apply (before_head 44 (lit " photorealistic") kept rest); [|exact Hkept].
      vm_compute. repeat constructor; discriminate. }
    rewrite Hbefore. split; [reflexivity|].
    intros Heq. apply (f_equal (@length N)) in Heq.
    unfold kept in Heq. rewrite !length_app in Heq.
    change (length (lit ", ")) with 2%nat in Heq. lia.
Qed.

End Restore.

Section Refinement.
Context {host : Platform}.

(** Cutting [generate] at its [await]s changes nothing: resumed at once with
    the values its promises settle with, the pieces do what the whole does. *)
Theorem run_flow_generate (env : FlowEnv) (w : World) :
  run_flow env w = generate env w.
Proof.
  destruct (usable_key (API_KEY env)) as [apiKey|] eqn:Hkey.
  - pose proof (generate_with_key env w apiKey Hkey) as Hwhole.
    cbv zeta in Hwhole. rewrite Hwhole. clear Hwhole.
    set (w1 := exec (generateImage_request (finalPrompt w) apiKey (aspectRatio w))
                 (exec generate_enter w)).
    assert (Hstart : generate_start (API_KEY env) (aistudio_openSelectKey env) w
                     = (w1, Ok (Some (AwaitGenerateImages (finalPrompt w))))).
    { unfold generate_start. rewrite Hkey. reflexivity. }
    clearbody w1. unfold run_flow. unfold bind at 1. rewrite Hstart.
    unfold generate_resume at 1.
    remember (generateImage_response (generateImages_settles env) >>
              generate_succeeded (finalPrompt w) (randomUUID env) (Date_now env))
      as body eqn:Ebody. clear Ebody.
    unfold generate_catch, openApiKeyDialog.
    cbv beta iota delta [bind try_finally try_catch attempt ret
                           setControlsDisabled modify].
    destruct (body w1) as [w2 [[]|e]]; [reflexivity|].
    destruct (generate_catch_report e w2) as [w3 [[|]|e3]] eqn:Hreport;
      [|reflexivity|].
    2: { unfold generate_catch_report in Hreport.
         destruct (classify (errorMessage_of e)); discriminate. }
    unfold openApiKeyDialog_call, showStatusError.
    destruct (aistudio_openSelectKey env);
      cbv beta iota delta [bind ret call modify]; [|reflexivity].
    unfold generate_resume, resume.
    destruct (selectKey_settles env); reflexivity.
  - unfold run_flow, generate, generate_start, openApiKeyDialog,
      openApiKeyDialog_call, showStatusError, generate_resume, resume.
    rewrite Hkey.
    destruct (aistudio_openSelectKey env), (selectKey_settles env); reflexivity.
Qed.

End Refinement.

(** * Further properties of the page *)

(** ** More on the history store *)

Lemma run_pair {A} (m : M A) (w : World) : m w = (exec m w, completion m w).
Proof. unfold exec, completion. destruct (m w); reflexivity. Qed.

Lemma bind_ok {A B} (m : M A) (k : A -> M B) (w w' : World) (a : A) :
  m w = (w', Ok a) -> bind m k w = k a w'.
Proof. intros Hm. unfold bind. rewrite Hm. reflexivity. Qed.

Lemma bind_threw {A B} (m : M A) (k : A -> M B) (w w' : World) (e : Thrown) :
  m w = (w', Threw e) -> bind m k w = (w', Threw e).
Proof. intros Hm. unfold bind. rewrite Hm. reflexivity. Qed.

Section HistoryStore.
Context {host : Platform}.

(** What [getHistory] does, case by case. *)
Lemma getHistory_cases (w : World) :
  (getHistory w = (w, Ok (JArray [])) /\
   (localStorage w !! HISTORY_KEY = None \/
    localStorage w !! HISTORY_KEY = Some [])) \/
  (exists blob v, localStorage w !! HISTORY_KEY = Some blob /\
                  JSON_parse blob = Some v /\ getHistory w = (w, Ok v)) \/
  (exists blob, localStorage w !! HISTORY_KEY = Some blob /\ blob <> [] /\
                JSON_parse blob = None /\
                getHistory w
                = (set_calls (calls w ++
                     [ConsoleError (lit "Failed to parse history from localStorage")]) w,
                   Ok (JArray []))).
Proof.
  unfold getHistory. run_monad.
  destruct (localStorage w !! HISTORY_KEY) as [[|c blob]|] eqn:Hblob.
  - left. split; [reflexivity | right; reflexivity].
  - cbn. destruct (JSON_parse (c :: blob)) as [v|] eqn:Hparse.
    + right. left. exists (c :: blob), v. repeat split; assumption.
    + right. right. exists (c :: blob). repeat split; try assumption.
      discriminate.
  - left. split; [reflexivity | left; reflexivity].
Qed.

(** X1: reading the history never throws and never writes. *)
Theorem getHistory_never_throws (w : World) :
  (exists v, completion getHistory w = Ok v) /\
  localStorage (exec getHistory w) = localStorage w /\
  sent_prompts (calls (exec getHistory w)) = sent_prompts (calls w).
Proof.
  split; [|split].
  - destruct (getHistory_cases w) as [[Hget _]|[(blob & v & _ & _ & Hget)|(blob & _ & _ & _ & Hget)]];
      unfold completion; rewrite Hget; eauto.
  - apply getHistory_storage.
  - apply (getHistory_keeps_requests w).
Qed.

(** X2: an append on top of an array, however long, stores the new item
    first and at most 30 entries. *)
Theorem addToHistory_truncates (item : HistoryItem.t) (elems : list JSValue)
    (w : World) :
  completion getHistory w = Ok (JArray elems) ->
  exists kept,
    completion (addToHistory item) w = Ok tt /\
    localStorage (exec (addToHistory item) w) !! HISTORY_KEY
    = Some (JSON_stringify (JArray (HistoryItem.to_value item :: kept))) /\
    kept = take 29 elems /\
    (length (HistoryItem.to_value item :: kept) <= 30)%nat /\
    (forall key, key <> HISTORY_KEY ->
       localStorage (exec (addToHistory item) w) !! key = localStorage w !! key).
Proof.
  intros Hget. destruct (addToHistory_stores item elems w Hget) as [Hok Hls].
  exists (take 29 elems). split; [exact Hok|]. split; [|split; [reflexivity|split]].
  - rewrite Hls, lookup_insert_eq. reflexivity.
  - cbn [length]. rewrite length_take. lia.
  - intros key Hkey. rewrite Hls. apply lookup_insert_ne. congruence.
Qed.

Lemma addToHistory_throws (item : HistoryItem.t) (v : JSValue) (w : World) :
  completion getHistory w = Ok v ->
  (forall elems, v <> JArray elems) ->
  addToHistory item w = (exec getHistory w, Threw (TypeError "history.unshift")).
Proof.
  intros Hget Hshape. unfold addToHistory.
  rewrite (bind_ok _ _ w (exec getHistory w) v)
    by (rewrite (run_pair getHistory w), Hget; reflexivity).
  destruct v as [ |b|n|s|elems|fs]; try reflexivity.
  exfalso. apply (Hshape elems). reflexivity.
Qed.

(** X3: when what is stored is JSON of another shape than an array, an
    append throws at [history.unshift] and the storage stays as it is. *)
Theorem addToHistory_not_an_array (item : HistoryItem.t) (v : JSValue)
    (w : World) :
  completion getHistory w = Ok v ->
  (forall elems, v <> JArray elems) ->
  completion (addToHistory item) w = Threw (TypeError "history.unshift") /\
  localStorage (exec (addToHistory item) w) = localStorage w.
Proof.
  intros Hget Hshape. unfold completion, exec.
  rewrite (addToHistory_throws item v w Hget Hshape). cbn [fst snd].
  split; [reflexivity | apply getHistory_storage].
Qed.

(** X4: a stored text that [JSON.parse] rejects does not stand in the way:
    the next append replaces it by a history of the new item alone. *)
Theorem addToHistory_replaces_corrupt (item : HistoryItem.t) (blob : jsstring)
    (w : World) :
  JSON_reads_back_histories -> JSON_parse [] = None ->
  localStorage w !! HISTORY_KEY = Some blob ->
  JSON_parse blob = None ->
  completion (addToHistory item) w = Ok tt /\
  completion getHistory (exec (addToHistory item) w)
  = Ok (JArray [HistoryItem.to_value item]).
Proof.
  intros Hback Hempty Hblob Hparse.
  assert (Hget : completion getHistory w = Ok (JArray [])).
  { destruct (getHistory_cases w)
      as [[Hget _]|[(b & v & Hb & Hv & _)|(b & _ & _ & _ & Hget)]];
      [| congruence |]; unfold completion; rewrite Hget; reflexivity. }
  destruct (addToHistory_stores item [] w Hget) as [Hok Hls].
  split; [exact Hok|].
  eapply getHistory_parsed; [rewrite Hls; apply lookup_insert_eq|exact Hempty|].
  apply (Hback [item]).
Qed.

Lemma forEach_renderHistory_item (items : list JSValue) (w : World) :
  Forall (fun x => x <> JNull) items ->
  forEach items renderHistory_item w
  = (set_historyGrid (historyGrid w ++ items) w, Ok tt).
Proof.
  intros Hitems. revert w. induction Hitems as [|x items Hx Hitems IH]; intros w.
  - cbn [forEach]. unfold ret. rewrite app_nil_r. destruct w; reflexivity.
  - cbn [forEach].
    rewrite (bind_ok _ _ w (set_historyGrid (historyGrid w ++ [x]) w) tt).
    + rewrite IH. cbn. rewrite <- app_assoc. reflexivity.
    + destruct x; try reflexivity. congruence.
Qed.

(** What [renderHistory] does with an array that holds no [null]. *)
Lemma renderHistory_array (items : list JSValue) (w : World) :
  completion getHistory w = Ok (JArray items) ->
  Forall (fun x => x <> JNull) items ->
  renderHistory w
  = (match items with
     | [] => set_historyContainer_hidden true (exec getHistory w)
     | _ :: _ =>
       set_historyGrid items
         (set_historyContainer_hidden false (exec getHistory w))
     end, Ok tt).
Proof.
  intros Hget Hitems. unfold renderHistory.
  rewrite (bind_ok _ _ w (exec getHistory w) (JArray items))
    by (rewrite (run_pair getHistory w), Hget; reflexivity).
  destruct items as [|x items]; [reflexivity|].
  cbn [length_is_zero]. run_monad.
  rewrite (forEach_renderHistory_item (x :: items)) by exact Hitems.
  reflexivity.
Qed.

Lemma to_value_not_null (h : list HistoryItem.t) :
  Forall (fun x => x <> JNull) (map HistoryItem.to_value h).
Proof. induction h; constructor; [discriminate | assumption]. Qed.

Lemma getHistory_keeps_historyGrid : keeps historyGrid getHistory.
Proof. unfold getHistory. frame. Qed.

Lemma getHistory_keeps_hidden : keeps historyContainer_hidden getHistory.
Proof. unfold getHistory. frame. Qed.

Lemma getHistory_keeps_statusEl : keeps statusEl getHistory.
Proof. unfold getHistory. frame. Qed.

(** The page [renderHistory] leaves for a well-formed stored history. *)
Lemma renderHistory_history (h : list HistoryItem.t) (w : World) :
  completion getHistory w = Ok (JArray (map HistoryItem.to_value h)) ->
  renderHistory w
  = (match h with
     | [] => set_historyContainer_hidden true (exec getHistory w)
     | _ :: _ =>
       set_historyGrid (map HistoryItem.to_value h)
         (set_historyContainer_hidden false (exec getHistory w))
     end, Ok tt).
Proof.
  intros Hget.
  rewrite (renderHistory_array _ w Hget (to_value_not_null h)).
  destruct h; reflexivity.
Qed.

(** X5: [renderHistory] shows the stored items in their stored order: the
    grid is emptied first, so rendering again does not show them twice; an
    empty history hides the container and leaves the grid alone.  Nothing is
    sent, stored or disabled on the way. *)
Theorem renderHistory_shows_history (h : list HistoryItem.t) (w : World) :
  completion getHistory w = Ok (JArray (map HistoryItem.to_value h)) ->
  let w' := exec renderHistory w in
  completion renderHistory w = Ok tt /\
  historyContainer_hidden w' = match h with [] => true | _ :: _ => false end /\
  historyGrid w'
  = match h with [] => historyGrid w | _ :: _ => map HistoryItem.to_value h end /\
  historyGrid (exec renderHistory w') = historyGrid w' /\
  localStorage w' = localStorage w /\ disabled w' = disabled w /\
  statusEl w' = statusEl w /\
  sent_prompts (calls w') = sent_prompts (calls w).
Proof.
  intros Hget w'.
  assert (Hshape : forall w0,
            completion getHistory w0 = Ok (JArray (map HistoryItem.to_value h)) ->
            exec renderHistory w0
            = match h with
              | [] => set_historyContainer_hidden true (exec getHistory w0)
              | _ :: _ =>
                set_historyGrid (map HistoryItem.to_value h)
                  (set_historyContainer_hidden false (exec getHistory w0))
              end /\ completion renderHistory w0 = Ok tt).
  { intros w0 Hget0. unfold exec at 1, completion.
    rewrite (renderHistory_history h w0 Hget0). split; reflexivity. }
  destruct (Hshape w Hget) as [Hw' Hok]. fold w' in Hw'.
  assert (Hls : localStorage w' = localStorage w).
  { rewrite Hw'. destruct h; cbn; apply getHistory_storage. }
  split; [exact Hok|].
  split; [rewrite Hw'; destruct h; reflexivity|].
  split; [rewrite Hw'; destruct h; [apply getHistory_keeps_historyGrid | reflexivity]|].
  split.
  - assert (Hget' : completion getHistory w'
                    = Ok (JArray (map HistoryItem.to_value h))).
    { rewrite (getHistory_reads_storage w' w Hls). exact Hget. }
    destruct (Hshape w' Hget') as [Hagain _]. rewrite Hagain.
    destruct h; cbn; [apply getHistory_keeps_historyGrid|].
    rewrite Hw'. reflexivity.
  - split; [exact Hls|]. repeat split.
    + rewrite Hw'. destruct h; cbn; apply getHistory_keeps_disabled.
    + rewrite Hw'. destruct h; cbn; apply getHistory_keeps_statusEl.
    + rewrite Hw'. destruct h; cbn; apply (getHistory_keeps_requests w).
Qed.

(** X6: once the user has confirmed, clearing empties the history whatever
    was stored, well formed or not: the key is gone, [getHistory] reads the
    empty array and the container is hidden.  Without the confirmation
    nothing happens. *)
Theorem clearHistory_empties (w : World) :
  let w' := exec (clearHistoryButton_click true) w in
  completion (clearHistoryButton_click true) w = Ok tt /\
  localStorage w' !! HISTORY_KEY = None /\
  completion getHistory w' = Ok (JArray []) /\
  historyContainer_hidden w' = true /\
  (forall key, key <> HISTORY_KEY ->
     localStorage w' !! key = localStorage w !! key) /\
  clearHistoryButton_click false w = (w, Ok tt).
Proof.
  intros w'.
  set (w0 := set_localStorage (delete HISTORY_KEY (localStorage w)) w).
  assert (Hgone : localStorage w0 !! HISTORY_KEY = None) by apply lookup_delete_eq.
  assert (Hget : getHistory w0 = (w0, Ok (JArray []))).
  { unfold getHistory. run_monad. rewrite Hgone. reflexivity. }
  assert (Hrender : renderHistory w0
                    = (set_historyContainer_hidden true w0, Ok tt)).
  { unfold renderHistory. rewrite (bind_ok _ _ _ _ _ Hget). reflexivity. }
  assert (Hclick : clearHistoryButton_click true w
                   = (set_historyContainer_hidden true w0, Ok tt)).
  { unfold clearHistoryButton_click.
    rewrite (bind_ok _ _ w w0 tt) by reflexivity. exact Hrender. }
  assert (Hw' : w' = set_historyContainer_hidden true w0).
  { unfold w', exec. rewrite Hclick. reflexivity. }
  split; [unfold completion; rewrite Hclick; reflexivity|].
  rewrite Hw'. split; [exact Hgone|]. split.
  - rewrite (getHistory_reads_storage _ w0) by reflexivity.
    unfold completion. rewrite Hget. reflexivity.
  - split; [reflexivity|]. split; [|reflexivity].
    intros key Hkey. cbn. apply lookup_delete_ne. congruence.
Qed.

(** X7: loading the page on a well-formed stored history shows it and
    disables the download button, and does nothing else: no request, no
    write, no control disabled. *)
Theorem initial_load_shows_history (h : list HistoryItem.t) (w : World) :
  completion getHistory w = Ok (JArray (map HistoryItem.to_value h)) ->
  let w' := exec initial_load w in
  completion initial_load w = Ok tt /\
  downloadButton_disabled w' = true /\
  historyContainer_hidden w' = match h with [] => true | _ :: _ => false end /\
  (h <> [] -> historyGrid w' = map HistoryItem.to_value h) /\
  localStorage w' = localStorage w /\ disabled w' = disabled w /\
  sent_prompts (calls w') = sent_prompts (calls w).
Proof.
  intros Hget w'.
  assert (Hload : initial_load w
                  = (set_downloadButton_disabled true (exec renderHistory w), Ok tt)).
  { unfold initial_load.
    rewrite (bind_ok _ _ w (exec renderHistory w) tt); [reflexivity|].
    rewrite (run_pair renderHistory w). unfold completion.
    rewrite (renderHistory_history h w Hget). reflexivity. }
  assert (Hw' : w' = set_downloadButton_disabled true (exec renderHistory w)).
  { unfold w', exec at 1. rewrite Hload. reflexivity. }
  assert (Hrendered : exec renderHistory w
                      = match h with
                        | [] => set_historyContainer_hidden true (exec getHistory w)
                        | _ :: _ =>
                          set_historyGrid (map HistoryItem.to_value h)
                            (set_historyContainer_hidden false (exec getHistory w))
                        end).
  { unfold exec at 1. rewrite (renderHistory_history h w Hget). reflexivity. }
  split; [unfold completion; rewrite Hload; reflexivity|].
  rewrite Hw', Hrendered. split; [reflexivity|].
  split; [destruct h; reflexivity|].
  split; [intros Hne; destruct h; [congruence | reflexivity]|].
  repeat split; destruct h; cbn;
    first [apply getHistory_storage | apply getHistory_keeps_disabled
          | apply (getHistory_keeps_requests w)].
Qed.

End HistoryStore.

(** ** More on the [generate] flow *)

Lemma sent_requests_app (cs ds : list Call) :
  sent_requests (cs ++ ds) = sent_requests cs ++ sent_requests ds.
Proof. apply omap_app. Qed.

Ltac unfold_page :=
  unfold generate_succeeded, generate_catch, generate_catch_report,
    openApiKeyDialog, openApiKeyDialog_call, showStatusError, resume,
    generateImage_response, renderHistory, renderHistory_item, addToHistory,
    saveHistory, getHistory, setControlsDisabled.

Ltac quiet_requests :=
  cbn [calls set_calls]; rewrite ?sent_requests_app;
  cbn [sent_requests omap]; rewrite ?app_nil_r; reflexivity.

Section FlowOutcomes.
Context {host : Platform}.

Lemma generateImage_response_fails (o : ApiOutcome) (e : Thrown) (w : World) :
  failure_of o = Some e -> generateImage_response o w = (w, Threw e).
Proof.
  destruct o as [[[|b more]|]|e']; cbn; intros He; inversion He; reflexivity.
Qed.

(** A flow whose request fails goes from the request straight to the
    [catch] block. *)
Lemma generate_failed (env : FlowEnv) (w : World) (apiKey : jsstring)
    (e : Thrown) :
  usable_key (API_KEY env) = Some apiKey ->
  failure_of (generateImages_settles env) = Some e ->
  generate env w
  = try_finally (generate_catch env e) (setControlsDisabled false)
      (requested apiKey w).
Proof.
  intros Hkey Hfail.
  pose proof (generate_with_key env w apiKey Hkey) as Hwhole.
  cbv zeta in Hwhole. rewrite Hwhole. fold (requested apiKey w).
  unfold try_finally, try_catch.
  rewrite (bind_threw _ _ _ _ _ (generateImage_response_fails _ e _ Hfail)).
  reflexivity.
Qed.

(** Everything a failed flow leaves behind. *)
Lemma generate_failed_outcome (env : FlowEnv) (w : World) (apiKey : jsstring)
    (e : Thrown) :
  usable_key (API_KEY env) = Some apiKey ->
  failure_of (generateImages_settles env) = Some e ->
  let w' := exec (generate env) w in
  let '(userFriendlyMessage, shouldOpenDialog) := classify (errorMessage_of e) in
  statusEl w'
  = ErrorSpan (if shouldOpenDialog && negb (aistudio_openSelectKey env)
               then selectKey_unavailable_message else userFriendlyMessage) /\
  selectKey_opened (calls w')
  = (selectKey_opened (calls w)
     + if shouldOpenDialog && aistudio_openSelectKey env then 1 else 0)%nat /\
  sent_requests (calls w') = sent_requests (calls w) ++ [request_of apiKey w] /\
  downloadButton_disabled w' = true /\
  outputImage_display w' = lit "none" /\
  outputImage_src w' = outputImage_src w /\
  localStorage w' = localStorage w /\
  historyGrid w' = historyGrid w /\
  disabled w' = all_enabled.
Proof.
  intros Hkey Hfail w'. unfold w', exec.
  rewrite (generate_failed env w apiKey e Hkey Hfail).
  unfold requested, generate_catch, generate_catch_report.
  destruct (classify (errorMessage_of e)) as [msg should].
  unfold openApiKeyDialog, openApiKeyDialog_call, generateImage_request,
    generate_enter, setControlsDisabled, showStatusError, resume, request_of.
  run_monad.
  destruct should, (aistudio_openSelectKey env); cbn;
    try destruct (selectKey_settles env); cbn;
    rewrite ?selectKey_opened_app, ?sent_requests_app; cbn;
    rewrite ?app_nil_r;
    repeat split; try reflexivity; lia.
Qed.

(** X9: a response without images (none listed, or an empty list) is
    reported as "Error: No images were generated. The prompt may have been
    blocked." and does not open the key selection.  The lower-cased text is
    assumed not to read "permission denied". *)
Theorem empty_result_reported (env : FlowEnv) (w : World) (apiKey : jsstring) :
  let message :=
    lit "No images were generated. The prompt may have been blocked." in
  usable_key (API_KEY env) = Some apiKey ->
  generateImages_settles env = ApiResponds None \/
  generateImages_settles env = ApiResponds (Some []) ->
  includes (toLowerCase message) (lit "permission denied") = false ->
  let w' := exec (generate env) w in
  statusEl w' = ErrorSpan (lit "Error: " ++ message) /\
  selectKey_opened (calls w') = selectKey_opened (calls w) /\
  localStorage w' = localStorage w.
Proof.
  intros message Hkey Hempty Hlower w'.
  assert (Hfail : failure_of (generateImages_settles env)
                  = Some (JSError (MsgString message)))
    by (destruct Hempty as [-> | ->]; reflexivity).
  pose proof (generate_failed_outcome env w apiKey _ Hkey Hfail) as Hout.
  fold w' in Hout. cbn [errorMessage_of] in Hout.
  rewrite (classify_unrelated message) in Hout by (exact Hlower || reflexivity).
  destruct Hout as (Hstatus & Hopened & _ & _ & _ & _ & Hls & _).
  cbn in Hstatus, Hopened. repeat split; [exact Hstatus | lia | exact Hls].
Qed.

Lemma classify_not_found (m : jsstring) :
  includes m (lit "Requested entity was not found.") = true ->
  classify (MsgString m) = (model_not_found_message, true).
Proof. intros Hnf. unfold classify. rewrite Hnf. reflexivity. Qed.

Lemma classify_key_not_valid (m : jsstring) :
  includes m (lit "Requested entity was not found.") = false ->
  includes m (lit "API key not valid") = true \/
  includes (toLowerCase m) (lit "permission denied") = true ->
  classify (MsgString m) = (invalid_key_message, true).
Proof.
  intros Hnf Hsig. unfold classify. rewrite Hnf.
  destruct Hsig as [-> | ->]; rewrite ?orb_true_r; reflexivity.
Qed.

(** X10: the other signatures.  On a host with key selection, an error whose
    message contains "Requested entity was not found." ends with the
    model-not-found text, whatever else the message holds; one that does
    not, but contains "API key not valid" or, in any letter case,
    "permission denied", ends with the invalid-key text.  In both cases the
    key selection is opened exactly once. *)
Theorem other_signatures_classified (env : FlowEnv) (w : World)
    (apiKey m : jsstring) :
  usable_key (API_KEY env) = Some apiKey ->
  generateImages_settles env = ApiRejects (JSError (MsgString m)) ->
  aistudio_openSelectKey env = true ->
  let w' := exec (generate env) w in
  (includes m (lit "Requested entity was not found.") = true ->
   statusEl w' = ErrorSpan model_not_found_message /\
   selectKey_opened (calls w') = S (selectKey_opened (calls w))) /\
  (includes m (lit "Requested entity was not found.") = false ->
   includes m (lit "API key not valid") = true \/
   includes (toLowerCase m) (lit "permission denied") = true ->
   statusEl w' = ErrorSpan invalid_key_message /\
   selectKey_opened (calls w') = S (selectKey_opened (calls w))).
Proof.
  intros Hkey Hrej Havail w'.
  assert (Hfail : failure_of (generateImages_settles env)
                  = Some (JSError (MsgString m))) by (rewrite Hrej; reflexivity).
  pose proof (generate_failed_outcome env w apiKey _ Hkey Hfail) as Hout.
  fold w' in Hout. cbn [errorMessage_of] in Hout. rewrite Havail in Hout.
  split.
  - intros Hnf. rewrite (classify_not_found m Hnf) in Hout.
    destruct Hout as (Hstatus & Hopened & _). cbn in Hstatus, Hopened.
    split; [exact Hstatus | lia].
  - intros Hnf Hsig. rewrite (classify_key_not_valid m Hnf Hsig) in Hout.
    destruct Hout as (Hstatus & Hopened & _). cbn in Hstatus, Hopened.
    split; [exact Hstatus | lia].
Qed.

(** X11: what is thrown without being an [Error] with a string message is
    never taken for a key problem: a value that is no [Error] is reported
    as "Error: An unknown error occurred." (assuming the lower-cased text
    does not read "permission denied"), an [Error] whose message is not a
    string as "Error: " followed by that message as text; the key selection
    stays closed. *)
Theorem unclassified_throw_reported (env : FlowEnv) (w : World)
    (apiKey : jsstring) :
  usable_key (API_KEY env) = Some apiKey ->
  let w' := exec (generate env) w in
  (generateImages_settles env = ApiRejects NonError ->
   includes (toLowerCase (lit "An unknown error occurred."))
     (lit "permission denied") = false ->
   statusEl w' = ErrorSpan (lit "Error: An unknown error occurred.") /\
   selectKey_opened (calls w') = selectKey_opened (calls w)) /\
  (forall text,
     generateImages_settles env = ApiRejects (JSError (MsgOther text)) ->
     statusEl w' = ErrorSpan (lit "Error: " ++ text) /\
     selectKey_opened (calls w') = selectKey_opened (calls w)).
Proof.
  intros Hkey w'. split.
  - intros Hrej Hlower.
    assert (Hfail : failure_of (generateImages_settles env) = Some NonError)
      by (rewrite Hrej; reflexivity).
    pose proof (generate_failed_outcome env w apiKey _ Hkey Hfail) as Hout.
    fold w' in Hout. cbn [errorMessage_of] in Hout.
    rewrite (classify_unrelated (lit "An unknown error occurred.")) in Hout
      by (exact Hlower || reflexivity).
    destruct Hout as (Hstatus & Hopened & _). cbn in Hstatus, Hopened.
    split; [exact Hstatus | lia].
  - intros text Hrej.
    assert (Hfail : failure_of (generateImages_settles env)
                    = Some (JSError (MsgOther text)))
      by (rewrite Hrej; reflexivity).
    pose proof (generate_failed_outcome env w apiKey _ Hkey Hfail) as Hout.
    fold w' in Hout. cbn [errorMessage_of classify shown] in Hout.
    destruct Hout as (Hstatus & Hopened & _). cbn in Hstatus, Hopened.
    split; [exact Hstatus | lia].
Qed.

(** X12: without a usable key ([undefined] or the empty string) [generate]
    sends no request, disables nothing and writes nothing.  On a host with
    key selection it shows the not-configured text and opens the selection
    once; on a host without it the not-available text replaces that at
    once. *)
Theorem no_key_no_request (env : FlowEnv) (w : World) :
  usable_key (API_KEY env) = None ->
  let w' := exec (generate env) w in
  sent_requests (calls w') = sent_requests (calls w) /\
  disabled w' = disabled w /\
  downloadButton_disabled w' = downloadButton_disabled w /\
  localStorage w' = localStorage w /\
  statusEl w'
  = ErrorSpan (if aistudio_openSelectKey env
               then lit "API key is not configured. Please add your API key."
               else selectKey_unavailable_message) /\
  selectKey_opened (calls w')
  = (selectKey_opened (calls w)
     + if aistudio_openSelectKey env then 1 else 0)%nat.
Proof.
  intros Hkey w'. unfold w', generate. rewrite Hkey.
  unfold openApiKeyDialog, openApiKeyDialog_call, showStatusError, resume.
  run_monad.
  destruct (aistudio_openSelectKey env); cbn;
    try destruct (selectKey_settles env); cbn;
    rewrite ?selectKey_opened_app, ?sent_requests_app; cbn;
    rewrite ?app_nil_r; repeat split; try reflexivity; lia.
Qed.

(** X13: nothing that goes wrong while generating escapes [generate]: it
    completes normally unless the host's key selection, opened by
    [generate] itself, rejects, and then it is that rejection which
    escapes. *)
Theorem generate_contains_errors (env : FlowEnv) (w : World) :
  completion (generate env) w = Ok tt \/
  (exists e, aistudio_openSelectKey env = true /\
             selectKey_settles env = Rejected e /\
             completion (generate env) w = Threw e).
Proof.
  assert (Hdialog : forall w0,
            completion (openApiKeyDialog env) w0 = Ok tt \/
            (exists e, aistudio_openSelectKey env = true /\
                       selectKey_settles env = Rejected e /\
                       completion (openApiKeyDialog env) w0 = Threw e)).
  { intros w0. unfold openApiKeyDialog, openApiKeyDialog_call, showStatusError,
      resume. run_monad.
    destruct (aistudio_openSelectKey env); cbn; [|left; reflexivity].
    destruct (selectKey_settles env) as [|e]; cbn; [left; reflexivity|].
    right. exists e. repeat split. }
  destruct (usable_key (API_KEY env)) as [apiKey|] eqn:Hkey.
  - unfold completion.
    pose proof (generate_with_key env w apiKey Hkey) as Hwhole.
    cbv zeta in Hwhole. rewrite Hwhole. clear Hwhole.
    fold (requested apiKey w).
    remember (generateImage_response (generateImages_settles env) >>
              generate_succeeded (finalPrompt w) (randomUUID env) (Date_now env))
      as body eqn:Ebody. clear Ebody.
    unfold try_finally, try_catch, setControlsDisabled, modify.
    destruct (body (requested apiKey w)) as [w2 [[]|e]]; [left; reflexivity|].
    unfold generate_catch, generate_catch_report.
    destruct (classify (errorMessage_of e)) as [msg [|]].
    + unfold bind, call, modify, showStatusError, ret. cbn.
      match goal with
      | |- context [openApiKeyDialog env ?w0] =>
        destruct (Hdialog w0) as [Hok|(e' & Ha & Hs & Hthrew)];
          unfold completion in *;
          destruct (openApiKeyDialog env w0) as [w3 r]; cbn [snd] in *; subst r
      end.
      * left. reflexivity.
      * right. exists e'. repeat split; assumption.
    + left. reflexivity.
  - unfold generate. rewrite Hkey. unfold showStatusError, completion.
    rewrite (bind_ok _ _ w (set_statusEl
               (ErrorSpan (lit "API key is not configured. Please add your API key.")) w) tt)
      by reflexivity.
    apply Hdialog.
Qed.

End FlowOutcomes.

Section Success.
Context {host : Platform}.

Lemma addToHistory_keeps_requests_made item :
  keeps requests_made (addToHistory item).
Proof. unfold requests_made. unfold_page. frame; quiet_requests. Qed.

Lemma renderHistory_keeps_requests_made : keeps requests_made renderHistory.
Proof. unfold requests_made. unfold_page. frame; quiet_requests. Qed.

Lemma generate_sends (env : FlowEnv) (w : World) (apiKey : jsstring) :
  usable_key (API_KEY env) = Some apiKey ->
  requests_made (exec (generate env) w)
  = requests_made w ++ [request_of apiKey w].
Proof.
  intros Hkey. unfold exec at 1.
  pose proof (generate_with_key env w apiKey Hkey) as Hwhole.
  cbv zeta in Hwhole. rewrite Hwhole. clear Hwhole. fold (requested apiKey w).
  match goal with
  | |- requests_made (fst (try_finally ?body ?cleanup ?w1)) = _ =>
    change (requests_made (exec (try_finally body cleanup) w1)
            = requests_made w ++ [request_of apiKey w]);
    transitivity (requests_made w1)
  end.
  - apply (keeps_try_finally requests_made); [apply keeps_try_catch|].
    + apply keeps_bind; [unfold generateImage_response; frame|].
      intros _. unfold generate_succeeded. frame.
      * apply addToHistory_keeps_requests_made.
      * apply renderHistory_keeps_requests_made.
    + intros e. unfold requests_made. unfold_page. frame; quiet_requests.
    + unfold setControlsDisabled. frame.
  - unfold requests_made, requested, generateImage_request, generate_enter,
      setControlsDisabled, request_of.
    run_monad. cbn. rewrite sent_requests_app. reflexivity.
Qed.

(** X14: a flow with a key sends exactly one request, whatever happens
    afterwards: to the model imagen-4.0-generate-001, with the key, with the
    composed prompt, and with the aspect ratio in its options only when the
    aspect ratio is not the empty string. *)
Theorem one_request_per_flow (env : FlowEnv) (w : World) (apiKey : jsstring) :
  usable_key (API_KEY env) = Some apiKey ->
  exists req,
    sent_requests (calls (exec (generate env) w))
    = sent_requests (calls w) ++ [req] /\
    req_apiKey req = apiKey /\
    req_model req = lit "imagen-4.0-generate-001" /\
    req_prompt req = finalPrompt w /\
    (aspectRatio w = [] -> req_aspectRatio req = None) /\
    (aspectRatio w <> [] -> req_aspectRatio req = Some (aspectRatio w)).
Proof.
  intros Hkey. exists (request_of apiKey w).
  split; [exact (generate_sends env w apiKey Hkey)|].
  repeat split; unfold request_of; cbn [req_aspectRatio].
  - intros ->. reflexivity.
  - intros Hne. destruct (aspectRatio w); [congruence | reflexivity].
Qed.

(** The page after the [try] block when the API answered with an image and
    a well-formed history is stored. *)
Lemma try_block_succeeds (env : FlowEnv) (w1 : World) (fp b : jsstring)
    (more : list jsstring) (h : list HistoryItem.t) :
  JSON_reads_back_histories -> JSON_parse [] = None ->
  generateImages_settles env = ApiResponds (Some (b :: more)) ->
  completion getHistory w1 = Ok (JArray (map HistoryItem.to_value h)) ->
  let url := lit "data:image/jpeg;base64," ++ b in
  let item := HistoryItem.mk (randomUUID env) fp url (Date_now env) in
  let stored := take MAX_HISTORY_ITEMS (item :: h) in
  exists w4,
    (generateImage_response (generateImages_settles env) >>
     generate_succeeded fp (randomUUID env) (Date_now env)) w1 = (w4, Ok tt) /\
    statusEl w4 = InnerText (lit "Image generated successfully.") /\
    outputImage_src w4 = url /\ outputImage_display w4 = lit "block" /\
    downloadButton_disabled w4 = false /\
    completion getHistory w4 = Ok (JArray (map HistoryItem.to_value stored)) /\
    historyGrid w4 = map HistoryItem.to_value stored /\
    historyContainer_hidden w4 = false /\
    disabled w4 = disabled w1.
Proof.
  intros Hback Hempty Hresp Hget url item stored.
  set (w2 := set_downloadButton_disabled false
               (set_statusEl (InnerText (lit "Image generated successfully."))
                  (set_outputImage_display (lit "block")
                     (set_outputImage_src url w1)))).
  assert (Hget2 : completion getHistory w2
                  = Ok (JArray (map HistoryItem.to_value h))).
  { rewrite (getHistory_reads_storage w2 w1) by reflexivity. exact Hget. }
  destruct (addToHistory_stores item _ w2 Hget2) as [Hok Hls].
  set (w3 := exec (addToHistory item) w2) in *.
  assert (Hget3 : completion getHistory w3
                  = Ok (JArray (map HistoryItem.to_value stored))).
  { eapply getHistory_parsed; [rewrite Hls; apply lookup_insert_eq|exact Hempty|].
    change (HistoryItem.to_value item :: map HistoryItem.to_value h)
      with (map HistoryItem.to_value (item :: h)).
    rewrite firstn_map. apply Hback. }
  pose proof (renderHistory_history stored w3 Hget3) as Hrender.
  change (match stored with
          | [] => set_historyContainer_hidden true (exec getHistory w3)
          | _ :: _ =>
            set_historyGrid (map HistoryItem.to_value stored)
              (set_historyContainer_hidden false (exec getHistory w3))
          end)
    with (set_historyGrid (map HistoryItem.to_value stored)
            (set_historyContainer_hidden false (exec getHistory w3))) in Hrender.
  exists (set_historyGrid (map HistoryItem.to_value stored)
            (set_historyContainer_hidden false (exec getHistory w3))).
  split.
  { rewrite Hresp.
    rewrite (bind_ok _ _ w1
               (set_outputImage_display (lit "block") (set_outputImage_src url w1))
               tt) by reflexivity.
    unfold generate_succeeded.
    rewrite (bind_ok _ _ _ _ tt eq_refl), (bind_ok _ _ _ _ tt eq_refl),
      (bind_ok _ _ _ _ _ eq_refl).
    change (bind (addToHistory item) (fun _ => renderHistory) w2
            = (set_historyGrid (map HistoryItem.to_value stored)
                 (set_historyContainer_hidden false (exec getHistory w3)), Ok tt)).
    rewrite (bind_ok _ _ w2 w3 tt)
      by (rewrite (run_pair (addToHistory item) w2), Hok; reflexivity).
    exact Hrender. }
  assert (Hframe : forall {B} (f : World -> B),
            keeps f getHistory -> keeps f (addToHistory item) ->
            (forall g x, f (set_historyGrid g x) = f x) ->
            (forall g x, f (set_historyContainer_hidden g x) = f x) ->
            f (set_historyGrid (map HistoryItem.to_value stored)
                 (set_historyContainer_hidden false (exec getHistory w3)))
            = f w2).
  { intros B f Hg Ha Hgrid Hhid. rewrite Hgrid, Hhid, (Hg w3). apply (Ha w2). }
  repeat split.
  - apply Hframe; [unfold getHistory; frame | unfold_page; frame | reflexivity..].
  - apply Hframe; [unfold getHistory; frame | unfold_page; frame | reflexivity..].
  - apply Hframe; [unfold getHistory; frame | unfold_page; frame | reflexivity..].
  - apply Hframe; [unfold getHistory; frame | unfold_page; frame | reflexivity..].
  - rewrite (getHistory_reads_storage _ w3); [exact Hget3|].
    cbn. apply getHistory_storage.
  - apply (Hframe _ disabled);
      [apply getHistory_keeps_disabled | apply addToHistory_keeps_disabled
      | reflexivity..].
Qed.

End Success.

(** ** More on the event loop *)

Section Locked.
Context {host : Platform}.

Lemma click_start_locks (api_key : option jsstring) (available : bool)
    (w : World) :
  let '(w', r) := generateButton_click_start api_key available w in
  (r = Ok None /\ disabled w' = disabled w) \/
  (r = Ok (Some AwaitNoKeyDialog) /\ disabled w' = disabled w) \/
  (exists fp, r = Ok (Some (AwaitGenerateImages fp)) /\
              disabled w' = all_disabled).
Proof.
  unfold generateButton_click_start, generate_start, openApiKeyDialog_call,
    generateImage_request, generate_enter, setControlsDisabled, showStatusError.
  run_monad.
  destruct (truthy (trim (prompt w))); cbn; [|left; split; reflexivity].
  destruct (usable_key api_key) as [apiKey|]; cbn.
  - right. right. eexists. split; reflexivity.
  - destruct available; cbn; [right|]; left; split; reflexivity.
Qed.

Lemma step_controls_locked (m : Machine) (ev : Event) :
  controls_locked m -> controls_locked (step m ev).
Proof.
  intros Inv. destruct m as [w l]. unfold controls_locked in *.
  cbn [world awaiting] in *.
  destruct ev as [v|v|v|v|v|k a|c|i|i wk]; unfold step; cbn [world awaiting].
  - destruct (promptEl (disabled w)); exact Inv.
  - destruct (negativePromptEl (disabled w)); exact Inv.
  - destruct (aspectRatioSelect (disabled w)); exact Inv.
  - destruct (qualityPresetSelect (disabled w)); exact Inv.
  - destruct (cameraViewSelect (disabled w)); exact Inv.
  - destruct (generateButton (disabled w)) eqn:Hbutton; [exact Inv|].
    assert (Hnone : keyed_flows l = O).
    { destruct Inv as [?|[_ Hd]]; [assumption|].
      rewrite Hd in Hbutton. discriminate. }
    pose proof (click_start_locks k a w) as Hcases.
    destruct (generateButton_click_start k a w) as [w' r].
    destruct Hcases as [[-> Hd]|[[-> Hd]|(fp & -> & Hd)]]; cbn [world awaiting].
    + left. exact Hnone.
    + left. rewrite keyed_flows_app, Hnone. reflexivity.
    + right. rewrite keyed_flows_app, Hnone. split; [reflexivity|exact Hd].
  - rewrite (clearHistoryButton_click_keeps_disabled c w). exact Inv.
  - destruct (historyGrid w !! i) as [item|]; [|exact Inv]. cbn [world awaiting].
    rewrite (historyItem_click_keeps_disabled item w). exact Inv.
  - destruct (l !! i) as [p|] eqn:Hp; [|exact Inv].
    destruct (wakes p wk) eqn:Hwakes; [|exact Inv].
    pose proof (keyed_flows_delete l i p Hp) as Hdel.
    destruct p as [|fp|]; destruct wk as [o uuid now available|s];
      try discriminate; cbn [keyed Nat.add] in Hdel.
    + unfold generate_resume, resume. run_monad.
      destruct s; cbn [world awaiting]; rewrite <- Hdel; exact Inv.
    + pose proof (resume_api_cases fp o uuid now available w) as Hcases.
      destruct (generate_resume (AwaitGenerateImages fp)
                  (GenerateImagesSettled o uuid now available) w) as [w' r].
      destruct Hcases as [[-> Hd]| ->]; cbn [world awaiting].
      * pose proof (keyed_flows_insert l i _ AwaitCatchDialog Hp) as Hins.
        cbn [keyed] in Hins. rewrite Hd.
        destruct Inv as [Hzero|[Hone Hlocked]]; [lia|].
        right. split; [lia|exact Hlocked].
      * left. destruct Inv as [Hzero|[Hone _]]; lia.
    + left. destruct Inv as [Hzero|[Hone _]]; [lia|].
      destruct (generate_resume AwaitCatchDialog (SelectKeySettled s) w)
        as [w' [[q|]|e]] eqn:Hres; cbn [world awaiting]; try lia.
      unfold generate_resume, resume in Hres. run_monad.
      destruct s; discriminate.
Qed.

Lemma reachable_controls_locked (m : Machine) :
  reachable m -> controls_locked m.
Proof.
  intros (w & evs & ->). unfold run.
  assert (Hinit : controls_locked (loaded w)) by (left; reflexivity).
  revert Hinit. generalize (loaded w).
  induction evs as [|ev evs IH]; intros m Inv; [exact Inv|].
  apply IH, step_controls_locked, Inv.
Qed.

(** X17: in every state the page can reach, while a flow is past the key
    check (its request outstanding, or the key selection it opened after a
    failure still open) all six controls are disabled, so that typing in
    the prompt fields, changing a selector and clicking the generate button
    all leave the page as it is. *)
Theorem controls_locked_while_busy (m : Machine) (ev : Event) :
  reachable m -> busy m -> from_control ev = true ->
  disabled (world m) = all_disabled /\ step m ev = m.
Proof.
  intros Hreach (p & Hin & Hkeyed) Hev.
  pose proof (keyed_flows_elem _ _ Hin Hkeyed) as Hone.
  destruct (reachable_controls_locked m Hreach) as [Hzero|[_ Hlocked]]; [lia|].
  split; [exact Hlocked|].
  destruct ev; try discriminate; unfold step; rewrite Hlocked; reflexivity.
Qed.

Lemma keyed_flows_two (l : list Pending) (i j : nat) (p q : Pending) :
  l !! i = Some p -> l !! j = Some q -> keyed p = true -> keyed q = true ->
  i <> j -> (2 <= keyed_flows l)%nat.
Proof.
  intros Hp Hq Hkp Hkq Hij.
  rewrite (keyed_flows_lookup l i p Hp), Hkp.
  destruct (decide (j < i)%nat) as [Hlt|Hge].
  - assert (Hin : q ∈ take i l).
    { apply list_elem_of_lookup. exists j. rewrite lookup_take_lt by exact Hlt.
      exact Hq. }
    pose proof (keyed_flows_elem _ _ Hin Hkq). lia.
  - assert (Hin : q ∈ drop (S i) l).
    { apply list_elem_of_lookup. exists (j - S i)%nat. rewrite lookup_drop.
      replace (S i + (j - S i))%nat with j by lia. exact Hq. }
    pose proof (keyed_flows_elem _ _ Hin Hkq). lia.
Qed.

(** X18: in every state the page can reach, at most one flow is past the key
    check: two of them are never under way together. *)
Theorem one_flow_at_a_time (m : Machine) (i j : nat) (p q : Pending) :
  reachable m ->
  awaiting m !! i = Some p -> awaiting m !! j = Some q ->
  keyed p = true -> keyed q = true ->
  i = j.
Proof.
  intros Hreach Hp Hq Hkp Hkq.
  destruct (decide (i = j)) as [Heq|Hne]; [exact Heq|].
  pose proof (keyed_flows_two _ i j p q Hp Hq Hkp Hkq Hne) as Htwo.
  destruct (reachable_controls_locked m Hreach) as [Hzero|[Hone _]]; lia.
Qed.

End Locked.

(** ** The download listener *)

Lemma hyphenate_go_units (in_run : bool) (s : jsstring) :
  Forall (fun c => filename_unit c = true) s ->
  Forall stem_unit (hyphenate_go in_run s).
Proof.
  intros Hs. revert in_run.
  induction Hs as [|c s Hc Hs IH]; intros in_run; cbn [hyphenate_go].
  - constructor.
  - destruct (isWhiteSpace c) eqn:Hws.
    + destruct in_run; [apply IH|]. constructor; [|apply IH].
      unfold stem_unit. rewrite orb_true_r. reflexivity.
    + constructor; [|apply IH]. unfold stem_unit, filename_unit in *.
      rewrite Hws, orb_false_r in Hc. exact Hc.
Qed.

Lemma strip_unsafe_units (s : jsstring) :
  Forall (fun c => filename_unit c = true) (strip_unsafe s).
Proof.
  unfold strip_unsafe. induction s as [|c s IH]; cbn [List.filter].
  - constructor.
  - destruct (filename_unit c) eqn:Hc; [constructor; assumption | exact IH].
Qed.

Section DownloadFacts.
Context {host : Platform}.

Lemma safePrompt_units (value : jsstring) :
  Forall stem_unit (safePrompt value) /\ safePrompt value <> [].
Proof.
  unfold safePrompt.
  destruct (hyphenate (strip_unsafe (toLowerCase (trim value)))) as [|c s] eqn:Hs.
  - split; [|discriminate]. cbn [truthy].
    vm_compute. repeat constructor.
  - cbn [truthy]. split; [|discriminate]. rewrite <- Hs.
    apply hyphenate_go_units, strip_unsafe_units.
Qed.

(** A click on the download button starts no download while the output
    image has no source or is hidden; otherwise it downloads the image
    shown. *)
Lemma download_guard (w : World) :
  (downloadButton_click w = None <->
   outputImage_src w = [] \/ outputImage_display w = lit "none") /\
  (forall d, downloadButton_click w = Some d ->
             link_href d = outputImage_src w).
Proof.
  unfold downloadButton_click.
  destruct (outputImage_src w) as [|c src] eqn:Hsrc; cbn [truthy negb orb].
  - split; [split; [left; reflexivity | reflexivity] | discriminate].
  - destruct (bool_decide_reflect (outputImage_display w = lit "none")) as [Hd|Hd].
    + split; [split; [right; exact Hd | reflexivity] | discriminate].
    + split.
      * split; [discriminate | intros [Hs|Hn]; [discriminate | contradiction]].
      * intros d Hsome. inversion Hsome. reflexivity.
Qed.

(** X19: the name the download is given is always a safe file name: a stem
    of 1 to 50 code units, each a lower-case letter, a digit or a hyphen,
    followed by ".jpeg"; whatever the prompt field holds and whatever
    [toLowerCase] does.  When the cleaning leaves nothing of the prompt, as
    for a blank one, the name is "generated-image.jpeg". *)
Theorem download_filename_safe (w : World) (d : Download) :
  downloadButton_click w = Some d ->
  (exists stem,
     link_download d = stem ++ lit ".jpeg" /\
     (1 <= length stem <= 50)%nat /\ Forall stem_unit stem) /\
  (strip_unsafe (toLowerCase (trim (promptEl_value w))) = [] ->
   link_download d = lit "generated-image.jpeg").
Proof.
  unfold downloadButton_click.
  destruct (negb (truthy (outputImage_src w))
            || bool_decide (outputImage_display w = lit "none"));
    [discriminate|].
  intros Hsome. inversion Hsome as [Hd]. cbn [link_download]. clear Hsome Hd.
  destruct (safePrompt_units (promptEl_value w)) as [Hunits Hne]. split.
  - exists (take 50 (safePrompt (promptEl_value w))).
    split; [reflexivity|]. split.
    + rewrite length_take.
      destruct (safePrompt (promptEl_value w)); [congruence|]. cbn [length]. lia.
    + apply Forall_take. exact Hunits.
  - intros Hgone. unfold safePrompt. rewrite Hgone. reflexivity.
Qed.

End DownloadFacts.

(** ** Restoring and generating again *)

Section RestoreAgain.
Context {host : Platform}.

(** What the prompt sent to the API is cut back to by
    [split(', photorealistic')[0]]. *)
Lemma before_finalPrompt (w0 : World) :
  let kept :=
    prompt w0 ++ cameraViewPrompt (cameraView w0) ++ lit ", "
    ++ qualityKeywords (qualityPreset w0) in
  includes kept (lit ", photorealistic") = false ->
  before (lit ", photorealistic") (finalPrompt w0) = kept.
Proof.
  intros kept Hkept.
  assert (Hshape : exists rest,
             finalPrompt w0 = kept ++ lit ", photorealistic" ++ rest).
  { unfold finalPrompt. fold kept.
    destruct (truthy (trim (negativePrompt w0))); eexists;
      unfold kept; rewrite <- ?app_assoc; repeat f_equal;
      (change commonKeywords with (lit "photorealistic" ++ lit ", film still, movie scene, fit prompt, no distortion, no deformations, no text overlays"));
      change (lit ", " ++ lit "photorealistic" ++ ?x)
        with (lit ", photorealistic" ++ x);
      rewrite <- ?app_assoc; reflexivity. }
  destruct Hshape as [rest ->].
  apply (before_head 44 (lit " photorealistic") kept rest); [|exact Hkept].
  vm_compute. repeat constructor; discriminate.
Qed.

Lemma historyItem_click_prompt (item : JSValue) (p : jsstring) (w : World) :
  get_prop item (lit "prompt") = Some (JString p) ->
  let w' := exec (historyItem_click item) w in
  prompt w' = before (lit ", photorealistic") p /\
  cameraView w' = cameraView w /\ qualityPreset w' = qualityPreset w /\
  negativePrompt w' = negativePrompt w.
Proof.
  intros Hprop w'. unfold w', historyItem_click. rewrite Hprop. run_monad.
  rewrite split_head by discriminate. repeat split.
Qed.

(** X21: restoring an item and generating again applies the presets a second
    time.  If the item was composed by [generate] on a page [w0] (and
    ", photorealistic" does not occur before the common keywords), and the
    camera view and quality preset are still those of [w0], then the prompt
    composed after the click holds the camera clause and the quality
    keywords twice over. *)
Theorem restore_then_generate_repeats (item : JSValue) (w0 w : World) :
  get_prop item (lit "prompt") = Some (JString (finalPrompt w0)) ->
  let presets :=
    cameraViewPrompt (cameraView w0) ++ lit ", "
    ++ qualityKeywords (qualityPreset w0) in
  includes (prompt w0 ++ presets) (lit ", photorealistic") = false ->
  cameraView w = cameraView w0 -> qualityPreset w = qualityPreset w0 ->
  exists rest,
    finalPrompt (exec (historyItem_click item) w)
    = prompt w0 ++ presets ++ presets ++ rest.
Proof.
  intros Hprop presets Hkept Hcam Hq.
  destruct (historyItem_click_prompt item _ w Hprop) as (Hp & Hc & Hqp & Hn).
  rewrite (before_finalPrompt w0 Hkept) in Hp.
  unfold finalPrompt. rewrite Hp, Hc, Hqp, Hn, Hcam, Hq.
  destruct (truthy (trim (negativePrompt w))); eexists;
    unfold presets; rewrite <- !app_assoc; reflexivity.
Qed.

End RestoreAgain.

(** ** Generations on the event loop *)

Section Interleaved.
Context {host : Platform}.

(** The turn of the event loop that resumes a suspended flow. *)
Lemma step_settle (m : Machine) (i : nat) (p : Pending) (wk : Wake) :
  awaiting m !! i = Some p -> wakes p wk = true ->
  step m (Settle i wk)
  = match generate_resume p wk (world m) with
    | (w', Ok (Some q)) => mkMachine w' (<[i := q]> (awaiting m))
    | (w', _) => mkMachine w' (delete i (awaiting m))
    end.
Proof. intros Hp Hw. unfold step. rewrite Hp, Hw. reflexivity. Qed.

(** When the [try] block throws, the resumed flow goes on in the [catch]
    block, from the page the [try] block left. *)
Lemma resume_threw (fp : jsstring) (o : ApiOutcome) (uuid : jsstring) (now : Z)
    (available : bool) (w w1 : World) (e : Thrown) :
  (generateImage_response o >> generate_succeeded fp uuid now) w
  = (w1, Threw e) ->
  generate_resume (AwaitGenerateImages fp)
    (GenerateImagesSettled o uuid now available) w
  = (let* shouldOpenDialog := generate_catch_report e in
     if shouldOpenDialog then
       let* awaiting := openApiKeyDialog_call available in
       if awaiting then ret (Some AwaitCatchDialog)
       else setControlsDisabled false >> ret None
     else setControlsDisabled false >> ret None) w1.
Proof.
  intros Hbody. unfold generate_resume.
  set (body := generateImage_response o >> generate_succeeded fp uuid now) in *.
  clearbody body. unfold bind at 1. unfold attempt. rewrite Hbody. reflexivity.
Qed.

(** What the [catch] block and what follows it do to the page: an error
    status, and either the key selection is awaited with the controls as
    they are, or the flow ends with the controls enabled. *)
Lemma resume_catch_outcome (e : Thrown) (available : bool) (w1 : World) :
  let '(w', r) :=
    (let* shouldOpenDialog := generate_catch_report e in
     if shouldOpenDialog then
       let* awaiting := openApiKeyDialog_call available in
       if awaiting then ret (Some AwaitCatchDialog)
       else setControlsDisabled false >> ret None
     else setControlsDisabled false >> ret None) w1 in
  (exists message, statusEl w' = ErrorSpan message) /\
  downloadButton_disabled w' = downloadButton_disabled w1 /\
  outputImage_display w' = outputImage_display w1 /\
  outputImage_src w' = outputImage_src w1 /\
  localStorage w' = localStorage w1 /\
  historyGrid w' = historyGrid w1 /\
  sent_requests (calls w') = sent_requests (calls w1) /\
  (r = Ok (Some AwaitCatchDialog) /\ disabled w' = disabled w1 \/
   r = Ok None /\ disabled w' = all_enabled).
Proof.
  unfold generate_catch_report.
  destruct (classify (errorMessage_of e)) as [msg should].
  unfold openApiKeyDialog_call, showStatusError, setControlsDisabled.
  run_monad.
  destruct should, available; cbn;
    rewrite ?sent_requests_app; cbn; rewrite ?app_nil_r;
    (split; [eexists; reflexivity|]);
    repeat (split; [reflexivity|]);
    first [left; split; reflexivity | right; split; reflexivity].
Qed.

(** The turn that resumes a flow whose [try] block throws. *)
Lemma step_settle_threw (m : Machine) (i : nat) (fp : jsstring)
    (o : ApiOutcome) (uuid : jsstring) (now : Z) (available : bool)
    (w1 : World) (e : Thrown) :
  awaiting m !! i = Some (AwaitGenerateImages fp) ->
  (generateImage_response o >> generate_succeeded fp uuid now) (world m)
  = (w1, Threw e) ->
  let m' := step m (api_settles i o uuid now available) in
  let w' := world m' in
  (exists message, statusEl w' = ErrorSpan message) /\
  downloadButton_disabled w' = downloadButton_disabled w1 /\
  outputImage_display w' = outputImage_display w1 /\
  outputImage_src w' = outputImage_src w1 /\
  localStorage w' = localStorage w1 /\
  historyGrid w' = historyGrid w1 /\
  sent_requests (calls w') = sent_requests (calls w1) /\
  (awaiting m' = <[i := AwaitCatchDialog]> (awaiting m) /\
   disabled w' = disabled w1 \/
   awaiting m' = delete i (awaiting m) /\ disabled w' = all_enabled).
Proof.
  intros Hp Hbody m' w'. unfold w', m', api_settles.
  rewrite (step_settle m i _ (GenerateImagesSettled o uuid now available) Hp eq_refl).
  rewrite (resume_threw fp o uuid now available (world m) w1 e Hbody).
  pose proof (resume_catch_outcome e available w1) as Hout.
  match type of Hout with
  | let '(_, _) := ?c in _ => destruct c as [w2 r]
  end.
  destruct Hout as (Hstatus & Hdl & Hdisp & Hsrc & Hls & Hgrid & Hsent & Hend).
  destruct Hend as [[-> Hdis] | [-> Hdis]]; cbn [world awaiting];
    repeat (split; [assumption|]); [left | right]; split; (reflexivity || assumption).
Qed.

(** The page of a turn that a control delivers. *)
Lemma step_click_world (m : Machine) (api_key : option jsstring)
    (available : bool) :
  generateButton (disabled (world m)) = false ->
  world (step m (GenerateClick api_key available))
  = exec (generateButton_click_start api_key available) (world m).
Proof.
  intros Hbutton. unfold step. rewrite Hbutton. unfold exec.
  destruct (generateButton_click_start api_key available (world m))
    as [w' [[p|]|e]]; reflexivity.
Qed.

(** A click that starts a generation hides the output image and disables
    its download. *)
Lemma click_hides_image (m : Machine) (api_key : option jsstring)
    (apiKey : jsstring) (available : bool) :
  generateButton (disabled (world m)) = false ->
  usable_key api_key = Some apiKey ->
  truthy (trim (prompt (world m))) = true ->
  image_hidden (world (step m (GenerateClick api_key available))).
Proof.
  intros Hbutton Hkey Hprompt. rewrite (step_click_world m _ _ Hbutton).
  unfold generateButton_click_start, generate_start, generateImage_request,
    generate_enter, setControlsDisabled.
  run_monad. rewrite Hprompt, Hkey. cbn. split; reflexivity.
Qed.

Lemma clearHistoryButton_click_keeps_image {B} (f : World -> B)
    (confirmed : bool) :
  (forall x w, f (set_localStorage x w) = f w) ->
  (forall x w, f (set_historyGrid x w) = f w) ->
  (forall x w, f (set_historyContainer_hidden x w) = f w) ->
  (forall x w, f (set_calls x w) = f w) ->
  keeps f (clearHistoryButton_click confirmed).
Proof.
  intros Hls Hgrid Hhid Hcalls.
  unfold clearHistoryButton_click, renderHistory, renderHistory_item, getHistory.
  frame; auto.
Qed.

(** No turn but those of [shows_image] brings a hidden image back. *)
Lemma step_keeps_hidden (m : Machine) (ev : Event) :
  shows_image ev = false ->
  image_hidden (world m) -> image_hidden (world (step m ev)).
Proof.
  intros Hev [Hdisp Hdl]. destruct m as [w l]. cbn [world] in *.
  destruct ev as [v|v|v|v|v|k a|c|i|i wk]; unfold step; cbn [world awaiting].
  - destruct (promptEl (disabled w)); split; assumption.
  - destruct (negativePromptEl (disabled w)); split; assumption.
  - destruct (aspectRatioSelect (disabled w)); split; assumption.
  - destruct (qualityPresetSelect (disabled w)); split; assumption.
  - destruct (cameraViewSelect (disabled w)); split; assumption.
  - destruct (generateButton (disabled w)); [split; assumption|].
    assert (Hw : image_hidden (exec (generateButton_click_start k a) w)).
    { unfold generateButton_click_start, generate_start, openApiKeyDialog_call,
        generateImage_request, generate_enter, setControlsDisabled,
        showStatusError.
      run_monad.
      destruct (truthy (trim (prompt w))); cbn; [|split; assumption].
      destruct (usable_key k); cbn; [split; reflexivity|].
      destruct a; cbn; split; assumption. }
    unfold exec in Hw.
    destruct (generateButton_click_start k a w) as [w' [[p|]|e]]; exact Hw.
  - cbn [world]. split.
    + rewrite <- Hdisp.
      apply (clearHistoryButton_click_keeps_image outputImage_display);
        reflexivity.
    + rewrite <- Hdl.
      apply (clearHistoryButton_click_keeps_image downloadButton_disabled);
        reflexivity.
  - discriminate.
  - destruct (l !! i) as [p|] eqn:Hp; [|split; assumption].
    destruct (wakes p wk) eqn:Hwakes; [|split; assumption].
    destruct p as [|fp|], wk as [o uuid now available|s]; try discriminate.
    + unfold generate_resume, resume. run_monad.
      destruct s; cbn; split; assumption.
    + cbn in Hev. destruct (failure_of o) as [e|] eqn:Hfail; [|discriminate].
      rewrite (resume_threw fp o uuid now available w w e).
      2:{ apply bind_threw. apply generateImage_response_fails. exact Hfail. }
      pose proof (resume_catch_outcome e available w) as Hout.
      match type of Hout with
      | let '(_, _) := ?c in _ => destruct c as [w2 r]
      end.
      destruct Hout as (_ & Hdl2 & Hdisp2 & _ & _ & _ & _ & Hend).
      assert (Hw2 : image_hidden w2) by (split; congruence).
      destruct Hend as [[-> _] | [-> _]]; exact Hw2.
    + unfold generate_resume, resume, setControlsDisabled. run_monad.
      destruct s; cbn; split; assumption.
Qed.

Lemma run_keeps_hidden (evs : list Event) (m : Machine) :
  Forall (fun ev => shows_image ev = false) evs ->
  image_hidden (world m) -> image_hidden (world (run m evs)).
Proof.
  intros Hevs. revert m. induction Hevs as [|ev evs Hev _ IH]; intros m Hm.
  - exact Hm.
  - cbn [run fold_left]. apply IH. apply step_keeps_hidden; assumption.
Qed.

(** From the click that starts a generation to a response that fails, as
    long as no thumbnail is clicked and no other response brings an image,
    the output image stays hidden; the failing response leaves the rest of
    the page as it finds it. *)
Lemma failed_response_outcome (m : Machine) (api_key : option jsstring)
    (apiKey : jsstring) (available : bool) (evs : list Event) (i : nat)
    (fp : jsstring) (o : ApiOutcome) (e : Thrown) (uuid : jsstring) (now : Z)
    (available' : bool) :
  generateButton (disabled (world m)) = false ->
  usable_key api_key = Some apiKey ->
  truthy (trim (prompt (world m))) = true ->
  Forall (fun ev => shows_image ev = false) evs ->
  let m1 := run (step m (GenerateClick api_key available)) evs in
  awaiting m1 !! i = Some (AwaitGenerateImages fp) ->
  failure_of o = Some e ->
  let m2 := step m1 (api_settles i o uuid now available') in
  image_hidden (world m2) /\
  (exists message, statusEl (world m2) = ErrorSpan message) /\
  outputImage_src (world m2) = outputImage_src (world m1) /\
  localStorage (world m2) = localStorage (world m1) /\
  historyGrid (world m2) = historyGrid (world m1) /\
  sent_requests (calls (world m2)) = sent_requests (calls (world m1)) /\
  (awaiting m2 = <[i := AwaitCatchDialog]> (awaiting m1) /\
   disabled (world m2) = disabled (world m1) \/
   awaiting m2 = delete i (awaiting m1) /\ disabled (world m2) = all_enabled).
Proof.
  intros Hbutton Hkey Hprompt Hevs m1 Hp Hfail m2.
  assert (Hhidden : image_hidden (world m1)).
  { apply run_keeps_hidden; [exact Hevs|].
    apply (click_hides_image m api_key apiKey available); assumption. }
  assert (Hbody : (generateImage_response o >> generate_succeeded fp uuid now)
                    (world m1) = (world m1, Threw e)).
  { apply bind_threw. apply generateImage_response_fails. exact Hfail. }
  destruct (step_settle_threw m1 i fp o uuid now available' (world m1) e Hp Hbody)
    as (Hstatus & Hdl & Hdisp & Hsrc & Hls & Hgrid & Hsent & Hend).
  fold m2 in Hstatus, Hdl, Hdisp, Hsrc, Hls, Hgrid, Hsent, Hend.
  destruct Hhidden as [Hd1 Hd2].
  split; [split; congruence|].
  repeat (split; [assumption|]). exact Hend.
Qed.

(** X8: a generation that fails at the API, on the event loop.  From the
    click that starts it to the failing response, whatever else happens in
    between short of a click on a thumbnail or a response with an image,
    the output image stays hidden and the download button disabled; the
    failing response shows an error status and leaves the image source, the
    storage, the history grid and the requests sent as it finds them; the
    flow then either awaits the key selection, the controls as they are, or
    is over, the six controls enabled. *)
Theorem failed_generation_leaves (m : Machine) (api_key : option jsstring)
    (apiKey : jsstring) (available : bool) (evs : list Event) (i : nat)
    (fp : jsstring) (o : ApiOutcome) (e : Thrown) (uuid : jsstring) (now : Z)
    (available' : bool) :
  generateButton (disabled (world m)) = false ->
  usable_key api_key = Some apiKey ->
  truthy (trim (prompt (world m))) = true ->
  Forall (fun ev => shows_image ev = false) evs ->
  let m1 := run (step m (GenerateClick api_key available)) evs in
  awaiting m1 !! i = Some (AwaitGenerateImages fp) ->
  failure_of o = Some e ->
  let m2 := step m1 (api_settles i o uuid now available') in
  downloadButton_disabled (world m2) = true /\
  outputImage_display (world m2) = lit "none" /\
  (exists message, statusEl (world m2) = ErrorSpan message) /\
  outputImage_src (world m2) = outputImage_src (world m1) /\
  localStorage (world m2) = localStorage (world m1) /\
  historyGrid (world m2) = historyGrid (world m1) /\
  sent_requests (calls (world m2)) = sent_requests (calls (world m1)) /\
  (awaiting m2 = <[i := AwaitCatchDialog]> (awaiting m1) /\
   disabled (world m2) = disabled (world m1) \/
   awaiting m2 = delete i (awaiting m1) /\ disabled (world m2) = all_enabled).
Proof.
  intros Hbutton Hkey Hprompt Hevs m1 Hp Hfail m2.
  destruct (failed_response_outcome m api_key apiKey available evs i fp o e uuid
              now available' Hbutton Hkey Hprompt Hevs Hp Hfail)
    as ([Hdisp Hdl] & Hrest).
  fold m1 m2 in Hdisp, Hdl, Hrest.
  split; [exact Hdl|]. split; [exact Hdisp|]. exact Hrest.
Qed.

End Interleaved.

Section Responses.
Context {host : Platform}.

(** The turn that resumes a flow whose [try] block runs to its end. *)
Lemma step_settle_ok (m : Machine) (i : nat) (fp : jsstring) (o : ApiOutcome)
    (uuid : jsstring) (now : Z) (available : bool) (w4 : World) :
  awaiting m !! i = Some (AwaitGenerateImages fp) ->
  (generateImage_response o >> generate_succeeded fp uuid now) (world m)
  = (w4, Ok tt) ->
  step m (api_settles i o uuid now available)
  = mkMachine (set_disabled all_enabled w4) (delete i (awaiting m)).
Proof.
  intros Hp Hbody. unfold api_settles.
  rewrite (step_settle m i _ (GenerateImagesSettled o uuid now available) Hp eq_refl).
  unfold generate_resume.
  set (body := generateImage_response o >> generate_succeeded fp uuid now) in *.
  clearbody body. unfold bind at 1. unfold attempt. rewrite Hbody. reflexivity.
Qed.

(** With an image in the response, the [try] block shows it, reports
    success and enables the download before it turns to the history. *)
Lemma try_block_shows (fp b : jsstring) (more : list jsstring)
    (uuid : jsstring) (now : Z) (w : World) :
  let url := lit "data:image/jpeg;base64," ++ b in
  (generateImage_response (ApiResponds (Some (b :: more))) >>
   generate_succeeded fp uuid now) w
  = (addToHistory (HistoryItem.mk uuid fp url now) >> renderHistory)
      (set_downloadButton_disabled false
         (set_statusEl (InnerText (lit "Image generated successfully."))
            (set_outputImage_display (lit "block")
               (set_outputImage_src url w)))).
Proof. reflexivity. Qed.

Lemma history_update_keeps {B} (f : World -> B) (item : HistoryItem.t) :
  (forall x w, f (set_localStorage x w) = f w) ->
  (forall x w, f (set_historyGrid x w) = f w) ->
  (forall x w, f (set_historyContainer_hidden x w) = f w) ->
  (forall x w, f (set_calls x w) = f w) ->
  keeps f (addToHistory item >> renderHistory).
Proof.
  intros Hls Hgrid Hhid Hcalls.
  unfold addToHistory, saveHistory, renderHistory, renderHistory_item, getHistory.
  frame; auto.
Qed.

(** The image a response brings is on show at the end of the [try] block,
    however the history fares. *)
Lemma try_block_image (fp b : jsstring) (more : list jsstring)
    (uuid : jsstring) (now : Z) (w : World) :
  let w1 := exec (generateImage_response (ApiResponds (Some (b :: more))) >>
                  generate_succeeded fp uuid now) w in
  outputImage_src w1 = lit "data:image/jpeg;base64," ++ b /\
  outputImage_display w1 = lit "block" /\
  downloadButton_disabled w1 = false.
Proof.
  intros w1. unfold w1, exec. rewrite try_block_shows.
  match goal with
  | |- context [?body ?w2] =>
    lazymatch body with
    | addToHistory _ >> renderHistory =>
      change (fst (body w2)) with (exec body w2)
    end
  end.
  repeat split.
  - rewrite (history_update_keeps outputImage_src); reflexivity.
  - rewrite (history_update_keeps outputImage_display); reflexivity.
  - rewrite (history_update_keeps downloadButton_disabled); reflexivity.
Qed.

(** The page after the turn in which a response with an image arrives. *)
Lemma step_settle_image (m : Machine) (i : nat) (fp b : jsstring)
    (more : list jsstring) (uuid : jsstring) (now : Z) (available : bool) :
  awaiting m !! i = Some (AwaitGenerateImages fp) ->
  let w' :=
    world (step m (api_settles i (ApiResponds (Some (b :: more))) uuid now
                     available)) in
  outputImage_src w' = lit "data:image/jpeg;base64," ++ b /\
  outputImage_display w' = lit "block" /\
  downloadButton_disabled w' = false.
Proof.
  intros Hp w'.
  pose proof (try_block_image fp b more uuid now (world m)) as Himage.
  cbv zeta in Himage. unfold exec in Himage.
  destruct ((generateImage_response (ApiResponds (Some (b :: more))) >>
             generate_succeeded fp uuid now) (world m)) as [w1 [[]|e]] eqn:Hbody;
    cbn [fst] in Himage.
  - unfold w'. rewrite (step_settle_ok m i fp _ uuid now available w1 Hp Hbody).
    exact Himage.
  - destruct (step_settle_threw m i fp _ uuid now available w1 e Hp Hbody)
      as (_ & Hdl & Hdisp & Hsrc & _).
    fold w' in Hdl, Hdisp, Hsrc.
    destruct Himage as (Hs & Hd & Hb). repeat split; congruence.
Qed.

(** X15: a successful generation, on the event loop.  When the response
    reaches a suspended flow with at least one image, and the history stored
    at that moment is a well-formed [h], the turn shows the first image as a
    JPEG data URI, reports success, enables the download button and the six
    controls, ends the flow, and puts one new item (the id and time the host
    gave, the prompt the flow composed when it started, the data URI) at
    the head of the stored history and of the grid, both cut to 30 entries.
    No request is sent and the key selection is not opened. *)
Theorem successful_generation (m : Machine) (i : nat) (fp b : jsstring)
    (more : list jsstring) (h : list HistoryItem.t) (uuid : jsstring) (now : Z)
    (available : bool) :
  JSON_reads_back_histories -> JSON_parse [] = None ->
  awaiting m !! i = Some (AwaitGenerateImages fp) ->
  completion getHistory (world m) = Ok (JArray (map HistoryItem.to_value h)) ->
  let m' :=
    step m (api_settles i (ApiResponds (Some (b :: more))) uuid now available) in
  let w' := world m' in
  let url := lit "data:image/jpeg;base64," ++ b in
  let item := HistoryItem.mk uuid fp url now in
  let stored := take MAX_HISTORY_ITEMS (item :: h) in
  awaiting m' = delete i (awaiting m) /\
  statusEl w' = InnerText (lit "Image generated successfully.") /\
  outputImage_src w' = url /\ outputImage_display w' = lit "block" /\
  downloadButton_disabled w' = false /\ disabled w' = all_enabled /\
  completion getHistory w' = Ok (JArray (map HistoryItem.to_value stored)) /\
  historyGrid w' = map HistoryItem.to_value stored /\
  historyContainer_hidden w' = false /\
  selectKey_opened (calls w') = selectKey_opened (calls (world m)) /\
  sent_requests (calls w') = sent_requests (calls (world m)).
Proof.
  intros Hback Hempty Hp Hget m' w' url item stored.
  set (env := mkFlowEnv None false Resolved (ApiResponds (Some (b :: more)))
                uuid now).
  destruct (try_block_succeeds env (world m) fp b more h Hback Hempty eq_refl Hget)
    as (w4 & Hbody & Hstatus & Hsrc & Hdisp & Hdl & Hget4 & Hgrid & Hhid & _).
  cbn [generateImages_settles randomUUID Date_now env] in Hbody.
  assert (Hm' : m' = mkMachine (set_disabled all_enabled w4)
                       (delete i (awaiting m)))
    by exact (step_settle_ok m i fp _ uuid now available w4 Hp Hbody).
  assert (Hw4 : w4 = exec (generateImage_response (ApiResponds (Some (b :: more)))
                           >> generate_succeeded fp uuid now) (world m))
    by (unfold exec; rewrite Hbody; reflexivity).
  unfold w'. rewrite Hm'. cbn [world awaiting].
  split; [reflexivity|]. split; [exact Hstatus|]. split; [exact Hsrc|].
  split; [exact Hdisp|]. split; [exact Hdl|]. split; [reflexivity|].
  split.
  { rewrite (getHistory_reads_storage _ w4) by reflexivity. exact Hget4. }
  split; [exact Hgrid|]. split; [exact Hhid|]. split.
  - change (selectKey_opened (calls w4) = selectKey_opened (calls (world m))).
    rewrite Hw4.
    assert (Hk : keeps (fun x => selectKey_opened (calls x))
                   (generateImage_response (ApiResponds (Some (b :: more))) >>
                    generate_succeeded fp uuid now))
      by (unfold_page; frame; quiet_call).
    exact (Hk (world m)).
  - change (sent_requests (calls w4) = sent_requests (calls (world m))).
    rewrite Hw4.
    assert (Hk : keeps (fun x => sent_requests (calls x))
                   (generateImage_response (ApiResponds (Some (b :: more))) >>
                    generate_succeeded fp uuid now))
      by (unfold_page; frame; quiet_requests).
    exact (Hk (world m)).
Qed.

(** X16: when the history stored at the moment the response arrives is JSON
    of another shape than an array, a response with an image still shows
    the image and enables its download, but the history cannot take the
    item: the turn ends in the [catch] block with an error status, and the
    storage and the grid are left as they were.  The flow then awaits the
    key selection, the controls as they are, or is over, the six controls
    enabled. *)
Theorem generation_with_misshapen_history (m : Machine) (i : nat)
    (fp b : jsstring) (more : list jsstring) (v : JSValue) (uuid : jsstring)
    (now : Z) (available : bool) :
  awaiting m !! i = Some (AwaitGenerateImages fp) ->
  completion getHistory (world m) = Ok v ->
  (forall elems, v <> JArray elems) ->
  let m' :=
    step m (api_settles i (ApiResponds (Some (b :: more))) uuid now available) in
  let w' := world m' in
  outputImage_src w' = lit "data:image/jpeg;base64," ++ b /\
  outputImage_display w' = lit "block" /\
  downloadButton_disabled w' = false /\
  (exists message, statusEl w' = ErrorSpan message) /\
  localStorage w' = localStorage (world m) /\
  completion getHistory w' = Ok v /\
  historyGrid w' = historyGrid (world m) /\
  (awaiting m' = <[i := AwaitCatchDialog]> (awaiting m) /\
   disabled w' = disabled (world m) \/
   awaiting m' = delete i (awaiting m) /\ disabled w' = all_enabled).
Proof.
  intros Hp Hget Hshape m' w'.
  destruct (step_settle_image m i fp b more uuid now available Hp)
    as (Hsrc & Hdisp & Hdl).
  fold m' in Hsrc, Hdisp, Hdl. fold w' in Hsrc, Hdisp, Hdl.
  set (url := lit "data:image/jpeg;base64," ++ b) in *.
  set (w2 := set_downloadButton_disabled false
               (set_statusEl (InnerText (lit "Image generated successfully."))
                  (set_outputImage_display (lit "block")
                     (set_outputImage_src url (world m))))).
  assert (Hget2 : completion getHistory w2 = Ok v).
  { rewrite (getHistory_reads_storage w2 (world m)) by reflexivity. exact Hget. }
  set (item := HistoryItem.mk uuid fp url now).
  pose proof (addToHistory_throws item v w2 Hget2 Hshape) as Hadd.
  assert (Hbody : (generateImage_response (ApiResponds (Some (b :: more))) >>
                   generate_succeeded fp uuid now) (world m)
                  = (exec getHistory w2, Threw (TypeError "history.unshift"))).
  { rewrite try_block_shows. apply bind_threw. exact Hadd. }
  destruct (step_settle_threw m i fp _ uuid now available _ _ Hp Hbody)
    as (Hstatus & _ & _ & _ & Hls & Hgrid & _ & Hend).
  fold m' in Hstatus, Hls, Hgrid, Hend. fold w' in Hstatus, Hls, Hgrid, Hend.
  assert (Hls' : localStorage w' = localStorage (world m)).
  { rewrite Hls. apply (getHistory_storage w2). }
  split; [exact Hsrc|]. split; [exact Hdisp|]. split; [exact Hdl|].
  split; [exact Hstatus|]. split; [exact Hls'|]. split.
  { rewrite (getHistory_reads_storage w' (world m) Hls'). exact Hget. }
  split.
  { rewrite Hgrid. apply (getHistory_keeps_historyGrid w2). }
  destruct Hend as [[Ha Hd] | [Ha Hd]]; [left | right]; split;
    try assumption.
  rewrite Hd. apply (getHistory_keeps_disabled w2).
Qed.

(** X20: the download button after a generation, on the event loop.  When a
    generation fails at the API, and from the click that started it no
    thumbnail was clicked and no other response brought an image, the
    listener of the download button starts no download; after the turn in
    which a response with an image arrives, it downloads that image. *)
Theorem download_after_generation (m : Machine) (i : nat) (fp : jsstring)
    (uuid : jsstring) (now : Z) (available' : bool) :
  (forall api_key apiKey available evs o e,
     generateButton (disabled (world m)) = false ->
     usable_key api_key = Some apiKey ->
     truthy (trim (prompt (world m))) = true ->
     Forall (fun ev => shows_image ev = false) evs ->
     let m1 := run (step m (GenerateClick api_key available)) evs in
     awaiting m1 !! i = Some (AwaitGenerateImages fp) ->
     failure_of o = Some e ->
     downloadButton_click
       (world (step m1 (api_settles i o uuid now available'))) = None) /\
  (forall b more,
     awaiting m !! i = Some (AwaitGenerateImages fp) ->
     exists d,
       downloadButton_click
         (world (step m (api_settles i (ApiResponds (Some (b :: more))) uuid
                           now available'))) = Some d /\
       link_href d = lit "data:image/jpeg;base64," ++ b).
Proof.
  split.
  - intros api_key apiKey available evs o e Hbutton Hkey Hprompt Hevs m1 Hp Hfail.
    destruct (failed_response_outcome m api_key apiKey available evs i fp o e
                uuid now available' Hbutton Hkey Hprompt Hevs Hp Hfail)
      as ([Hdisp _] & _).
    apply (proj1 (download_guard _)). right. exact Hdisp.
  - intros b more Hp.
    destruct (step_settle_image m i fp b more uuid now available' Hp)
      as (Hsrc & Hdisp & _).
    set (w' := world (step m (api_settles i (ApiResponds (Some (b :: more)))
                                uuid now available'))) in *.
    destruct (downloadButton_click w') as [d|] eqn:Hclick.
    + exists d. split; [reflexivity|].
      rewrite (proj2 (download_guard w') d Hclick). exact Hsrc.
    + apply (proj1 (download_guard w')) in Hclick.
      destruct Hclick as [Hs|Hd];
        [rewrite Hsrc in Hs | rewrite Hdisp in Hd]; discriminate.
Qed.

End Responses.

(** * The page on the reference host *)

#[local] Existing Instance Host.platform.

Lemma history_bounded_newest_first_witness :
  let item := fun n =>
    HistoryItem.mk (lit "id") (lit "a cat") (lit "data:,") (Z.of_nat n) in
  let items := map item (seq 0 31) in
  let w := blank_page ∅ in
  let w' := exec (forEach items addToHistory) w in
  let stored := take 30 (rev items) in
  completion getHistory w = Ok (JArray []) /\
  completion getHistory w' = Ok (JArray (map HistoryItem.to_value stored)) /\
  length stored = 30%nat /\
  completion getHistory (exec (addToHistory (item 31%nat)) w')
  = Ok (JArray (map HistoryItem.to_value (item 31%nat :: removelast stored))).
Proof.
  intros item items w w' stored.
  assert (Hfresh : completion getHistory w = Ok (JArray [])) by reflexivity.
  split; [exact Hfresh|].
  destruct (history_bounded_newest_first (host := Host.platform) items w
              (fun h => HostFacts.parse_stringify (JArray (map HistoryItem.to_value h)))
              HostFacts.parse_empty Hfresh)
    as (_ & Hstored & Hlen & _ & Hfull).
  split; [exact Hstored|]. split; [exact Hlen|].
  exact (proj2 (Hfull (item 31%nat) Hlen)).
Defined.

(** A stored text that is JSON of another shape is not a parse failure:
    [getHistory] hands the value over as it is, and [renderHistory] then
    throws on it. *)
Lemma getHistory_other_shape :
  let w := blank_page {[ HISTORY_KEY := lit "null" ]} in
  completion getHistory w = Ok JNull /\
  completion renderHistory w = Threw (TypeError "history.length").
Proof. vm_compute. split; reflexivity. Qed.

Lemma getHistory_corrupt_witness :
  let w := blank_page {[ HISTORY_KEY := lit "{not json" ]} in
  localStorage w !! HISTORY_KEY = Some (lit "{not json") /\
  JSON_parse (lit "{not json") = None /\
  completion getHistory w = Ok (JArray []).
Proof.
  intros w.
  assert (Hblob : localStorage w !! HISTORY_KEY = Some (lit "{not json"))
    by (vm_compute; reflexivity).
  assert (Hparse : JSON_parse (lit "{not json") = None) by reflexivity.
  split; [exact Hblob|]. split; [exact Hparse|].
  exact (proj1 (getHistory_corrupt w _ Hblob Hparse)).
Defined.

Lemma finalPrompt_deterministic_witness :
  let env := env_with (ApiResponds (Some [lit "AAAA"])) in
  let w1 := cat_page in
  let w2 := set_aspectRatio (lit "1:1") cat_page in
  usable_key (API_KEY env) = Some (lit "KEY") /\
  finalPrompt w1 = finalPrompt w2 /\
  sent_prompts (calls (exec (generate env) w1)) = [finalPrompt w1] /\
  finalPrompt w1
  = lit "a cat, 720p resolution, standard quality, sharp focus, basic detail, photorealistic, film still, movie scene, fit prompt, no distortion, no deformations, no text overlays".
Proof.
  intros env w1 w2.
  assert (Hkey : usable_key (API_KEY env) = Some (lit "KEY")) by reflexivity.
  destruct (finalPrompt_deterministic env w1 w2 (lit "KEY") Hkey
              eq_refl eq_refl eq_refl eq_refl) as (Hsame & Hsent & Hexample).
  split; [exact Hkey|]. split; [exact Hsame|]. split; [exact Hsent|].
  apply Hexample; reflexivity.
Defined.


Lemma negativePrompt_suffix_witness :
  let w := set_negativePrompt (lit "  blurry ") cat_page in
  trim (negativePrompt w) = lit "blurry" /\
  finalPrompt w = finalPrompt cat_page ++ lit ". Negative prompt: blurry" /\
  trim (negativePrompt cat_page) = [].
Proof.
  intros w.
  assert (Htrim : trim (negativePrompt w) = lit "blurry") by reflexivity.
  split; [exact Htrim|]. split; [|reflexivity].
  rewrite (proj1 (negativePrompt_suffix w) (lit "blurry") Htrim ltac:(discriminate)).
  rewrite (proj2 (negativePrompt_suffix cat_page) eq_refl). reflexivity.
Defined.

Lemma error_classification_witness :
  let bad_key :=
    env_with (ApiRejects (JSError (MsgString
      (lit "[400] API key not valid. Please pass a valid API key. (API_KEY_INVALID)")))) in
  let overloaded :=
    env_with (ApiRejects (JSError (MsgString (lit "The model is overloaded.")))) in
  (statusEl (exec (generate bad_key) cat_page) = ErrorSpan invalid_key_message /\
   selectKey_opened (calls (exec (generate bad_key) cat_page)) = 1%nat) /\
  (statusEl (exec (generate overloaded) cat_page)
   = ErrorSpan (lit "Error: The model is overloaded.") /\
   selectKey_opened (calls (exec (generate overloaded) cat_page)) = 0%nat).
Proof.
  intros bad_key overloaded. split.
  - apply (proj1 (proj1 (error_classification bad_key cat_page (lit "KEY") _
                           eq_refl eq_refl) eq_refl eq_refl)).
    reflexivity.
  - apply (proj2 (error_classification overloaded cat_page (lit "KEY") _
                    eq_refl eq_refl)); reflexivity.
Defined.

(** C4 as stated fails: "Requested entity was not found." is tested first,
    so a message that also carries API_KEY_INVALID gets the model-not-found
    text; and where the host has no key selection, the invalid-key text is
    replaced at once and nothing is opened. *)
Lemma invalid_key_message_not_shown :
  let m := lit "[404] Requested entity was not found. (API_KEY_INVALID)" in
  let both := env_with (ApiRejects (JSError (MsgString m))) in
  let m' := lit "API_KEY_INVALID" in
  let no_dialog :=
    mkFlowEnv (Some (lit "KEY")) false Resolved
      (ApiRejects (JSError (MsgString m'))) (lit "uuid-1") 1730000000000 in
  (includes m (lit "API_KEY_INVALID") = true /\
   statusEl (exec (generate both) cat_page)
   = ErrorSpan (lit "Model not found. This can be caused by an invalid API key or permission issues. Please check your API key.") /\
   statusEl (exec (generate both) cat_page) <> ErrorSpan invalid_key_message) /\
  (includes m' (lit "API_KEY_INVALID") = true /\
   statusEl (exec (generate no_dialog) cat_page)
   = ErrorSpan selectKey_unavailable_message /\
   statusEl (exec (generate no_dialog) cat_page) <> ErrorSpan invalid_key_message /\
   selectKey_opened (calls (exec (generate no_dialog) cat_page)) = 0%nat).
Proof.
  vm_compute. repeat split; try reflexivity; discriminate.
Qed.

Lemma controls_reenabled_witness :
  let ok := env_with (ApiResponds (Some [lit "AAAA"])) in
  let failing := env_with (ApiRejects NonError) in
  usable_key (API_KEY ok) = Some (lit "KEY") /\
  disabled (exec (generate ok) cat_page) = all_enabled /\
  disabled (exec (generate failing) cat_page) = all_enabled.
Proof.
  intros ok failing. split; [reflexivity|]. split.
  - exact (proj1 (controls_reenabled ok cat_page (lit "KEY") eq_refl)).
  - exact (proj1 (controls_reenabled failing cat_page (lit "KEY") eq_refl)).
Defined.

Lemma blank_prompt_rejected_witness :
  let env := env_with (ApiResponds (Some [lit "AAAA"])) in
  let w := set_prompt (lit "   ") (blank_page ∅) in
  trim (prompt w) = [] /\
  statusEl (exec (generateButton_click env) w)
  = ErrorSpan (lit "Please enter a prompt to generate an image.") /\
  calls (exec (generateButton_click env) w) = [] /\
  disabled (exec (generateButton_click env) w) = all_enabled.
Proof.
  intros env w.
  assert (Hblank : trim (prompt w) = []) by reflexivity.
  destruct (blank_prompt_rejected env w Hblank) as (_ & Hw & Hcalls & _ & Hd & _).
  split; [exact Hblank|]. split; [rewrite Hw; reflexivity|].
  split; [exact Hcalls | exact Hd].
Defined.

Lemma second_submit_ignored_witness :
  let evs := [PromptInput (lit "a cat"); GenerateClick (Some (lit "KEY")) true] in
  let m := run (loaded (blank_page ∅)) evs in
  in_flight m /\
  step m (GenerateClick (Some (lit "KEY")) true) = m.
Proof.
  intros evs m.
  assert (Hflight : in_flight m).
  { exists (finalPrompt (set_prompt (lit "a cat") (blank_page ∅))).
    vm_compute. constructor. }
  split; [exact Hflight|].
  exact (proj1 (second_submit_ignored (blank_page ∅) evs _ _ Hflight)).
Defined.

Lemma restore_main_prompt_witness :
  let item :=
    HistoryItem.to_value
      (HistoryItem.mk (lit "uuid-1") (finalPrompt cat_page) (lit "data:,") 1) in
  let w' := exec (historyItem_click item) (blank_page ∅) in
  get_prop item (lit "prompt") = Some (JString (finalPrompt cat_page)) /\
  prompt w'
  = lit "a cat, 720p resolution, standard quality, sharp focus, basic detail" /\
  prompt w' <> prompt cat_page.
Proof.
  intros item w'.
  assert (Hprop : get_prop item (lit "prompt") = Some (JString (finalPrompt cat_page)))
    by reflexivity.
  split; [exact Hprop|].
  destruct (restore_main_prompt item _ (blank_page ∅) Hprop)
    as (_ & _ & _ & _ & Hcomposed).
  destruct (Hcomposed cat_page eq_refl eq_refl) as [Hkept Hmore].
  split; [exact Hkept | exact Hmore].
Defined.

(** C10 as stated fails when the user's own prompt contains the separator:
    the text is cut there, before the quality keywords and inside the
    user's prompt. *)
Lemma restore_cuts_user_prompt :
  let w0 :=
    set_qualityPreset (lit "sd")
      (set_prompt (lit "a cat, photorealistic fur") (blank_page ∅)) in
  let item :=
    HistoryItem.to_value
      (HistoryItem.mk (lit "uuid-1") (finalPrompt w0) (lit "data:,") 1) in
  let w' := exec (historyItem_click item) (blank_page ∅) in
  prompt w' = lit "a cat" /\
  prompt w'
  <> prompt w0 ++ cameraViewPrompt (cameraView w0) ++ lit ", "
     ++ qualityKeywords (qualityPreset w0).
Proof.
  vm_compute. split; [reflexivity | discriminate].
Qed.

(** ** Instances of the further properties *)

Lemma host_reads_back_histories : JSON_reads_back_histories.
Proof.
  intros h. apply (HostFacts.parse_stringify (JArray (map HistoryItem.to_value h))).
Qed.

Lemma addToHistory_truncates_witness :
  let w := cat_page_storing (JSON_stringify (JArray (map HistoryItem.to_value two_items))) in
  let item := HistoryItem.mk (lit "id-3") (lit "a fox") (lit "data:,3") 3 in
  completion getHistory w = Ok (JArray (map HistoryItem.to_value two_items)) /\
  localStorage (exec (addToHistory item) w) !! HISTORY_KEY
  = Some (JSON_stringify (JArray (map HistoryItem.to_value (item :: two_items)))).
Proof.
  intros w item.
  assert (Hget : completion getHistory w
                 = Ok (JArray (map HistoryItem.to_value two_items)))
    by (vm_compute; reflexivity).
  split; [exact Hget|].
  destruct (addToHistory_truncates item _ w Hget) as (kept & _ & Hls & -> & _).
  exact Hls.
Defined.

Lemma addToHistory_not_an_array_witness :
  let w := cat_page_storing (lit "{}") in
  let item := HistoryItem.mk (lit "id-3") (lit "a fox") (lit "data:,3") 3 in
  completion getHistory w = Ok (JObject []) /\
  completion (addToHistory item) w = Threw (TypeError "history.unshift") /\
  localStorage (exec (addToHistory item) w) = localStorage w.
Proof.
  intros w item.
  assert (Hget : completion getHistory w = Ok (JObject []))
    by (vm_compute; reflexivity).
  split; [exact Hget|].
  apply (addToHistory_not_an_array item (JObject []) w Hget). discriminate.
Defined.

Lemma addToHistory_replaces_corrupt_witness :
  let w := cat_page_storing (lit "[{") in
  let item := HistoryItem.mk (lit "id-3") (lit "a fox") (lit "data:,3") 3 in
  JSON_parse (lit "[{") = None /\
  completion getHistory (exec (addToHistory item) w)
  = Ok (JArray [HistoryItem.to_value item]).
Proof.
  intros w item.
  assert (Hparse : JSON_parse (lit "[{") = None) by reflexivity.
  split; [exact Hparse|].
  apply (addToHistory_replaces_corrupt item (lit "[{") w
           host_reads_back_histories HostFacts.parse_empty); [|exact Hparse].
  vm_compute. reflexivity.
Defined.

Lemma renderHistory_shows_history_witness :
  let w := cat_page_storing (JSON_stringify (JArray (map HistoryItem.to_value two_items))) in
  completion getHistory w = Ok (JArray (map HistoryItem.to_value two_items)) /\
  historyGrid (exec renderHistory w) = map HistoryItem.to_value two_items /\
  historyContainer_hidden (exec renderHistory w) = false.
Proof.
  intros w.
  assert (Hget : completion getHistory w
                 = Ok (JArray (map HistoryItem.to_value two_items)))
    by (vm_compute; reflexivity).
  split; [exact Hget|].
  destruct (renderHistory_shows_history two_items w Hget)
    as (_ & Hhidden & Hgrid & _).
  split; [exact Hgrid | exact Hhidden].
Defined.

Lemma initial_load_shows_history_witness :
  let w := cat_page_storing (JSON_stringify (JArray (map HistoryItem.to_value two_items))) in
  completion getHistory w = Ok (JArray (map HistoryItem.to_value two_items)) /\
  downloadButton_disabled (exec initial_load w) = true /\
  historyGrid (exec initial_load w) = map HistoryItem.to_value two_items.
Proof.
  intros w.
  assert (Hget : completion getHistory w
                 = Ok (JArray (map HistoryItem.to_value two_items)))
    by (vm_compute; reflexivity).
  split; [exact Hget|].
  destruct (initial_load_shows_history two_items w Hget)
    as (_ & Hdl & _ & Hgrid & _).
  split; [exact Hdl | apply Hgrid; discriminate].
Defined.

Lemma empty_result_reported_witness :
  let env := env_with (ApiResponds (Some [])) in
  let w' := exec (generate env) cat_page in
  let message :=
    lit "No images were generated. The prompt may have been blocked." in
  generateImages_settles env = ApiResponds (Some []) /\
  includes (toLowerCase message) (lit "permission denied") = false /\
  statusEl w' = ErrorSpan (lit "Error: " ++ message) /\
  selectKey_opened (calls w') = 0%nat.
Proof.
  intros env w' message.
  assert (Hlower : includes (toLowerCase message) (lit "permission denied") = false)
    by (vm_compute; reflexivity).
  split; [reflexivity|]. split; [exact Hlower|].
  destruct (empty_result_reported env cat_page (lit "KEY") eq_refl
              (or_intror eq_refl) Hlower) as (Hstatus & Hopened & _).
  split; [exact Hstatus | exact Hopened].
Defined.

Lemma other_signatures_classified_witness :
  let not_found :=
    env_with (ApiRejects (JSError (MsgString (lit "[404] Requested entity was not found.")))) in
  let denied :=
    env_with (ApiRejects (JSError (MsgString (lit "PERMISSION DENIED for this project")))) in
  (statusEl (exec (generate not_found) cat_page) = ErrorSpan model_not_found_message /\
   selectKey_opened (calls (exec (generate not_found) cat_page)) = 1%nat) /\
  (statusEl (exec (generate denied) cat_page) = ErrorSpan invalid_key_message /\
   selectKey_opened (calls (exec (generate denied) cat_page)) = 1%nat).
Proof.
  intros not_found denied. split.
  - apply (proj1 (other_signatures_classified not_found cat_page (lit "KEY") _
                    eq_refl eq_refl eq_refl)).
    reflexivity.
  - apply (proj2 (other_signatures_classified denied cat_page (lit "KEY") _
                    eq_refl eq_refl eq_refl)).
    + reflexivity.
    + right. reflexivity.
Defined.

Lemma unclassified_throw_reported_witness :
  let thrown := env_with (ApiRejects NonError) in
  let odd := env_with (ApiRejects (JSError (MsgOther (lit "[object Object]")))) in
  statusEl (exec (generate thrown) cat_page)
  = ErrorSpan (lit "Error: An unknown error occurred.") /\
  statusEl (exec (generate odd) cat_page)
  = ErrorSpan (lit "Error: [object Object]").
Proof.
  intros thrown odd. split.
  - apply (proj1 (unclassified_throw_reported thrown cat_page (lit "KEY") eq_refl));
      reflexivity.
  - apply (proj2 (unclassified_throw_reported odd cat_page (lit "KEY") eq_refl)
             (lit "[object Object]")).
    reflexivity.
Defined.

Lemma no_key_no_request_witness :
  let w' := exec (generate env_without_key) cat_page in
  usable_key (API_KEY env_without_key) = None /\
  sent_requests (calls w') = [] /\ disabled w' = all_enabled /\
  statusEl w' = ErrorSpan selectKey_unavailable_message.
Proof.
  intros w'. split; [reflexivity|].
  destruct (no_key_no_request env_without_key cat_page eq_refl)
    as (Hsent & Hdis & _ & _ & Hstatus & _).
  split; [exact Hsent|]. split; [exact Hdis | exact Hstatus].
Defined.

Lemma one_request_per_flow_witness :
  let env := env_with (ApiResponds (Some [lit "AAAA"])) in
  let w := set_aspectRatio [] cat_page in
  usable_key (API_KEY env) = Some (lit "KEY") /\
  exists req,
    sent_requests (calls (exec (generate env) w)) = [req] /\
    req_model req = lit "imagen-4.0-generate-001" /\
    req_aspectRatio req = None.
Proof.
  intros env w. split; [reflexivity|].
  destruct (one_request_per_flow env w (lit "KEY") eq_refl)
    as (req & Hsent & _ & Hmodel & _ & Hnone & _).
  exists req. split; [exact Hsent|]. split; [exact Hmodel|].
  apply Hnone. reflexivity.
Defined.

Lemma generating_busy : reachable generating /\ busy generating.
Proof.
  split.
  - exists (blank_page ∅). eexists. reflexivity.
  - exists (AwaitGenerateImages (finalPrompt (set_prompt (lit "a cat") (blank_page ∅)))).
    split; [vm_compute; constructor | reflexivity].
Qed.

Lemma controls_locked_while_busy_witness :
  reachable generating /\ busy generating /\
  step generating (PromptInput (lit "a dog")) = generating /\
  step generating (CameraViewChange (lit "low-angle")) = generating.
Proof.
  destruct generating_busy as [Hreach Hbusy].
  split; [exact Hreach|]. split; [exact Hbusy|]. split.
  - exact (proj2 (controls_locked_while_busy generating (PromptInput (lit "a dog"))
                    Hreach Hbusy eq_refl)).
  - exact (proj2 (controls_locked_while_busy generating
                    (CameraViewChange (lit "low-angle")) Hreach Hbusy eq_refl)).
Defined.

Lemma one_flow_at_a_time_witness :
  reachable generating /\
  (forall j q, awaiting generating !! j = Some q -> keyed q = true -> 0%nat = j).
Proof.
  destruct generating_busy as [Hreach _].
  split; [exact Hreach|]. intros j q Hq Hkeyed.
  apply (one_flow_at_a_time generating 0 j
           (AwaitGenerateImages (finalPrompt (set_prompt (lit "a cat") (blank_page ∅))))
           q Hreach); [vm_compute; reflexivity | exact Hq | reflexivity | exact Hkeyed].
Defined.

Lemma generateButton_click_unguarded_witness :
  let w := world generating in
  generateButton (disabled w) = true /\
  truthy (trim (prompt w)) = true /\
  requests (exec (generateButton_click_start (Some (lit "KEY")) true) w)
  = requests w ++ [finalPrompt w].
Proof.
  intros w.
  assert (Hprompt : truthy (trim (prompt w)) = true) by (vm_compute; reflexivity).
  split; [vm_compute; reflexivity|]. split; [exact Hprompt|].
  exact (proj2 (generateButton_click_unguarded (Some (lit "KEY")) (lit "KEY")
                  true w eq_refl Hprompt)).
Defined.

Lemma download_filename_safe_witness :
  let w :=
    set_outputImage_display (lit "block")
      (set_outputImage_src (lit "data:image/jpeg;base64,AAAA")
         (set_promptEl_value (lit "  A Cat: on the  Moon! ") cat_page)) in
  downloadButton_click w
  = Some (mkDownload (lit "data:image/jpeg;base64,AAAA")
            (lit "a-cat-on-the-moon.jpeg")) /\
  exists stem,
    lit "a-cat-on-the-moon.jpeg" = stem ++ lit ".jpeg" /\
    (1 <= length stem <= 50)%nat /\ Forall stem_unit stem.
Proof.
  intros w.
  assert (Hclick : downloadButton_click w
                   = Some (mkDownload (lit "data:image/jpeg;base64,AAAA")
                             (lit "a-cat-on-the-moon.jpeg")))
    by (vm_compute; reflexivity).
  split; [exact Hclick|].
  exact (proj1 (download_filename_safe w _ Hclick)).
Defined.

Lemma restore_then_generate_repeats_witness :
  let w0 := set_cameraView (lit "low-angle") cat_page in
  let item :=
    HistoryItem.to_value
      (HistoryItem.mk (lit "uuid-1") (finalPrompt w0) (lit "data:,") 1) in
  let presets :=
    lit ", Shot from a low angle perspective, 720p resolution, standard quality, sharp focus, basic detail" in
  exists rest,
    finalPrompt (exec (historyItem_click item) w0)
    = lit "a cat" ++ presets ++ presets ++ rest.
Proof.
  intros w0 item presets.
  exact (restore_then_generate_repeats item w0 w0 eq_refl eq_refl eq_refl eq_refl).
Defined.

Lemma failed_generation_leaves_witness :
  let m1 :=
    run (step typed (GenerateClick (Some (lit "KEY")) true))
      [ClearHistoryClick true; NegativePromptInput (lit "blurry")] in
  let m2 :=
    step m1
      (api_settles 0
         (ApiRejects (JSError (MsgString (lit "The model is overloaded."))))
         (lit "uuid-1") 1730000000000 true) in
  awaiting m1 !! 0%nat = Some (AwaitGenerateImages (finalPrompt (world typed))) /\
  downloadButton_disabled (world m2) = true /\
  outputImage_display (world m2) = lit "none" /\
  statusEl (world m2) = ErrorSpan (lit "Error: The model is overloaded.") /\
  disabled (world m2) = all_enabled.
Proof.
  intros m1 m2.
  assert (Hp : awaiting m1 !! 0%nat
               = Some (AwaitGenerateImages (finalPrompt (world typed))))
    by (vm_compute; reflexivity).
  split; [exact Hp|].
  destruct (failed_generation_leaves typed (Some (lit "KEY")) (lit "KEY") true
              [ClearHistoryClick true; NegativePromptInput (lit "blurry")]
              0 (finalPrompt (world typed))
              (ApiRejects (JSError (MsgString (lit "The model is overloaded."))))
              (JSError (MsgString (lit "The model is overloaded.")))
              (lit "uuid-1") 1730000000000 true
              eq_refl eq_refl eq_refl
              ltac:(repeat constructor) Hp eq_refl)
    as (Hdl & Hdisp & _).
  split; [exact Hdl|]. split; [exact Hdisp|].
  split; vm_compute; reflexivity.
Defined.

Lemma successful_generation_witness :
  let m := cleared_while_generating in
  let m' :=
    step m (api_settles 0 (ApiResponds (Some [lit "AAAA"])) (lit "uuid-1")
              1730000000000 true) in
  let item :=
    HistoryItem.mk (lit "uuid-1") (finalPrompt cat_page)
      (lit "data:image/jpeg;base64,AAAA") 1730000000000 in
  awaiting m !! 0%nat = Some (AwaitGenerateImages (finalPrompt cat_page)) /\
  completion getHistory (world m) = Ok (JArray []) /\
  awaiting m' = [] /\
  statusEl (world m') = InnerText (lit "Image generated successfully.") /\
  completion getHistory (world m') = Ok (JArray [HistoryItem.to_value item]) /\
  historyGrid (world m') = [HistoryItem.to_value item].
Proof.
  intros m m' item.
  assert (Hp : awaiting m !! 0%nat
               = Some (AwaitGenerateImages (finalPrompt cat_page)))
    by (vm_compute; reflexivity).
  assert (Hget : completion getHistory (world m)
                 = Ok (JArray (map HistoryItem.to_value [])))
    by (vm_compute; reflexivity).
  split; [exact Hp|]. split; [exact Hget|].
  destruct (successful_generation m 0 (finalPrompt cat_page) (lit "AAAA") [] []
              (lit "uuid-1") 1730000000000 true
              host_reads_back_histories HostFacts.parse_empty Hp Hget)
    as (Hawaiting & Hstatus & _ & _ & _ & _ & Hstored & Hgrid & _).
  split; [exact Hawaiting|]. split; [exact Hstatus|].
  split; [exact Hstored | exact Hgrid].
Defined.

Lemma generation_with_misshapen_history_witness :
  let m := generating_on (lit "{}") in
  let m' :=
    step m (api_settles 0 (ApiResponds (Some [lit "AAAA"])) (lit "uuid-1")
              1730000000000 true) in
  awaiting m !! 0%nat = Some (AwaitGenerateImages (finalPrompt cat_page)) /\
  completion getHistory (world m) = Ok (JObject []) /\
  outputImage_src (world m') = lit "data:image/jpeg;base64,AAAA" /\
  downloadButton_disabled (world m') = false /\
  localStorage (world m') = localStorage (world m) /\
  (exists message, statusEl (world m') = ErrorSpan message).
Proof.
  intros m m'.
  assert (Hp : awaiting m !! 0%nat
               = Some (AwaitGenerateImages (finalPrompt cat_page)))
    by (vm_compute; reflexivity).
  assert (Hget : completion getHistory (world m) = Ok (JObject []))
    by (vm_compute; reflexivity).
  split; [exact Hp|]. split; [exact Hget|].
  destruct (generation_with_misshapen_history m 0 (finalPrompt cat_page)
              (lit "AAAA") [] (JObject []) (lit "uuid-1") 1730000000000 true
              Hp Hget ltac:(discriminate))
    as (Hsrc & _ & Hdl & Hstatus & Hls & _).
  split; [exact Hsrc|]. split; [exact Hdl|]. split; [exact Hls | exact Hstatus].
Defined.

Lemma download_after_generation_witness :
  let m1 :=
    run (step typed (GenerateClick (Some (lit "KEY")) true))
      [ClearHistoryClick true; NegativePromptInput (lit "blurry")] in
  awaiting m1 !! 0%nat = Some (AwaitGenerateImages (finalPrompt (world typed))) /\
  downloadButton_click
    (world (step m1 (api_settles 0 (ApiResponds None) (lit "uuid-1")
                       1730000000000 true))) = None /\
  exists d,
    downloadButton_click
      (world (step m1 (api_settles 0 (ApiResponds (Some [lit "AAAA"]))
                         (lit "uuid-1") 1730000000000 true))) = Some d /\
    link_href d = lit "data:image/jpeg;base64,AAAA".
Proof.
  intros m1.
  assert (Hp : awaiting m1 !! 0%nat
               = Some (AwaitGenerateImages (finalPrompt (world typed))))
    by (vm_compute; reflexivity).
  split; [exact Hp|]. split.
  - apply (proj1 (download_after_generation typed 0 (finalPrompt (world typed))
                    (lit "uuid-1") 1730000000000 true)
             (Some (lit "KEY")) (lit "KEY") true
             [ClearHistoryClick true; NegativePromptInput (lit "blurry")]
             (ApiResponds None)
             (JSError (MsgString
                (lit "No images were generated. The prompt may have been blocked.")))
             eq_refl eq_refl eq_refl ltac:(repeat constructor) Hp eq_refl).
  - apply (proj2 (download_after_generation m1 0 (finalPrompt (world typed))
                    (lit "uuid-1") 1730000000000 true) (lit "AAAA") [] Hp).
Defined.
